(** * Aalen additive fitter: a shallow embedding of
      [lifelines/fitters/aalen_additive_fitter.py]

    Numbers.  The Python code computes with IEEE doubles.  Here every
    finite value is an exact rational ([Q]); [exp] is taken in the reals.
    Division by a zero standard deviation, NaN and the infinities are
    outside this model (in [Q], [x / 0] is [0]).

    Library code.  [numpy], [pandas] and the helpers imported from
    [lifelines.utils] are not part of the file under study.  The few array
    operations the class uses are written out in [Module np]; the helpers
    that decide nothing structural ([ridge_regression], [std], [normalize],
    the value checks, ...) are the fields of an environment record [Env],
    over which every definition and theorem is parametric.  [Module Ref]
    gives one executable instance of it, used to run the code on concrete
    datasets. *)

From Stdlib Require Import String Ascii.
From Stdlib Require Import Reals Lra.
From Stdlib Require Import List SetoidList Sorted Permutation ZArith QArith Qround Qreals Bool Lia Lqa.
Import ListNotations.

Local Open Scope string_scope.
Local Open Scope list_scope.
Local Open Scope Q_scope.

Definition Qlt_bool (x y : Q) : bool := negb (Qle_bool y x).

Definition vector := list Q.
Definition matrix := list (list Q).   (* a 2-d array, as the list of its rows *)
Definition mask := list bool.

(** ** The array operations used by the class *)

Module np.

Definition zeros (d : nat) : vector := repeat 0 d.

Definition zeros2 (r d : nat) : matrix := repeat (zeros d) r.

(** [X.shape] of a 2-d array.  A list of rows does not remember its
    width when it has no row; the width is then read as [0], and no
    code below depends on it in that case (there is no death time). *)
Definition shape (X : matrix) : nat * nat := (length X, length (hd [] X)).

(** [T == t] *)
Definition eq_scalar (T : vector) (t : Q) : mask :=
  map (fun x => Qeq_bool x t) T.

(** [a & b] *)
Fixpoint logical_and (a b : mask) : mask :=
  match a, b with
  | x :: a', y :: b' => (x && y)%bool :: logical_and a' b'
  | _, _ => []
  end.

(** [l[m]] with a boolean mask [m] *)
Fixpoint bool_index {A : Type} (l : list A) (m : mask) : list A :=
  match l, m with
  | x :: l', b :: m' => if b then x :: bool_index l' m' else bool_index l' m'
  | _, _ => []
  end.

(** [m.sum()] for a boolean mask *)
Definition count (m : mask) : Z := Z.of_nat (length (filter (fun b => b) m)).

(** [m.any()] *)
Definition any (m : mask) : bool := existsb (fun b => b) m.

Definition sum (l : vector) : Q := fold_right Qplus 0 l.

(** insertion of [x] in a sorted list without repetition *)
Fixpoint insert_unique (x : Q) (l : vector) : vector :=
  match l with
  | [] => [x]
  | y :: l' =>
      if Qeq_bool x y then l
      else if Qle_bool x y then x :: l
      else y :: insert_unique x l'
  end.

(** [np.unique]: the sorted distinct values *)
Definition unique (l : vector) : vector := fold_right insert_unique [] l.

Fixpoint insert (x : Q) (l : vector) : vector :=
  match l with
  | [] => [x]
  | y :: l' => if Qle_bool x y then x :: l else y :: insert x l'
  end.

Definition sort (l : vector) : vector := fold_right insert [] l.

(** [M[i, :] = r] *)
Fixpoint set_row (i : nat) (r : vector) (M : matrix) : matrix :=
  match M, i with
  | [], _ => []
  | _ :: M', O => r :: M'
  | x :: M', S i' => x :: set_row i' r M'
  end.

(** [X[m, :] = 0] *)
Fixpoint zero_rows (X : matrix) (m : mask) : matrix :=
  match X, m with
  | r :: X', b :: m' =>
      (if b then map (fun _ => 0) r else r) :: zero_rows X' m'
  | _, _ => X
  end.

(** [(V[:, m] ** 2).sum(1)] *)
Definition sq_sum_cols (V : matrix) (m : mask) : vector :=
  map (fun r => sum (map (fun x => x * x) (bool_index r m))) V.

(** [R[:, :-1]] and [R[:, -1]] *)
Definition drop_last_col (R : matrix) : matrix := map (@removelast Q) R.
Definition last_col (R : matrix) : vector := map (fun r => last r 0) R.

(** running sums of the rows: [DataFrame.cumsum()] *)
Fixpoint vadd (a b : vector) : vector :=
  match a, b with
  | x :: a', y :: b' => (x + y) :: vadd a' b'
  | _, _ => []
  end.

Fixpoint cumsum_from (acc : vector) (M : matrix) : matrix :=
  match M with
  | [] => []
  | r :: M' => let acc' := vadd acc r in acc' :: cumsum_from acc' M'
  end.

Definition cumsum (M : matrix) : matrix :=
  match M with
  | [] => []
  | r :: M' => r :: cumsum_from r M'
  end.

Definition dot (a b : vector) : Q := sum (map (fun p => fst p * snd p) (combine a b)).

End np.

(** ** Exceptions and warnings *)

Inductive exn : Type :=
| ValueError (msg : string)
| AttributeError (attr : string)
| NameError (name : string)
| UnboundLocalError (name : string)
| AssertionError (msg : string)
| KeyError (key : string)
| IndexError
| TypeError.

Inductive warning : Type :=
| ConvergenceWarning (index : nat) (time : Q)
| StatisticalWarning.

Inductive result (A : Type) : Type :=
| Ok (a : A)
| Raised (e : exn).
Arguments Ok {A} a.
Arguments Raised {A} e.

(** reading an attribute of an object, sequencing of calls that may raise *)
Definition attribute {A : Type} (name : string) (a : option A) : result A :=
  match a with
  | Some x => Ok x
  | None => Raised (AttributeError name)
  end.

Definition bind {A B : Type} (r : result A) (k : A -> result B) : result B :=
  match r with
  | Ok a => k a
  | Raised e => Raised e
  end.

Notation "x <- r ;; k" := (bind r (fun x => k))
  (at level 61, r at next level, right associativity).
Notation "' p <- r ;; k" := (bind r (fun x => let p := x in k))
  (at level 61, p pattern, r at next level, right associativity).

Definition raise_if {A : Type} (c : option exn) (k : result A) : result A :=
  match c with
  | Some e => Raised e
  | None => k
  end.

(** ** Data frames *)

(** A [pandas.DataFrame] with numeric cells: column labels, row labels and
    the rows.  The frames of the fitted model are indexed by time. *)
Record DataFrame : Type := mkDataFrame {
  columns : list string;
  index : list Q;
  values : matrix
}.

Module pd.

Fixpoint position (c : string) (cols : list string) : option nat :=
  match cols with
  | [] => None
  | c' :: cols' =>
      if String.eqb c c' then Some O
      else option_map S (position c cols')
  end.

Fixpoint remove_nth {A : Type} (j : nat) (l : list A) : list A :=
  match l, j with
  | [], _ => []
  | _ :: l', O => l'
  | x :: l', S j' => x :: remove_nth j' l'
  end.

Definition column (j : nat) (M : matrix) : vector := map (fun r => nth j r 0) M.

(** the columns of a 2-d array of width [d] *)
Definition transpose (d : nat) (M : matrix) : matrix :=
  map (fun j => column j M) (seq 0 d).

(** [df.pop(c)]: the column and the frame without it *)
Definition pop (c : string) (df : DataFrame) : result (vector * DataFrame) :=
  match position c (columns df) with
  | None => Raised (KeyError c)
  | Some j =>
      Ok (column j (values df),
          mkDataFrame (remove_nth j (columns df)) (index df)
                      (map (remove_nth j) (values df)))
  end.

(** stable insertion of a labelled row by its key *)
Fixpoint insert_by (j : nat) (x : Q * vector) (l : list (Q * vector))
  : list (Q * vector) :=
  match l with
  | [] => [x]
  | y :: l' =>
      if Qle_bool (nth j (snd x) 0) (nth j (snd y) 0) then x :: l
      else y :: insert_by j x l'
  end.

(** [df.sort_values(by=c)]: rows in ascending order of column [c], rows
    with equal keys kept in their order *)
Definition sort_values (c : string) (df : DataFrame) : result DataFrame :=
  match position c (columns df) with
  | None => Raised (KeyError c)
  | Some j =>
      let rows := fold_right (insert_by j) [] (combine (index df) (values df)) in
      Ok (mkDataFrame (columns df) (map fst rows) (map snd rows))
  end.

(** [df[c] = x] for a label [c] that [df] does not have *)
Definition add_column (c : string) (x : Q) (df : DataFrame) : DataFrame :=
  mkDataFrame (columns df ++ [c]) (index df) (map (fun r => r ++ [x]) (values df)).

(** [df[order]] *)
Fixpoint positions (order cols : list string) : result (list nat) :=
  match order with
  | [] => Ok []
  | c :: order' =>
      match position c cols, positions order' cols with
      | None, _ => Raised (KeyError c)
      | _, Raised e => Raised e
      | Some j, Ok js => Ok (j :: js)
      end
  end.

Definition select (order : list string) (df : DataFrame) : result matrix :=
  match positions order (columns df) with
  | Raised e => Raised e
  | Ok js => Ok (map (fun r => map (fun j => nth j r 0) js) (values df))
  end.

(** [df /= s] for a series [s] aligned with the columns *)
Fixpoint vdiv (a b : vector) : vector :=
  match a, b with
  | x :: a', y :: b' => (x / y) :: vdiv a' b'
  | _, _ => []
  end.

Definition div_columns (df : DataFrame) (s : vector) : DataFrame :=
  mkDataFrame (columns df) (index df) (map (fun r => vdiv r s) (values df)).

Definition cumsum (df : DataFrame) : DataFrame :=
  mkDataFrame (columns df) (index df) (np.cumsum (values df)).

End pd.

(** ** Helpers that are not part of the class *)

Record Env : Type := mkEnv {
  (** [lifelines.utils.ridge_regression]; [None] is [LinAlgError].  The
      result [R] has one row per covariate; its last column is the
      coefficient estimate, the columns before it are indexed by subject. *)
  lr : matrix -> mask -> Q -> Q -> vector -> option matrix;
  (** [Series.std()] of one column *)
  std : vector -> Q;
  (** [lifelines.utils.normalize(X, mean, std)] *)
  normalize : DataFrame -> Q -> vector -> DataFrame;
  (** the checks of [_check_values]; [Some e] when they raise [e] *)
  pass_for_numeric_dtypes_or_raise : DataFrame -> option exn;
  check_nans_or_infs : vector -> option exn;
  check_nans_or_infs_frame : DataFrame -> option exn;
  inv_normal_cdf : Q -> Q;
  np_sqrt : Q -> Q
}.

(** ** The fitter object *)

(** The attributes of an [AalenAdditiveFitter].  An attribute that is not
    assigned by [__init__] is [None] until some method assigns it; reading
    it before that raises [AttributeError]. *)
Record AalenAdditiveFitter : Type := mkFitter {
  fit_intercept : bool;
  alpha : Q;
  coef_penalizer : Q;
  smoothing_penalizer : Q;
  robust : option bool;
  _time_fit_was_called : option string;
  duration_col : option string;
  event_col : option (option string);
  weights_col : option (option string);
  _n_examples : option nat;
  durations : option vector;
  event_observed : option mask;
  weights : option vector;
  _norm_std : option vector;
  cumulative_hazards_ : option DataFrame;
  cumulative_variance_ : option DataFrame;
  confidence_intervals_ : option (DataFrame * DataFrame);
  _predicted_hazards_ : option vector
}.

(** [__init__]: the four parameters are stored first and checked after;
    the object as the body leaves it, and the exception if it raises. *)
Definition __init__ (fit_intercept0 : bool) (alpha0 coef_penalizer0 smoothing_penalizer0 : Q)
  : AalenAdditiveFitter * option exn :=
  let self :=
    mkFitter fit_intercept0 alpha0 coef_penalizer0 smoothing_penalizer0
             None None None None None None None None None None None None None None in
  if negb (Qlt_bool 0 alpha0 && Qle_bool alpha0 1) then
    (self, Some (ValueError "alpha parameter must be between 0 and 1."))
  else if (Qlt_bool coef_penalizer0 0 || Qlt_bool smoothing_penalizer0 0)%bool then
    (self, Some (ValueError "penalizer parameters must be >= 0."))
  else (self, None).

(** [AalenAdditiveFitter(...)]: the caller gets the object only when
    [__init__] returns. *)
Definition new (fit_intercept0 : bool) (alpha0 coef_penalizer0 smoothing_penalizer0 : Q)
  : result AalenAdditiveFitter :=
  match __init__ fit_intercept0 alpha0 coef_penalizer0 smoothing_penalizer0 with
  | (self, None) => Ok self
  | (_, Some e) => Raised e
  end.

Section Fitter.

Variable env : Env.

(** ** [_fit_model_to_data_batch] *)

(** The local variables that the loop reads and writes.  [V] is bound by
    the first successful call of the solver only. *)
Record loop_state : Type := mkLoop {
  ls_X : matrix;
  ls_v : vector;
  ls_V : option matrix;
  total_observed_exits : Z;
  hazards_ : matrix;
  variance_hazards_ : matrix;
  ls_warnings : list warning
}.

Inductive flow : Type :=
| Next (s : loop_state)                       (* falls through to the next death time *)
| Break (s : loop_state)                      (* [break] *)
| Abort (e : exn) (ws : list warning).        (* an exception leaves the function *)

(** One pass through the body of the [for] loop, at index [i] and death
    time [t].  Progress printing is not modelled. *)
Definition loop_body (self : AalenAdditiveFitter) (n d : nat) (T : vector) (E : mask)
           (s : loop_state) (i : nat) (t : Q) : flow :=
  let exits := np.eq_scalar T t in
  let deaths := np.logical_and exits E in
  let '(V, v, ws) :=
    match lr env (ls_X s) deaths (coef_penalizer self) (smoothing_penalizer self) (ls_v s) with
    | Some R => (Some (np.drop_last_col R), np.last_col R, ls_warnings s)
    | None =>
        (* TODO: handle V here. *)
        (ls_V s, np.zeros d, ls_warnings s ++ [ConvergenceWarning i t])
    end in
  let hazards := np.set_row i v (hazards_ s) in
  match V with
  | None => Abort (UnboundLocalError "V") ws
  | Some Vm =>
      let variance := np.set_row i (np.sq_sum_cols Vm deaths) (variance_hazards_ s) in
      let X := np.zero_rows (ls_X s) exits in
      if (3 * (Z.of_nat d - 1) >=? Z.of_nat n - total_observed_exits s)%Z then
        Break (mkLoop X v V (total_observed_exits s) hazards variance ws)
      else
        Next (mkLoop X v V (total_observed_exits s + np.count exits)%Z hazards variance ws)
  end.

(** The [for] loop over [enumerate(unique_death_times)], from index [i]. *)
Fixpoint loop (self : AalenAdditiveFitter) (n d : nat) (T : vector) (E : mask)
         (i : nat) (times : vector) (s : loop_state) : flow :=
  match times with
  | [] => Next s
  | t :: times' =>
      match loop_body self n d T E s i t with
      | Next s' => loop self n d T E (S i) times' s'
      | stop => stop
      end
  end.

(** The number of passes through the loop body that ran to their end. *)
Fixpoint steps_completed (self : AalenAdditiveFitter) (n d : nat) (T : vector) (E : mask)
         (i : nat) (times : vector) (s : loop_state) : nat :=
  match times with
  | [] => O
  | t :: times' =>
      match loop_body self n d T E s i t with
      | Next s' => S (steps_completed self n d T E (S i) times' s')
      | Break _ => 1%nat
      | Abort _ _ => O
      end
  end.

Definition unique_death_times (T : vector) (E : mask) : vector :=
  np.sort (np.unique (np.bool_index T E)).

Definition initial_state (X : matrix) (T : vector) (E : mask) : loop_state :=
  let d := snd (np.shape X) in
  let n_deaths := length (unique_death_times T E) in
  mkLoop X (np.zeros d) None 0%Z (np.zeros2 n_deaths d) (np.zeros2 n_deaths d) [].

Definition _fit_model_to_data_batch (self : AalenAdditiveFitter)
           (X : matrix) (T : vector) (E : mask) (weights0 : vector)
  : list warning * result (matrix * matrix) :=
  let '(n, d) := np.shape X in
  match loop self n d T E 0 (unique_death_times T E) (initial_state X T E) with
  | Next s | Break s => (ls_warnings s, Ok (hazards_ s, variance_hazards_ s))
  | Abort e ws => (ws, Raised e)
  end.

(** ** [_fit_model] *)

Definition _fit_model (self : AalenAdditiveFitter)
           (X : DataFrame) (T : vector) (E : mask) (weights0 : vector)
  : list warning * result (DataFrame * DataFrame) :=
  let cols := columns X in
  let idx := np.sort (np.unique (np.bool_index T E)) in
  match _fit_model_to_data_batch self (values X) T E weights0 with
  | (ws, Raised e) => (ws, Raised e)
  | (ws, Ok (hz, var)) =>
      (ws, Ok (pd.cumsum (mkDataFrame cols idx hz),
               pd.cumsum (mkDataFrame cols idx var)))
  end.

(** ** [_preprocess_dataframe] *)

(** [bool(name)] for an optional column name *)
Definition truthy (name : option string) : bool :=
  match name with
  | None => false
  | Some s => negb (String.eqb s "")
  end.

(** the smallest [int64] *)
Definition int64_min : Z := (- 2 ^ 63)%Z.

(** [w.astype(int)]: the cast of a float to [int64], the integer type of
    numpy.  It truncates towards zero; a value whose truncation does not
    fit in an [int64] is cast to the smallest [int64], and so to an
    integer other than the value itself. *)
Definition astype_int (w : Q) : Z :=
  let z := Z.quot (Qnum w) (Zpos (Qden w)) in
  if ((int64_min <=? z) && (z <? 2 ^ 63))%Z%bool then z else int64_min.

Definition not_integer (w : Q) : bool := negb (Qeq_bool (inject_Z (astype_int w)) w).

Definition astype_bool (x : Q) : bool := negb (Qeq_bool x 0).

Definition pop_or_ones (name : option string) (n : nat) (df : DataFrame)
  : result (vector * DataFrame) :=
  match name with
  | Some c => pd.pop c df
  | None => Ok (repeat 1 n, df)
  end.

(** the weight checks, in the order of the source *)
Definition check_weights (self : AalenAdditiveFitter) (wcol : option string) (W : vector)
  : option exn :=
  if truthy wcol then
    let not_robust : result bool :=
      if np.any (map not_integer W) then
        match robust self with
        | None => Raised (AttributeError "robust")
        | Some b => Ok (negb b)
        end
      else Ok false in
    match not_robust with
    | Raised e => Some e
    | Ok true => Some (NameError "StatisticalWarning")
    | Ok false =>
        if np.any (map (fun w => Qle_bool w 0) W) then
          Some (ValueError
                  ("values in weight column " ++
                   match wcol with Some c => c | None => "" end ++
                   " must be positive."))
        else None
    end
  else None.

Definition _check_values (X : DataFrame) (T E : vector) : option exn :=
  match pass_for_numeric_dtypes_or_raise env X with
  | Some e => Some e
  | None =>
      match check_nans_or_infs env T with
      | Some e => Some e
      | None =>
          match check_nans_or_infs env E with
          | Some e => Some e
          | None => check_nans_or_infs_frame env X
          end
      end
  end.

Definition _preprocess_dataframe (self : AalenAdditiveFitter) (df : DataFrame)
  : result (DataFrame * vector * mask * vector) :=
  let n := fst (np.shape (values df)) in
  dcol <- attribute "duration_col" (duration_col self) ;;
  df <- pd.sort_values dcol df ;;
  '(T, df) <- pd.pop dcol df ;;
  ecol <- attribute "event_col" (event_col self) ;;
  '(E, df) <- pop_or_ones ecol n df ;;
  wcol <- attribute "weights_col" (weights_col self) ;;
  '(W, df) <- pop_or_ones wcol n df ;;
  raise_if (check_weights self wcol W)
    (raise_if (_check_values df T E)
       (df <- (if fit_intercept self then
                 if existsb (String.eqb "baseline") (columns df) then
                   Raised (AssertionError
                     "baseline is an internal lifelines column, please rename your column first.")
                 else Ok (pd.add_column "baseline" 1 df)
               else Ok df) ;;
        Ok (df, T, map astype_bool E, W))).

(** ** Prediction *)

(** The argument of the prediction methods: a frame, whose columns are
    matched by name, or a plain 2-d array. *)
Inductive covariates : Type :=
| Frame (df : DataFrame)
| Array (a : matrix).

(** One curve per individual over the time index of the fitted model:
    [curve_values] has a row per time and a column per individual.  The
    column labels of the result ([_get_index(X)]) are not represented. *)
Record Curves (A : Type) : Type := mkCurves {
  timeline : list Q;
  curve_values : list (list A)
}.
Arguments mkCurves {A} _ _.
Arguments timeline {A} _.
Arguments curve_values {A} _.

(** [order.drop("baseline")] *)
Definition drop_label (c : string) (order : list string) : result (list string) :=
  if existsb (String.eqb c) order
  then Ok (filter (fun c' => negb (String.eqb c c')) order)
  else Raised (KeyError c).

(** [np.dot(H, X_.T)] for [H] of width [d].  An array without rows has no
    width in this representation, and passes the test whatever its width
    would be. *)
Definition dot_transposed (d : nat) (H X_ : matrix) : result matrix :=
  if forallb (fun r => Nat.eqb (length r) d) X_
  then Ok (map (fun h => map (fun x => np.dot h x) X_) H)
  else Raised (ValueError "shapes not aligned").

Definition predict_cumulative_hazard (self : AalenAdditiveFitter) (X : covariates)
  : result (Curves Q) :=
  X_ <- match X with
        | Frame df =>
            H <- attribute "cumulative_hazards_" (cumulative_hazards_ self) ;;
            order <- (if fit_intercept self
                      then drop_label "baseline" (columns H)
                      else Ok (columns H)) ;;
            pd.select order df
        | Array a => Ok a
        end ;;
  let X_ := if fit_intercept self then map (fun r => r ++ [1]) X_ else X_ in
  H <- attribute "cumulative_hazards_" (cumulative_hazards_ self) ;;
  P <- dot_transposed (length (columns H)) (values H) X_ ;;
  Ok (mkCurves (index H) P).

(** [np.exp(-h)].  The exponential is the exact one, where the code rounds
    to a double: the statements about it use only what that rounding keeps,
    which is that no value is negative, that the value is at most 1 when
    [h] is not negative, and the order of two values, never strictly. *)
Definition exp_neg (h : Q) : R := exp (- Q2R h).

Definition predict_survival_function (self : AalenAdditiveFitter) (X : covariates)
  : result (Curves R) :=
  C <- predict_cumulative_hazard self X ;;
  Ok (mkCurves (timeline C) (map (map exp_neg) (curve_values C))).

(** ** [fit] *)

Fixpoint map2 (f : Q -> Q -> Q) (a b : vector) : vector :=
  match a, b with
  | x :: a', y :: b' => f x y :: map2 f a' b'
  | _, _ => []
  end.

Definition frame_map2 (f : Q -> Q -> Q) (A B : DataFrame) : DataFrame :=
  mkDataFrame (columns A) (index A)
    (map (fun p => map2 f (fst p) (snd p)) (combine (values A) (values B))).

(** [_compute_confidence_intervals]: [a], [H] and [V] are the attributes
    [alpha], [cumulative_hazards_] and [cumulative_variance_], which [fit]
    has just assigned when it calls the method. *)
Definition _compute_confidence_intervals (a : Q) (H V : DataFrame)
  : DataFrame * DataFrame :=
  let alpha2 := inv_normal_cdf env (1 - (1 - a) / 2) in
  (frame_map2 (fun h v => h - alpha2 * np_sqrt env v) H V,
   frame_map2 (fun h v => h + alpha2 * np_sqrt env v) H V).

(** the assignments of [fit], grouped by the call that may raise after them *)
Definition set_call (self : AalenAdditiveFitter) (now : string)
           (dcol : string) (ecol wcol : option string) (n : nat) : AalenAdditiveFitter :=
  mkFitter (fit_intercept self) (alpha self) (coef_penalizer self) (smoothing_penalizer self)
           (robust self)
           (Some now) (Some dcol) (Some ecol) (Some wcol) (Some n)
           (durations self) (event_observed self) (weights self) (_norm_std self)
           (cumulative_hazards_ self) (cumulative_variance_ self)
           (confidence_intervals_ self) (_predicted_hazards_ self).

Definition set_data (self : AalenAdditiveFitter) (T : vector) (E : mask) (W s : vector)
  : AalenAdditiveFitter :=
  mkFitter (fit_intercept self) (alpha self) (coef_penalizer self) (smoothing_penalizer self)
           (robust self)
           (_time_fit_was_called self) (duration_col self) (event_col self)
           (weights_col self) (_n_examples self)
           (Some T) (Some E) (Some W) (Some s)
           (cumulative_hazards_ self) (cumulative_variance_ self)
           (confidence_intervals_ self) (_predicted_hazards_ self).

Definition set_fitted (self : AalenAdditiveFitter) (H V : DataFrame)
           (ci : DataFrame * DataFrame) : AalenAdditiveFitter :=
  mkFitter (fit_intercept self) (alpha self) (coef_penalizer self) (smoothing_penalizer self)
           (robust self)
           (_time_fit_was_called self) (duration_col self) (event_col self)
           (weights_col self) (_n_examples self)
           (durations self) (event_observed self) (weights self) (_norm_std self)
           (Some H) (Some V) (Some ci) (_predicted_hazards_ self).

Definition set_predicted (self : AalenAdditiveFitter) (p : vector) : AalenAdditiveFitter :=
  mkFitter (fit_intercept self) (alpha self) (coef_penalizer self) (smoothing_penalizer self)
           (robust self)
           (_time_fit_was_called self) (duration_col self) (event_col self)
           (weights_col self) (_n_examples self)
           (durations self) (event_observed self) (weights self) (_norm_std self)
           (cumulative_hazards_ self) (cumulative_variance_ self)
           (confidence_intervals_ self) (Some p).

(** [X.std(0)], then the entries that would divide by zero *)
Definition norm_std (self : AalenAdditiveFitter) (X : DataFrame) : vector :=
  let s := map (std env) (pd.transpose (length (columns X)) (values X)) in
  if fit_intercept self then
    map (fun p => if String.eqb (fst p) "baseline" then 1 else snd p) (combine (columns X) s)
  else
    map (fun x => if Qlt_bool x (1 # 100000000) then 1 else x) s.

(** What a call of [fit] leaves behind: the object, the warnings emitted
    and whether the call returned. *)
Record outcome : Type := mkOutcome {
  after : AalenAdditiveFitter;
  emitted : list warning;
  returned : result unit
}.

(** [fit(df, duration_col, event_col, weights_col)]; [now] is the clock
    reading.  Progress printing is not modelled. *)
Definition fit (self : AalenAdditiveFitter) (df : DataFrame) (dcol : string)
           (ecol wcol : option string) (now : string) : outcome :=
  let self := set_call self now dcol ecol wcol (fst (np.shape (values df))) in
  match _preprocess_dataframe self df with
  | Raised e => mkOutcome self [] (Raised e)
  | Ok (X, T, E, W) =>
      let s := norm_std self X in
      let self := set_data self T E W s in
      match _fit_model self (normalize env X 0 s) T E W with
      | (ws, Raised e) => mkOutcome self ws (Raised e)
      | (ws, Ok (H, V)) =>
          let H := pd.div_columns H s in
          let V := pd.div_columns V s in
          let self := set_fitted self H V (_compute_confidence_intervals (alpha self) H V) in
          match predict_cumulative_hazard self (Frame X) with
          | Raised e => mkOutcome self ws (Raised e)
          | Ok P =>
              match rev (curve_values P) with
              | [] => mkOutcome self ws (Raised IndexError)
              | p :: _ => mkOutcome (set_predicted self p) ws (Ok tt)
              end
          end
      end
  end.

End Fitter.

Arguments mkCurves {A} _ _.
Arguments timeline {A} _.
Arguments curve_values {A} _.

(** ** An executable instance of the environment *)

Module Ref.

Definition vscale (c : Q) (r : vector) : vector := map (fun x => Qred (c * x)) r.

Definition vsub (a b : vector) : vector :=
  map (fun p => Qred (fst p - snd p)) (combine a b).

(** the first row whose leading entry is not zero, and the other rows *)
Fixpoint pivot (rows : matrix) : option (vector * matrix) :=
  match rows with
  | [] => None
  | r :: rows' =>
      if Qeq_bool (hd 0 r) 0 then
        match pivot rows' with
        | Some (p, others) => Some (p, r :: others)
        | None => None
        end
      else Some (r, rows')
  end.

(** Gaussian elimination on [k] equations in [k] unknowns; every row
    holds the [k] coefficients and then the right-hand sides.  [None]
    when the system is singular. *)
Fixpoint solve (k : nat) (rows : matrix) : option matrix :=
  match k with
  | O => Some []
  | S k' =>
      match pivot rows with
      | None => None
      | Some (p, others) =>
          let p' := vscale (/ hd 0 p) (tl p) in
          let reduced := map (fun r => vsub (tl r) (vscale (hd 0 r) p')) others in
          match solve k' reduced with
          | None => None
          | Some xs =>
              let x1 :=
                fold_left (fun acc cx => vsub acc (vscale (fst cx) (snd cx)))
                          (combine (firstn k' p') xs) (skipn k' p') in
              Some (x1 :: xs)
          end
      end
  end.

(** Modelled from the spec: [lifelines.utils.ridge_regression], which the
    class imports as [lr].  It minimises
    [|X b - y|^2 + c1 |b|^2 + c2 |b - offset|^2] and returns
    [(X^T X + (c1 + c2) I)^-1 [X^T | X^T y + c2 offset]]; it fails when
    both penalties are zero and [X^T X] is singular. *)
Definition ridge_regression (X : matrix) (Y : mask) (c1 c2 : Q) (offset : vector)
  : option matrix :=
  let d := snd (np.shape X) in
  let cols := pd.transpose d X in
  let y := map (fun b : bool => if b then 1 else 0) Y in
  let pen := if (Qlt_bool 0 c1 || Qlt_bool 0 c2)%bool then c1 + c2 else 0 in
  let A := map (fun jc =>
             map (fun kc => np.dot (snd jc) (snd kc)
                            + (if Nat.eqb (fst jc) (fst kc) then pen else 0))
                 (combine (seq 0 d) cols))
             (combine (seq 0 d) cols) in
  let b := map (fun jc => np.dot (snd jc) y
                          + (if Qeq_bool c2 0 then 0 else c2 * nth (fst jc) offset 0))
             (combine (seq 0 d) cols) in
  solve d (map (fun r => fst (fst r) ++ snd (fst r) ++ [snd r])
               (combine (combine A cols) b)).

(** a rational square root, exact on squares of rationals and correct to
    eight digits otherwise *)
Definition sqrt (q : Q) : Q :=
  let s := (10 ^ 8)%Z in
  Qred (Z.sqrt (Qnum q * Zpos (Qden q) * s * s) # Pos.mul (Qden q) (Z.to_pos s)).

(** the sample standard deviation ([ddof = 1]) *)
Definition std (l : vector) : Q :=
  let n := inject_Z (Z.of_nat (length l)) in
  let m := np.sum l / n in
  sqrt (Qred (np.sum (map (fun x => (x - m) * (x - m)) l) / (n - 1))).

Definition normalize (X : DataFrame) (mean : Q) (s : vector) : DataFrame :=
  mkDataFrame (columns X) (index X)
    (map (fun r => pd.vdiv (map (fun x => x - mean) r) s) (values X)).

(** the normal quantile at the usual levels only *)
Definition inv_normal_cdf (p : Q) : Q :=
  if Qeq_bool p (975 # 1000) then 1959964 # 1000000
  else if Qeq_bool p (95 # 100) then 1644854 # 1000000
  else if Qeq_bool p (995 # 1000) then 2575829 # 1000000
  else 0.

(** Rational cells are numeric and finite: the value checks pass. *)
Definition env : Env :=
  mkEnv ridge_regression std normalize
        (fun _ => None) (fun _ => None) (fun _ => None)
        inv_normal_cdf sqrt.

End Ref.

(** ** Datasets used to run the code *)

Module Data.

(** a fitter without intercept and without penalties *)
Definition plain : AalenAdditiveFitter :=
  fst (__init__ false (95 # 100) 0 0).

(** a fitter with the default parameters *)
Definition default : AalenAdditiveFitter :=
  fst (__init__ true (95 # 100) 0 0).

Definition now : string := "2026-01-01 00:00:00 UTC".

(** Five subjects, all observed to die, at times 1 to 5; one covariate
    [x], of standard deviation 1. *)
Definition df5 : DataFrame :=
  mkDataFrame ["T"; "E"; "x"] [0; 1; 2; 3; 4]
              [[1; 1; 0]; [2; 1; 1]; [3; 1; -1]; [4; 1; 1]; [5; 1; -1]].

(** Five subjects, two covariates [a] and [b], of standard deviations 1
    and 3.  Once the first subject has left, [b = 2 a] on every row. *)
Definition df5ab : DataFrame :=
  mkDataFrame ["T"; "E"; "a"; "b"] [0; 1; 2; 3; 4]
              [[1; 1; 0; 5]; [2; 1; 1; 2]; [3; 1; -1; -2]; [4; 1; 1; 2]; [5; 1; -1; -2]].

(** Three subjects whose only covariate is zero. *)
Definition df3z : DataFrame :=
  mkDataFrame ["T"; "E"; "x"] [0; 1; 2]
              [[1; 1; 0]; [2; 1; 0]; [3; 1; 0]].

(** Three subjects, all observed to die, one covariate [x]; the subject
    with [x = 0] dies first. *)
Definition df3 : DataFrame :=
  mkDataFrame ["T"; "E"; "x"] [0; 1; 2]
              [[2; 1; 1]; [3; 1; -1]; [1; 1; 0]].

(** [df3] with a weights column *)
Definition df3w (w1 w2 w3 : Q) : DataFrame :=
  mkDataFrame ["T"; "E"; "x"; "w"] [0; 1; 2]
              [[2; 1; 1; w1]; [3; 1; -1; w2]; [1; 1; 0; w3]].

(** [df3] with every subject censored *)
Definition df3c : DataFrame :=
  mkDataFrame ["T"; "E"; "x"] [0; 1; 2]
              [[2; 0; 1]; [3; 0; -1]; [1; 0; 0]].

(** Three subjects with a covariate that is labelled like the intercept. *)
Definition df3b : DataFrame :=
  mkDataFrame ["T"; "E"; "baseline"] [0; 1; 2]
              [[2; 1; 1]; [3; 1; -1]; [1; 1; 0]].

(** Five subjects, a covariate [x] and a censoring at time 5/2, between
    the death times 2 and 3. *)
Definition df5c : DataFrame :=
  mkDataFrame ["T"; "E"; "x"] [0; 1; 2; 3; 4]
              [[1; 1; 0]; [2; 1; 1]; [5 # 2; 0; -1]; [3; 1; 1]; [4; 1; -1]].

End Data.

(** ** The other methods of the class *)

(** [scipy.integrate.trapz(y, x)] on one curve: the trapezoidal rule *)
Fixpoint trapz (y x : list R) : R :=
  match y, x with
  | y0 :: ((y1 :: _) as y'), x0 :: ((x1 :: _) as x') =>
      ((x1 - x0) * ((y1 + y0) / 2) + trapz y' x')%R
  | _, _ => 0%R
  end.

(** the curve of individual [i]: column [i] of the table *)
Definition curve_of {A : Type} (d : A) (M : list (list A)) (i : nat) : list A :=
  map (fun row => nth i row d) M.

(** [predict_expectation] on a 2-d array [a] of [n] rows, whose
    individuals [_get_index] numbers from 0 to [n - 1]: these are the
    column labels of the survival table, so that [[index]] selects its
    columns in their order, and [trapz] integrates the curve of each one
    over the time index. *)
Definition predict_expectation (self : AalenAdditiveFitter) (a : matrix)
  : result (list R) :=
  H <- attribute "cumulative_hazards_" (cumulative_hazards_ self) ;;
  let t := map Q2R (index H) in
  S <- predict_survival_function self (Array a) ;;
  Ok (map (fun i => trapz (curve_of 0%R (curve_values S) i) t) (seq 0 (length a))).

(** The attributes that [score_] and [smoothed_hazards_] use beside those
    of [AalenAdditiveFitter]: [_concordance_score_], which [score_]
    assigns, and [hazards_], which [smoothed_hazards_] reads and which no
    method assigns. *)
Module Obj.

Record t : Type := mk {
  fitter : AalenAdditiveFitter;
  _concordance_score_ : option Q;
  hazards_ : option DataFrame
}.

End Obj.

(** [AalenAdditiveFitter(...)] and [fit] on the whole object *)
Definition new_object (fi : bool) (a c1 c2 : Q) : result Obj.t :=
  self <- new fi a c1 c2 ;;
  Ok (Obj.mk self None None).

Definition fit_object (env : Env) (o : Obj.t) (df : DataFrame) (dcol : string)
           (ecol wcol : option string) (now : string) : Obj.t :=
  Obj.mk (after (fit env (Obj.fitter o) df dcol ecol wcol now))
         (Obj._concordance_score_ o) (Obj.hazards_ o).

(** [del self._predicted_hazards_] *)
Definition del_predicted (self : AalenAdditiveFitter) : AalenAdditiveFitter :=
  mkFitter (fit_intercept self) (alpha self) (coef_penalizer self) (smoothing_penalizer self)
           (robust self)
           (_time_fit_was_called self) (duration_col self) (event_col self)
           (weights_col self) (_n_examples self)
           (durations self) (event_observed self) (weights self) (_norm_std self)
           (cumulative_hazards_ self) (cumulative_variance_ self)
           (confidence_intervals_ self) None.

(** The property [score_]: the object after the read and the value read.
    [concordance_index] is [lifelines.utils.concordance_index], which may
    raise. *)
Definition score_ (concordance_index : vector -> vector -> mask -> result Q) (o : Obj.t)
  : Obj.t * result Q :=
  match _predicted_hazards_ (Obj.fitter o) with
  | Some p =>
      match (T <- attribute "durations" (durations (Obj.fitter o)) ;;
             E <- attribute "event_observed" (event_observed (Obj.fitter o)) ;;
             concordance_index T (map Qopp p) E) with
      | Ok c => (Obj.mk (del_predicted (Obj.fitter o)) (Some c) (Obj.hazards_ o), Ok c)
      | Raised e => (o, Raised e)
      end
  | None => (o, attribute "_concordance_score_" (Obj._concordance_score_ o))
  end.

(** [np.dot(K, M)] *)
Definition matmul (K M : matrix) : result matrix :=
  if forallb (fun r => Nat.eqb (length r) (length M)) K
  then Ok (map (fun k => map (fun j => np.dot k (pd.column j M))
                             (seq 0 (length (hd [] M)))) K)
  else Raised (ValueError "shapes not aligned").

(** [smoothed_hazards_(bandwidth)]; [kernel timeline bandwidth] is
    [epanechnikov_kernel(timeline[:, None], timeline, bandwidth)]. *)
Definition smoothed_hazards_ (kernel : vector -> Q -> result matrix) (o : Obj.t)
           (bandwidth : Q) : result DataFrame :=
  H <- attribute "cumulative_hazards_" (cumulative_hazards_ (Obj.fitter o)) ;;
  let timeline := index H in
  K <- kernel timeline bandwidth ;;
  hz <- attribute "hazards_" (Obj.hazards_ o) ;;
  P <- matmul K (values hz) ;;
  Ok (mkDataFrame (columns hz) timeline P).

(** The objects that the class itself can produce. *)
Inductive reachable_object (env : Env) (ci : vector -> vector -> mask -> result Q)
  : Obj.t -> Prop :=
| reach_new_object (fi : bool) (a c1 c2 : Q) (o : Obj.t) :
    new_object fi a c1 c2 = Ok o -> reachable_object env ci o
| reach_fit_object (o : Obj.t) (df : DataFrame) (dcol : string)
                   (ecol wcol : option string) (now : string) :
    reachable_object env ci o ->
    reachable_object env ci (fit_object env o df dcol ecol wcol now)
| reach_score (o : Obj.t) :
    reachable_object env ci o -> reachable_object env ci (fst (score_ ci o)).

(** ** Vocabulary of the statements *)

(** every cell is non-negative *)
Definition nonneg_rows (M : matrix) : Prop := Forall (Forall (fun x => 0 <= x)) M.

(** [a] is below [b] in every column of [b] *)
Definition vle (a b : vector) : Prop :=
  forall j, (j < length b)%nat -> nth j a 0 <= nth j b 0.

(** each row after [a] is related to the row before it *)
Fixpoint chain (P : vector -> vector -> Prop) (a : vector) (M : matrix) : Prop :=
  match M with
  | [] => True
  | b :: M' => P a b /\ chain P b M'
  end.

(** column-wise non-decreasing down the rows *)
Definition nondecreasing_rows (M : matrix) : Prop :=
  match M with
  | [] => True
  | r :: M' => chain vle r M'
  end.

(** the cell of a table at row [k] and column [i] *)
Definition cell {A : Type} (d : A) (M : list (list A)) (k i : nat) : A :=
  nth i (nth k M []) d.

(** [k], [i] is the position of a cell of [M] *)
Definition in_table {A : Type} (M : list (list A)) (k i : nat) : Prop :=
  (k < length M)%nat /\ (i < length (nth k M []))%nat.

(** the cell of row [r] under the column label [c] *)
Definition cell_of (c : string) (cols : list string) (r : vector) : Q :=
  match pd.position c cols with
  | Some j => nth j r 0
  | None => 0
  end.

(** the position of column [j] once column [k] has been removed *)
Definition shift (j k : nat) : nat := if (j <? k)%nat then j else pred j.

(** The first half of [_preprocess_dataframe]: the frame is sorted and the
    duration, event and weight columns are taken out of it. *)
Definition extract_columns (dcol : string) (ecol wcol : option string) (n : nat)
           (df : DataFrame) : result (vector * vector * vector * DataFrame) :=
  df <- pd.sort_values dcol df ;;
  '(T, df) <- pd.pop dcol df ;;
  '(E, df) <- pop_or_ones ecol n df ;;
  '(W, df) <- pop_or_ones wcol n df ;;
  Ok (T, E, W, df).

(** The second half: the checks, the intercept column and the casts. *)
Definition check_and_cast (env : Env) (self : AalenAdditiveFitter) (wcol : option string)
           (x : vector * vector * vector * DataFrame)
  : result (DataFrame * vector * mask * vector) :=
  let '(T, E, W, df) := x in
  raise_if (check_weights self wcol W)
    (raise_if (_check_values env df T E)
       (df <- (if fit_intercept self then
                 if existsb (String.eqb "baseline") (columns df) then
                   Raised (AssertionError
                     "baseline is an internal lifelines column, please rename your column first.")
                 else Ok (pd.add_column "baseline" 1 df)
               else Ok df) ;;
        Ok (df, T, map astype_bool E, W))).

(** the names given to [fit] denote distinct columns of the frame *)
Definition valid_names (cols : list string) (dcol : string) (ecol wcol : option string) : Prop :=
  In dcol cols /\
  match ecol with Some e => In e cols /\ e <> dcol | None => True end /\
  match wcol with
  | Some w => In w cols /\ w <> dcol /\ ecol <> Some w
  | None => True
  end.

(** the column under an optional label, or a column of ones *)
Definition column_or_ones (name : option string) (cols : list string) (n : nat)
           (rows : matrix) : vector :=
  match name with
  | Some c => map (cell_of c cols) rows
  | None => repeat 1 n
  end.

(** The fitters that the class itself can produce: built by the
    constructor, then passed through any number of calls of [fit]. *)
Inductive reachable (env : Env) : AalenAdditiveFitter -> Prop :=
| reach_new (fi : bool) (a c1 c2 : Q) (self : AalenAdditiveFitter) :
    new fi a c1 c2 = Ok self -> reachable env self
| reach_fit (self : AalenAdditiveFitter) (df : DataFrame) (dcol : string)
            (ecol wcol : option string) (now : string) :
    reachable env self -> reachable env (after (fit env self df dcol ecol wcol now)).

(** two rows that are the same once the cell at position [j] is left out *)
Definition same_but (j : nat) (r r' : vector) : Prop :=
  pd.remove_nth j r = pd.remove_nth j r'.

(** a weight that passes both weight checks: equal to its cast to
    [int64], hence an integer below [2^63], and above zero *)
Definition good_weight (x : Q) : Prop := not_integer x = false /\ 0 < x.

(** Two frames that differ at most in the cells of the column at position
    [j], whose cells are good weights in both. *)
Definition same_but_weights (j : nat) (df df' : DataFrame) : Prop :=
  columns df = columns df' /\ index df = index df' /\
  Forall2 (same_but j) (values df) (values df') /\
  Forall (fun r => good_weight (nth j r 0)) (values df) /\
  Forall (fun r => good_weight (nth j r 0)) (values df').

(** [df] is what is left of the rows [rows], under the labels [cols0],
    once the columns labelled [popped] have been taken out: row by row
    through [g], every other label reading the same cell as before. *)
Definition view (cols0 : list string) (rows : matrix) (popped : list string)
           (g : vector -> vector) (df : DataFrame) : Prop :=
  values df = map g rows /\
  (forall c, ~ In c popped -> In c cols0 ->
     In c (columns df) /\ forall r, cell_of c (columns df) (g r) = cell_of c cols0 r) /\
  (forall c, In c (columns df) -> In c cols0).

(** the covariates that a frame must provide: the columns of the fitted
    model, without the intercept *)
Definition expected_columns (self : AalenAdditiveFitter) (H : DataFrame) : list string :=
  if fit_intercept self
  then filter (fun c' => negb (String.eqb "baseline" c')) (columns H)
  else columns H.

(** the width of the intercept column that the prediction appends *)
Definition intercept_width (self : AalenAdditiveFitter) : nat :=
  if fit_intercept self then 1 else 0.

(** a frame with distinct column labels and one cell per label in every row *)
Definition well_formed (df : DataFrame) : Prop :=
  NoDup (columns df) /\ Forall (fun r => length r = length (columns df)) (values df).

(** [c] is none of the labels given to [fit] *)
Definition is_covariate (dcol : string) (ecol wcol : option string) (c : string) : bool :=
  negb (String.eqb dcol c) &&
  negb (match ecol with Some e => String.eqb e c | None => false end) &&
  negb (match wcol with Some w => String.eqb w c | None => false end).

(** the labels of the covariates, in the order of the dataset *)
Definition covariate_labels (dcol : string) (ecol wcol : option string)
           (cols : list string) : list string :=
  filter (is_covariate dcol ecol wcol) cols.

(** the cells of the row [r] of the dataset under the labels of the
    covariates, followed by the cell of the intercept if there is one *)
Definition covariate_row (dcol : string) (ecol wcol : option string) (cols : list string)
           (intercept : bool) (r : vector) : vector :=
  map (fun c => cell_of c cols r) (covariate_labels dcol ecol wcol cols)
  ++ (if intercept then [1] else []).

(** the key of a labelled row in the sort *)
Definition sort_key (j : nat) (p : Q * vector) : Q := nth j (snd p) 0.

(** * Properties *)

Ltac splits := repeat match goal with |- _ /\ _ => split end.

(** closes [valid_names] and the like on concrete labels *)
Ltac names_ok :=
  unfold valid_names; simpl; splits; auto 6;
  try discriminate; try (let H := fresh in intros H; discriminate H).

(** ** Array lemmas *)

Lemma set_row_length (i : nat) (r : vector) (M : matrix) :
  length (np.set_row i r M) = length M.
Proof.
  revert i; induction M as [|x M IH]; intros [|i]; simpl; auto.
Qed.

Lemma nth_set_row_same (i : nat) (r : vector) (M : matrix) (dflt : vector) :
  (i < length M)%nat -> nth i (np.set_row i r M) dflt = r.
Proof.
  revert i; induction M as [|x M IH]; intros [|i] Hi; simpl in *; try lia; auto.
  apply IH; lia.
Qed.

Lemma nth_set_row_other (i k : nat) (r : vector) (M : matrix) (dflt : vector) :
  i <> k -> nth k (np.set_row i r M) dflt = nth k M dflt.
Proof.
  revert i k; induction M as [|x M IH]; intros [|i] [|k] Hik; simpl; auto; try congruence.
Qed.

Lemma nth_zeros2 (r d k : nat) :
  (k < r)%nat -> nth k (np.zeros2 r d) [] = np.zeros d.
Proof.
  unfold np.zeros2. revert k; induction r as [|r IH]; intros [|k] Hk; simpl; try lia; auto.
  apply IH; lia.
Qed.

Lemma zeros2_length (r d : nat) : length (np.zeros2 r d) = r.
Proof. apply repeat_length. Qed.

Section Loop.

Variable env : Env.
Variable self : AalenAdditiveFitter.
Variables (n d : nat) (T : vector) (E : mask).

Local Abbreviation body := (loop_body env self n d T E).
Local Abbreviation run := (loop env self n d T E).
Local Abbreviation steps := (steps_completed env self n d T E).

(** What one pass does to the local variables, whichever way it ends. *)
Lemma loop_body_inv (s : loop_state) (i : nat) (t : Q) :
  let exits := np.eq_scalar T t in
  let deaths := np.logical_and exits E in
  let solved := lr env (ls_X s) deaths (coef_penalizer self) (smoothing_penalizer self) (ls_v s) in
  let V := match solved with Some R => Some (np.drop_last_col R) | None => ls_V s end in
  let v := match solved with Some R => np.last_col R | None => np.zeros d end in
  let ws := match solved with
            | Some _ => ls_warnings s
            | None => ls_warnings s ++ [ConvergenceWarning i t]
            end in
  match body s i t with
  | Abort e ws' => V = None /\ e = UnboundLocalError "V" /\ ws' = ws
  | Next s' | Break s' =>
      exists Vm, V = Some Vm /\
        ls_V s' = V /\ ls_v s' = v /\ ls_warnings s' = ws /\
        ls_X s' = np.zero_rows (ls_X s) exits /\
        hazards_ s' = np.set_row i v (hazards_ s) /\
        variance_hazards_ s' = np.set_row i (np.sq_sum_cols Vm deaths) (variance_hazards_ s)
  end.
Proof.
  unfold loop_body; cbv zeta.
  destruct (lr env _ _ _ _ _) as [R|]; [| destruct (ls_V s) as [Vm|]];
    try (destruct (_ >=? _)%Z; eexists; simpl; repeat split; reflexivity).
  repeat split.
Qed.

(** [C4] The pass at index [i] ends in [break] exactly when
    [3 * (d - 1) >= n - total_observed_exits], the count being the one
    before the pass; on [break] the count is left as it is and the death
    times after [t] are never visited; otherwise the exits at [t] are
    added and the loop goes on with the next time.  (The only other way
    out is the exception raised when the solver fails before [V] was
    ever bound.) *)
Theorem early_stop_rule (s : loop_state) (i : nat) (t : Q) (later : vector) :
  match body s i t with
  | Break s' =>
      (3 * (Z.of_nat d - 1) >= Z.of_nat n - total_observed_exits s)%Z /\
      total_observed_exits s' = total_observed_exits s /\
      run i (t :: later) s = Break s' /\
      steps i (t :: later) s = 1%nat
  | Next s' =>
      (3 * (Z.of_nat d - 1) < Z.of_nat n - total_observed_exits s)%Z /\
      total_observed_exits s' =
        (total_observed_exits s + np.count (np.eq_scalar T t))%Z /\
      run i (t :: later) s = run (S i) later s' /\
      steps i (t :: later) s = S (steps (S i) later s')
  | Abort e _ =>
      e = UnboundLocalError "V" /\ ls_V s = None /\
      lr env (ls_X s) (np.logical_and (np.eq_scalar T t) E)
         (coef_penalizer self) (smoothing_penalizer self) (ls_v s) = None
  end.
Proof.
  simpl. unfold loop_body.
  destruct (lr env _ _ _ _ _) as [R|] eqn:HR; simpl.
  - destruct (_ >=? _)%Z eqn:Hc; simpl; repeat split; lia.
  - destruct (ls_V s) as [Vm|] eqn:HV; simpl; [| repeat split].
    destruct (_ >=? _)%Z eqn:Hc; simpl; repeat split; lia.
Qed.

(** A pass in which the solver fails, after an earlier pass has bound [V]:
    the coefficient row is zero and the warning names [i] and [t], but the
    variance row is computed from the [V] of the last successful pass. *)
Lemma solver_failure_step (s : loop_state) (i : nat) (t : Q) (Vm : matrix) :
  let deaths := np.logical_and (np.eq_scalar T t) E in
  lr env (ls_X s) deaths (coef_penalizer self) (smoothing_penalizer self) (ls_v s) = None ->
  ls_V s = Some Vm ->
  (i < length (hazards_ s))%nat ->
  (i < length (variance_hazards_ s))%nat ->
  exists s', (body s i t = Next s' \/ body s i t = Break s') /\
    nth i (hazards_ s') [] = np.zeros d /\
    nth i (variance_hazards_ s') [] = np.sq_sum_cols Vm deaths /\
    ls_warnings s' = ls_warnings s ++ [ConvergenceWarning i t].
Proof.
  intros deaths HR HV Hi Hi'. unfold loop_body. fold deaths. rewrite HR, HV.
  destruct (_ >=? _)%Z; eexists; (split; [eauto |]); simpl;
    rewrite !nth_set_row_same by assumption; repeat split.
Qed.

(** The loop writes only the rows of the passes it runs. *)
Lemma loop_rows (times : vector) : forall (i : nat) (s : loop_state),
  match run i times s with
  | Abort _ _ => True
  | Next s' | Break s' =>
      length (hazards_ s') = length (hazards_ s) /\
      length (variance_hazards_ s') = length (variance_hazards_ s) /\
      forall k, (k < i \/ i + steps i times s <= k)%nat ->
        nth k (hazards_ s') [] = nth k (hazards_ s) [] /\
        nth k (variance_hazards_ s') [] = nth k (variance_hazards_ s) []
  end.
Proof.
  induction times as [|t times IH]; intros i s; simpl.
  - repeat split.
  - pose proof (loop_body_inv s i t) as Hb; cbv zeta in Hb.
    destruct (body s i t) as [s1|s1|e ws]; [| | exact I].
    + destruct Hb as (Vm & _ & _ & _ & _ & _ & Hh & Hv).
      specialize (IH (S i) s1).
      destruct (run (S i) times s1) as [s2|s2|]; [| | exact I];
        destruct IH as (L1 & L2 & IH);
        rewrite L1, L2, Hh, Hv, !set_row_length; (split; [reflexivity|]);
        (split; [reflexivity|]); intros k Hk;
        destruct (IH k ltac:(lia)) as [K1 K2]; rewrite K1, K2, Hh, Hv;
        rewrite !nth_set_row_other by lia; split; reflexivity.
    + destruct Hb as (Vm & _ & _ & _ & _ & _ & Hh & Hv).
      rewrite Hh, Hv, !set_row_length. repeat split;
        rewrite nth_set_row_other by lia; reflexivity.
Qed.

End Loop.

(** ** The time index *)

Lemma Qeq_bool_false (x y : Q) : Qeq_bool x y = false -> ~ x == y.
Proof. intros H K. apply Qeq_bool_iff in K. congruence. Qed.

Lemma Qle_bool_false (x y : Q) : Qle_bool x y = false -> y < x.
Proof.
  intros H. apply Qnot_le_lt. intros K. apply Qle_bool_iff in K. congruence.
Qed.

Lemma insert_unique_In (x z : Q) (l : vector) :
  In z (np.insert_unique x l) -> z = x \/ In z l.
Proof.
  induction l as [|y l IH]; simpl.
  - intros [->|[]]; auto.
  - destruct (Qeq_bool x y); [auto|].
    destruct (Qle_bool x y); simpl; [intros [->|H]; auto|].
    intros [->|H]; auto. destruct (IH H); auto.
Qed.

Lemma insert_unique_sorted (x : Q) (l : vector) :
  StronglySorted Qlt l -> StronglySorted Qlt (np.insert_unique x l).
Proof.
  induction 1 as [|y l Hs IH Hy]; simpl.
  - repeat constructor.
  - destruct (Qeq_bool x y) eqn:Hxy; [constructor; assumption|].
    destruct (Qle_bool x y) eqn:Hle.
    + apply Qle_bool_iff in Hle. apply Qeq_bool_false in Hxy.
      assert (x < y) by (apply Qle_lteq in Hle; tauto).
      constructor; [constructor; assumption|].
      constructor; [assumption|].
      eapply Forall_impl; [|exact Hy]. intros z Hz. eapply Qlt_trans; eassumption.
    + apply Qle_bool_false in Hle.
      constructor; [assumption|].
      apply Forall_forall. intros z Hz.
      destruct (insert_unique_In _ _ _ Hz) as [->|Hz']; [assumption|].
      rewrite Forall_forall in Hy. auto.
Qed.

Lemma insert_unique_InA (x z : Q) (l : vector) :
  InA Qeq z (np.insert_unique x l) <-> z == x \/ InA Qeq z l.
Proof.
  induction l as [|y l IH]; simpl.
  - rewrite InA_cons, InA_nil. tauto.
  - destruct (Qeq_bool x y) eqn:Hxy.
    + apply Qeq_bool_iff in Hxy. rewrite InA_cons. split; [tauto|].
      intros [H|H]; [left; rewrite H; assumption | tauto].
    + destruct (Qle_bool x y); rewrite !InA_cons; [tauto|].
      rewrite IH. tauto.
Qed.

Lemma unique_sorted (l : vector) : StronglySorted Qlt (np.unique l).
Proof.
  induction l; simpl; [constructor | apply insert_unique_sorted; assumption].
Qed.

Lemma unique_InA (z : Q) (l : vector) : InA Qeq z (np.unique l) <-> InA Qeq z l.
Proof.
  induction l as [|x l IH]; simpl; [reflexivity|].
  rewrite insert_unique_InA, InA_cons, IH. reflexivity.
Qed.

(** Sorting leaves a list in increasing order as it is. *)
Lemma sort_sorted (l : vector) : StronglySorted Qlt l -> np.sort l = l.
Proof.
  induction 1 as [|x l Hs IH Hx]; simpl; [reflexivity|].
  rewrite IH. destruct l as [|y l]; simpl; [reflexivity|].
  inversion Hx as [|? ? Hxy _]; subst.
  apply Qlt_le_weak, Qle_bool_iff in Hxy. rewrite Hxy. reflexivity.
Qed.

(** The death times are the distinct times with an observed event, in
    strictly increasing order. *)
Lemma unique_death_times_spec (T : vector) (E : mask) :
  StronglySorted Qlt (unique_death_times T E) /\
  forall t, InA Qeq t (unique_death_times T E) <-> InA Qeq t (np.bool_index T E).
Proof.
  unfold unique_death_times. rewrite sort_sorted by apply unique_sorted.
  split; [apply unique_sorted | intros t; apply unique_InA].
Qed.

(** ** Shape of the result of the fitting loop *)

Lemma cumsum_from_length (M : matrix) : forall acc, length (np.cumsum_from acc M) = length M.
Proof. induction M; simpl; intros; [reflexivity | rewrite IHM; reflexivity]. Qed.

Lemma cumsum_length (M : matrix) : length (np.cumsum M) = length M.
Proof. destruct M; simpl; [reflexivity | rewrite cumsum_from_length; reflexivity]. Qed.

(** [C2, as the code has it] The two raw matrices have one row per death
    time, whether or not the loop stopped early: the rows of the passes
    that did not run stay zero.  The frames returned by [_fit_model] are
    their running sums, indexed by all the distinct times with an observed
    event, in strictly increasing order. *)
Theorem fit_model_shape (env : Env) (self : AalenAdditiveFitter)
        (X : DataFrame) (T : vector) (E : mask) (W : vector)
        (ws : list warning) (H V : DataFrame) :
  _fit_model env self X T E W = (ws, Ok (H, V)) ->
  let times := unique_death_times T E in
  let '(n, d) := np.shape (values X) in
  let done := steps_completed env self n d T E 0 times (initial_state (values X) T E) in
  index H = times /\ index V = times /\
  StronglySorted Qlt times /\
  (forall t, InA Qeq t times <-> InA Qeq t (np.bool_index T E)) /\
  length (values H) = length times /\ length (values V) = length times /\
  exists hz var,
    _fit_model_to_data_batch env self (values X) T E W = (ws, Ok (hz, var)) /\
    values H = np.cumsum hz /\ values V = np.cumsum var /\
    length hz = length times /\ length var = length times /\
    forall k, (done <= k < length times)%nat ->
      nth k hz [] = np.zeros d /\ nth k var [] = np.zeros d.
Proof.
  unfold _fit_model, _fit_model_to_data_batch, np.shape. cbv zeta iota beta.
  fold (unique_death_times T E).
  set (times := unique_death_times T E).
  set (s0 := initial_state (values X) T E).
  pose proof (loop_rows env self (length (values X)) (length (hd [] (values X))) T E times 0 s0) as L.
  destruct (unique_death_times_spec T E) as [Hs Hm]. fold times in Hs, Hm.
  assert (L0 : length (hazards_ s0) = length times /\
               length (variance_hazards_ s0) = length times /\
               forall k, (k < length times)%nat ->
                 nth k (hazards_ s0) [] = np.zeros (length (hd [] (values X))) /\
                 nth k (variance_hazards_ s0) [] = np.zeros (length (hd [] (values X)))).
  { unfold s0, initial_state; simpl. fold times. rewrite !zeros2_length.
    repeat split; apply nth_zeros2; assumption. }
  destruct L0 as (A1 & A2 & A3).
  destruct (loop env self _ _ T E 0 times s0) as [s'|s'|e ws'];
    intros Heq; inversion Heq; subst; clear Heq; simpl;
    destruct L as (L1 & L2 & L3);
    rewrite !cumsum_length, L1, L2, A1, A2;
    splits; try reflexivity; try assumption;
    exists (hazards_ s'), (variance_hazards_ s');
    splits; try reflexivity; try congruence;
    intros k Hk; destruct (L3 k ltac:(lia)) as [K1 K2];
    destruct (A3 k ltac:(lia)) as [Z1 Z2]; rewrite K1, K2; split; assumption.
Qed.

(** ** Sign and monotonicity of the cumulative variance *)

Lemma sum_squares_nonneg (l : vector) : 0 <= np.sum (map (fun x => x * x) l).
Proof.
  induction l as [|x l IH]; [apply Qle_refl|].
  change (0 <= x * x + np.sum (map (fun x => x * x) l)).
  assert (0 <= x * x)
    by (unfold Qle, Qmult; simpl; rewrite Z.mul_1_r; apply Z.square_nonneg).
  lra.
Qed.

Lemma sq_sum_cols_nonneg (V : matrix) (m : mask) :
  Forall (fun x => 0 <= x) (np.sq_sum_cols V m).
Proof.
  unfold np.sq_sum_cols. apply Forall_forall. intros x Hx.
  apply in_map_iff in Hx. destruct Hx as (r & <- & _). apply sum_squares_nonneg.
Qed.

Lemma set_row_nonneg (i : nat) (r : vector) (M : matrix) :
  Forall (fun x => 0 <= x) r -> nonneg_rows M -> nonneg_rows (np.set_row i r M).
Proof.
  intros Hr HM. revert i. induction HM as [|x M Hx HM IH]; intros [|i]; simpl;
    constructor; auto. apply IH.
Qed.

Lemma zeros_nonneg (d : nat) : Forall (fun x => 0 <= x) (np.zeros d).
Proof. apply Forall_forall. intros x Hx. apply repeat_spec in Hx. subst. apply Qle_refl. Qed.

Lemma zeros2_nonneg (r d : nat) : nonneg_rows (np.zeros2 r d).
Proof.
  apply Forall_forall. intros x Hx. apply repeat_spec in Hx. subst. apply zeros_nonneg.
Qed.

(** Every variance row the loop writes is a vector of sums of squares. *)
Lemma loop_variance_nonneg (env : Env) (self : AalenAdditiveFitter) (n d : nat)
      (T : vector) (E : mask) (times : vector) : forall (i : nat) (s : loop_state),
  nonneg_rows (variance_hazards_ s) ->
  match loop env self n d T E i times s with
  | Abort _ _ => True
  | Next s' | Break s' => nonneg_rows (variance_hazards_ s')
  end.
Proof.
  induction times as [|t times IH]; intros i s Hs; simpl; [assumption|].
  pose proof (loop_body_inv env self n d T E s i t) as Hb; cbv zeta in Hb.
  destruct (loop_body env self n d T E s i t) as [s1|s1|e ws]; [| | exact I];
    destruct Hb as (Vm & _ & _ & _ & _ & _ & _ & Hv);
    assert (nonneg_rows (variance_hazards_ s1))
      by (rewrite Hv; apply set_row_nonneg; [apply sq_sum_cols_nonneg | assumption]);
    [apply IH; assumption | assumption].
Qed.

Lemma vadd_nonneg (a b : vector) :
  Forall (fun x => 0 <= x) a -> Forall (fun x => 0 <= x) b ->
  Forall (fun x => 0 <= x) (np.vadd a b).
Proof.
  intros Ha. revert b. induction Ha as [|x a Hx Ha IH]; intros b Hb; simpl; [constructor|].
  destruct Hb as [|y b Hy Hb]; constructor; [lra | apply IH; assumption].
Qed.

Lemma vle_vadd (a b : vector) : Forall (fun x => 0 <= x) b -> vle a (np.vadd a b).
Proof.
  unfold vle. revert b. induction a as [|x a IH]; intros b Hb j Hj; simpl in *; [lia|].
  destruct Hb as [|y b Hy Hb]; simpl in *; [lia|].
  destruct j as [|j]; [lra | apply IH; [assumption | lia]].
Qed.

Lemma cumsum_from_nonneg (M : matrix) : forall acc,
  Forall (fun x => 0 <= x) acc -> nonneg_rows M ->
  nonneg_rows (np.cumsum_from acc M) /\ chain vle acc (np.cumsum_from acc M).
Proof.
  induction M as [|r M IH]; intros acc Hacc HM; simpl; [split; constructor|].
  inversion HM as [|? ? Hr HM']; subst.
  destruct (IH (np.vadd acc r) (vadd_nonneg _ _ Hacc Hr) HM') as [I1 I2].
  split; [constructor; [apply vadd_nonneg|]; assumption|].
  split; [apply vle_vadd|]; assumption.
Qed.

Lemma cumsum_nonneg (M : matrix) :
  nonneg_rows M -> nonneg_rows (np.cumsum M) /\ nondecreasing_rows (np.cumsum M).
Proof.
  destruct M as [|r M]; simpl; intros HM; [split; [constructor | exact I]|].
  inversion HM as [|? ? Hr HM']; subst.
  destruct (cumsum_from_nonneg M r Hr HM') as [I1 I2].
  split; [constructor|]; assumption.
Qed.

(** The variance frame returned by [_fit_model]. *)
Lemma fit_model_variance (env : Env) (self : AalenAdditiveFitter)
      (X : DataFrame) (T : vector) (E : mask) (W : vector)
      (ws : list warning) (H V : DataFrame) :
  _fit_model env self X T E W = (ws, Ok (H, V)) ->
  nonneg_rows (values V) /\ nondecreasing_rows (values V).
Proof.
  unfold _fit_model, _fit_model_to_data_batch, np.shape. cbv zeta iota beta.
  pose proof (loop_variance_nonneg env self (length (values X)) (length (hd [] (values X)))
                T E (unique_death_times T E) 0 (initial_state (values X) T E)
                (zeros2_nonneg _ _)) as L.
  destruct (loop env self _ _ T E 0 _ _) as [s'|s'|e ws'];
    intros Heq; inversion Heq; subst; clear Heq; simpl; apply cumsum_nonneg; assumption.
Qed.

(** Division of the columns by positive numbers keeps both properties. *)
Lemma vdiv_length (a s : vector) : length (pd.vdiv a s) = Nat.min (length a) (length s).
Proof.
  revert s; induction a as [|x a IH]; intros [|y s]; simpl; auto.
Qed.

Lemma nth_vdiv (a s : vector) : forall j,
  (j < length a)%nat -> (j < length s)%nat ->
  nth j (pd.vdiv a s) 0 = nth j a 0 / nth j s 0.
Proof.
  revert s; induction a as [|x a IH]; intros [|y s] [|j] Ha Hs; simpl in *; try lia; auto.
  apply IH; lia.
Qed.

Lemma Qdiv_le_pos (x y z : Q) : 0 < z -> x <= y -> x / z <= y / z.
Proof.
  intros Hz Hxy. unfold Qdiv. apply Qmult_le_compat_r; [assumption|].
  apply Qlt_le_weak, Qinv_lt_0_compat. assumption.
Qed.

Lemma vdiv_nonneg (a s : vector) :
  Forall (fun x => 0 < x) s -> Forall (fun x => 0 <= x) a ->
  Forall (fun x => 0 <= x) (pd.vdiv a s).
Proof.
  intros Hs Ha. revert s Hs. induction Ha as [|x a Hx Ha IH]; intros s Hs; simpl; [constructor|].
  destruct Hs as [|y s Hy Hs]; constructor; [| apply IH; assumption].
  apply Qle_shift_div_l; [assumption | rewrite Qmult_0_l; assumption].
Qed.

Lemma vdiv_vle (a b s : vector) :
  Forall (fun x => 0 < x) s -> vle a b -> vle (pd.vdiv a s) (pd.vdiv b s).
Proof.
  intros Hs Hab j Hj. rewrite vdiv_length in Hj.
  assert (Hsj : 0 < nth j s 0) by (rewrite Forall_forall in Hs; apply Hs, nth_In; lia).
  rewrite (nth_vdiv b s) by lia.
  destruct (Nat.lt_ge_cases j (length a)) as [Hja|Hja].
  - rewrite nth_vdiv by lia. apply Qdiv_le_pos; [assumption | apply Hab; lia].
  - rewrite nth_overflow by (rewrite vdiv_length; lia).
    apply Qle_shift_div_l; [assumption | rewrite Qmult_0_l].
    specialize (Hab j ltac:(lia)). rewrite (nth_overflow a) in Hab by lia. assumption.
Qed.

Lemma div_columns_nonneg (df : DataFrame) (s : vector) :
  Forall (fun x => 0 < x) s -> nonneg_rows (values df) ->
  nonneg_rows (values (pd.div_columns df s)).
Proof.
  intros Hs HM. simpl. unfold nonneg_rows in *. rewrite Forall_map.
  eapply Forall_impl; [|exact HM]. intros r Hr. apply vdiv_nonneg; assumption.
Qed.

Lemma chain_vdiv (s : vector) (M : matrix) : forall a,
  Forall (fun x => 0 < x) s -> chain vle a M ->
  chain vle (pd.vdiv a s) (map (fun r => pd.vdiv r s) M).
Proof.
  induction M as [|b M IH]; intros a Hs HM; simpl in *; [exact I|].
  destruct HM as [H1 H2]. split; [apply vdiv_vle | apply IH]; assumption.
Qed.

Lemma div_columns_nondecreasing (df : DataFrame) (s : vector) :
  Forall (fun x => 0 < x) s -> nondecreasing_rows (values df) ->
  nondecreasing_rows (values (pd.div_columns df s)).
Proof.
  intros Hs HM. simpl. destruct (values df) as [|r M]; simpl in *; [exact I|].
  apply chain_vdiv; assumption.
Qed.

(** ** What a call of [fit] that returns has done *)

Lemma fit_inv (env : Env) (self : AalenAdditiveFitter) (df : DataFrame)
      (dcol : string) (ecol wcol : option string) (now : string) :
  let self1 := set_call self now dcol ecol wcol (fst (np.shape (values df))) in
  let o := fit env self df dcol ecol wcol now in
  returned o = Ok tt ->
  exists X T E W H V p,
    _preprocess_dataframe env self1 df = Ok (X, T, E, W) /\
    let s := norm_std env self1 X in
    let self2 := set_data self1 T E W s in
    _fit_model env self2 (normalize env X 0 s) T E W = (emitted o, Ok (H, V)) /\
    let H' := pd.div_columns H s in
    let V' := pd.div_columns V s in
    after o =
      set_predicted
        (set_fitted self2 H' V' (_compute_confidence_intervals env (alpha self2) H' V')) p.
Proof.
  cbv zeta. unfold fit.
  destruct (_preprocess_dataframe env _ df) as [[[[X T] E] W]|e]; [|discriminate].
  destruct (_fit_model env _ _ T E W) as [ws [[H V]|e]] eqn:Hf; [|discriminate].
  destruct (predict_cumulative_hazard _ _) as [P|e]; [|discriminate].
  destruct (rev (curve_values P)) as [|p l]; [discriminate|].
  intros _. exists X, T, E, W, H, V, p. cbv zeta. simpl. splits; auto.
Qed.

(** [C3, as the code has it] After a call of [fit] that returns, with a
    positive normalisation vector, [cumulative_variance_] has no negative
    cell and does not decrease down any column.  (Nothing of the kind is
    promised for [cumulative_hazards_]: the increments of the additive
    model have either sign.) *)
Theorem cumulative_variance_nonneg_nondecreasing
        (env : Env) (self : AalenAdditiveFitter) (df : DataFrame)
        (dcol : string) (ecol wcol : option string) (now : string) (s : vector) :
  let o := fit env self df dcol ecol wcol now in
  returned o = Ok tt ->
  _norm_std (after o) = Some s ->
  Forall (fun x => 0 < x) s ->
  exists V, cumulative_variance_ (after o) = Some V /\
            nonneg_rows (values V) /\ nondecreasing_rows (values V).
Proof.
  intros o Hret Hs Hpos.
  destruct (fit_inv env self df dcol ecol wcol now Hret)
    as (X & T & E & W & H & V & p & _ & Hfit & Hafter).
  cbv zeta in Hfit, Hafter. fold o in Hfit, Hafter.
  rewrite Hafter in Hs |- *. simpl in Hs |- *. inversion Hs; subst s; clear Hs.
  destruct (fit_model_variance _ _ _ _ _ _ _ _ _ Hfit) as [N1 N2].
  eexists; split; [reflexivity|]. split.
  - apply div_columns_nonneg; assumption.
  - apply div_columns_nondecreasing; assumption.
Qed.

Lemma cumulative_variance_nonneg_nondecreasing_witness :
  exists V,
    cumulative_variance_
      (after (fit Ref.env Data.plain Data.df3 "T" (Some "E") None Data.now))
      = Some V /\
    nonneg_rows (values V) /\ nondecreasing_rows (values V).
Proof.
  apply (cumulative_variance_nonneg_nondecreasing
           Ref.env Data.plain Data.df3 "T" (Some "E") None Data.now [1]).
  - vm_compute. reflexivity.
  - vm_compute. reflexivity.
  - constructor; [reflexivity | constructor].
Defined.

(** On [Data.df3], a dataset that fits without any warning, the cumulative
    hazard of [x] goes from [1/2] at time 2 down to [-1/2] at time 3. *)
Lemma cumulative_hazards_decrease :
  let o := fit Ref.env Data.plain Data.df3 "T" (Some "E") None Data.now in
  returned o = Ok tt /\ emitted o = [] /\
  exists H, cumulative_hazards_ (after o) = Some H /\
            index H = [1; 2; 3] /\
            ~ nondecreasing_rows (values H).
Proof.
  cbv zeta. split; [vm_compute; reflexivity|]. split; [vm_compute; reflexivity|].
  eexists. split; [vm_compute; reflexivity|]. split; [reflexivity|].
  simpl. intros (_ & Hdec & _). specialize (Hdec 0%nat ltac:(simpl; lia)).
  simpl in Hdec. unfold Qle in Hdec. simpl in Hdec. lia.
Qed.

(** ** The solver failing in the middle of a fit *)

(** [C1, on two datasets] With [Data.df5ab] the solver fails at index 1
    (time 2) and at index 2 (time 3).  Both failures are reported and the
    fit goes on, but the variance rows of the two failing passes are
    computed from the [V] of the pass at index 0, and the cumulative
    variance of [a] grows at each of them.  With [Data.df3z] the solver
    fails in the first pass, where [V] is not bound yet, and [fit] ends in
    an [UnboundLocalError]. *)
Theorem solver_failure_variance_not_zero :
  let o := fit Ref.env Data.plain Data.df5ab "T" (Some "E") None Data.now in
  let o' := fit Ref.env Data.plain Data.df3z "T" (Some "E") None Data.now in
  emitted o = [ConvergenceWarning 1 2; ConvergenceWarning 2 3] /\
  returned o = Ok tt /\
  (exists V v0 v1 v2,
      cumulative_variance_ (after o) = Some V /\
      map (fun r => nth 0 r 0) (values V) = [v0; v1; v2; v2; v2] /\
      v0 < v1 /\ v1 < v2) /\
  emitted o' = [ConvergenceWarning 0 1] /\
  returned o' = Raised (UnboundLocalError "V").
Proof.
  cbv zeta. split; [vm_compute; reflexivity|]. split; [vm_compute; reflexivity|].
  split.
  - do 4 eexists. split; [vm_compute; reflexivity|].
    split; [reflexivity|]. split; reflexivity.
  - split; vm_compute; reflexivity.
Qed.

(** ** Early stop and the shape of the result *)

(** On [Data.df5], with the default parameters, the loop stops at the end
    of its third pass, with no warning.  The raw matrices, the cumulative
    frames and the time index all keep their five rows. *)
Lemma early_stop_keeps_all_rows :
  let self1 := set_call Data.default Data.now "T" (Some "E") None 5 in
  let o := fit Ref.env Data.default Data.df5 "T" (Some "E") None Data.now in
  exists X T E W H V hz var,
    _preprocess_dataframe Ref.env self1 Data.df5 = Ok (X, T, E, W) /\
    let s := norm_std Ref.env self1 X in
    let Xn := normalize Ref.env X 0 s in
    let self2 := set_data self1 T E W s in
    _fit_model Ref.env self2 Xn T E W = ([], Ok (H, V)) /\
    _fit_model_to_data_batch Ref.env self2 (values Xn) T E W = ([], Ok (hz, var)) /\
    steps_completed Ref.env self2 5 2 T E 0 (unique_death_times T E)
                    (initial_state (values Xn) T E) = 3%nat /\
    length hz = 5%nat /\ length var = 5%nat /\
    index H = [1; 2; 3; 4; 5] /\ index V = [1; 2; 3; 4; 5] /\
    length (values H) = 5%nat /\ length (values V) = 5%nat /\
    returned o = Ok tt /\
    option_map index (cumulative_hazards_ (after o)) = Some [1; 2; 3; 4; 5] /\
    option_map index (cumulative_variance_ (after o)) = Some [1; 2; 3; 4; 5].
Proof.
  cbv zeta. do 8 eexists.
  split; [vm_compute; reflexivity|].
  split; [vm_compute; reflexivity|].
  split; [vm_compute; reflexivity|].
  splits; vm_compute; reflexivity.
Qed.

(** ** Survival curves *)

Lemma exp_neg_nonneg (h : Q) : (0 <= exp_neg h)%R.
Proof. left. apply exp_pos. Qed.

Lemma exp_neg_le (h1 h2 : Q) : h1 <= h2 -> (exp_neg h2 <= exp_neg h1)%R.
Proof.
  unfold exp_neg. intros Hle. apply Qle_Rle in Hle.
  destruct (Req_dec (Q2R h1) (Q2R h2)) as [->|Hne]; [Lra.lra|].
  apply Rlt_le, exp_increasing. Lra.lra.
Qed.

Lemma exp_neg_le_1 (h : Q) : 0 <= h -> (exp_neg h <= 1)%R.
Proof.
  intros Hh. apply exp_neg_le in Hh. unfold exp_neg at 2 in Hh.
  rewrite RMicromega.Q2R_0, Ropp_0, exp_0 in Hh. exact Hh.
Qed.

Lemma cell_map {A B : Type} (f : A -> B) (a : A) (b : B) (M : list (list A)) (k i : nat) :
  in_table M k i -> cell b (map (map f) M) k i = f (cell a M k i).
Proof.
  intros [Hk Hi]. unfold cell.
  rewrite (nth_indep (map (map f) M) [] (map f []))
    by (rewrite length_map; assumption).
  rewrite map_nth.
  rewrite (nth_indep (map f (nth k M [])) b (f a))
    by (rewrite length_map; assumption).
  apply map_nth.
Qed.

(** [C5, as the code has it] [predict_survival_function] is [exp(-h)] of
    [predict_cumulative_hazard], cell by cell, over the same time index.
    No value is negative.  A value is at most 1 where the cumulative
    hazard is not negative, and the curve of an individual does not go up
    from one time to another where the cumulative hazard of that
    individual does not go down between them. *)
Theorem predict_survival_function_spec
        (self : AalenAdditiveFitter) (X : covariates) (C : Curves Q) :
  predict_cumulative_hazard self X = Ok C ->
  exists S,
    predict_survival_function self X = Ok S /\
    timeline S = timeline C /\
    length (curve_values S) = length (curve_values C) /\
    forall k i, in_table (curve_values C) k i ->
      let h := cell 0 (curve_values C) k i in
      let s := cell 0%R (curve_values S) k i in
      s = exp_neg h /\ (0 <= s)%R /\ (0 <= h -> (s <= 1)%R) /\
      forall k', in_table (curve_values C) k' i ->
        h <= cell 0 (curve_values C) k' i ->
        (cell 0%R (curve_values S) k' i <= s)%R.
Proof.
  intros HC. unfold predict_survival_function. rewrite HC. simpl.
  eexists. split; [reflexivity|]. simpl. split; [reflexivity|].
  split; [apply length_map|].
  intros k i Hki. cbv zeta.
  rewrite (cell_map exp_neg 0 0%R _ _ _ Hki).
  split; [reflexivity|]. split; [apply exp_neg_nonneg|]. split; [apply exp_neg_le_1|].
  intros k' Hk'i. rewrite (cell_map exp_neg 0 0%R _ _ _ Hk'i). apply exp_neg_le.
Qed.

Lemma predict_survival_function_spec_witness :
  let self := after (fit Ref.env Data.plain Data.df3 "T" (Some "E") None Data.now) in
  let X := Frame (mkDataFrame ["x"] [0] [[1]]) in
  exists S,
    predict_survival_function self X = Ok S /\
    timeline S = [1; 2; 3] /\
    length (curve_values S) = 3%nat.
Proof.
  cbv zeta.
  assert (HC : exists C,
             predict_cumulative_hazard
               (after (fit Ref.env Data.plain Data.df3 "T" (Some "E") None Data.now))
               (Frame (mkDataFrame ["x"] [0] [[1]])) = Ok C /\
             timeline C = [1; 2; 3] /\ length (curve_values C) = 3%nat)
    by (eexists; split; [vm_compute; reflexivity | split; reflexivity]).
  destruct HC as (C & HC & Ht & Hl).
  destruct (predict_survival_function_spec _ _ _ HC) as (S & HS & Ht' & Hl' & _).
  exists S. rewrite Ht', Hl'. auto.
Defined.

(** On [Data.df3], fitted without a warning, the survival curve of the
    individual with [x = 1] is [1], [exp(-1/2)], [exp(1/2)] at times 1, 2
    and 3: it ends above 1 and goes up between times 2 and 3. *)
Lemma survival_above_one_and_increasing :
  let o := fit Ref.env Data.plain Data.df3 "T" (Some "E") None Data.now in
  returned o = Ok tt /\ emitted o = [] /\
  exists S s1 s2 s3,
    predict_survival_function (after o) (Frame (mkDataFrame ["x"] [0] [[1]])) = Ok S /\
    timeline S = [1; 2; 3] /\
    curve_values S = [[s1]; [s2]; [s3]] /\
    (1 < s3)%R /\ (s2 < s3)%R.
Proof.
  cbv zeta. split; [vm_compute; reflexivity|]. split; [vm_compute; reflexivity|].
  unfold predict_survival_function.
  assert (HC : predict_cumulative_hazard
                 (after (fit Ref.env Data.plain Data.df3 "T" (Some "E") None Data.now))
                 (Frame (mkDataFrame ["x"] [0] [[1]]))
               = Ok (mkCurves [1; 2; 3] [[0]; [1 # 2]; [-1 # 2]]))
    by (vm_compute; reflexivity).
  rewrite HC. simpl. do 4 eexists.
  split; [reflexivity|]. split; [reflexivity|]. split; [reflexivity|].
  assert (H3 : (1 < exp_neg (-1 # 2))%R).
  { rewrite <- exp_0. apply exp_increasing. unfold Q2R. simpl. Lra.lra. }
  split; [exact H3|].
  apply Rlt_trans with 1%R; [|exact H3].
  rewrite <- exp_0. apply exp_increasing. unfold Q2R. simpl. Lra.lra.
Qed.

(** ** Columns of a frame *)

Lemma position_In (c : string) (cols : list string) :
  In c cols -> exists j, pd.position c cols = Some j.
Proof.
  induction cols as [|x cols IH]; simpl; [tauto|].
  intros [->|Hin].
  - rewrite String.eqb_refl. eauto.
  - destruct (String.eqb c x); [eauto|].
    destruct (IH Hin) as [j ->]. simpl. eauto.
Qed.

Lemma position_remove (c c' : string) (cols : list string) : forall j j',
  pd.position c cols = Some j -> pd.position c' cols = Some j' -> c <> c' ->
  j <> j' /\ pd.position c (pd.remove_nth j' cols) = Some (shift j j').
Proof.
  induction cols as [|x cols IH]; simpl; intros j j' Hj Hj' Hne; [discriminate|].
  destruct (String.eqb c x) eqn:Hcx, (String.eqb c' x) eqn:Hc'x.
  - apply String.eqb_eq in Hcx, Hc'x. congruence.
  - inversion Hj; subst j.
    destruct (pd.position c' cols) as [k|]; [|discriminate].
    inversion Hj'; subst j'. simpl. rewrite Hcx. split; [lia | reflexivity].
  - inversion Hj'; subst j'.
    destruct (pd.position c cols) as [k|] eqn:Hk; [|discriminate].
    inversion Hj; subst j. simpl. rewrite Hk. split; [lia | reflexivity].
  - destruct (pd.position c cols) as [k|] eqn:Hk; [|discriminate].
    destruct (pd.position c' cols) as [k'|] eqn:Hk'; [|discriminate].
    inversion Hj; inversion Hj'; subst j j'.
    destruct (IH k k' eq_refl eq_refl Hne) as [Hkk Hp].
    simpl. rewrite Hcx, Hp. simpl. split; [lia|].
    f_equal. unfold shift.
    change (S k <? S k')%nat with (k <? k')%nat.
    destruct (k <? k')%nat eqn:Hlt; [reflexivity|].
    apply Nat.ltb_ge in Hlt. destruct k; [lia | reflexivity].
Qed.

Lemma position_remove_absent (c c' : string) (cols : list string) : forall j',
  pd.position c cols = None -> pd.position c' cols = Some j' ->
  pd.position c (pd.remove_nth j' cols) = None.
Proof.
  induction cols as [|x cols IH]; simpl; intros j' Hc Hc'; [discriminate|].
  destruct (String.eqb c x) eqn:Hcx; [discriminate|].
  destruct (pd.position c cols) as [k|] eqn:Hk; [discriminate|].
  destruct (String.eqb c' x).
  - inversion Hc'; subst j'. assumption.
  - destruct (pd.position c' cols) as [k'|]; [|discriminate].
    inversion Hc'; subst j'. simpl. rewrite Hcx, (IH k' eq_refl eq_refl). reflexivity.
Qed.

Lemma remove_nth_nil {A : Type} (j : nat) : pd.remove_nth j (@nil A) = [].
Proof. destruct j; reflexivity. Qed.

Lemma nth_nil {A : Type} (d : A) (j : nat) : nth j [] d = d.
Proof. destruct j; reflexivity. Qed.

Lemma nth_remove_nth {A : Type} (d : A) (l : list A) : forall j k,
  j <> k -> nth (shift j k) (pd.remove_nth k l) d = nth j l d.
Proof.
  unfold shift. induction l as [|x l IH]; intros j k Hjk.
  - rewrite remove_nth_nil. rewrite !nth_nil. reflexivity.
  - simpl. destruct k as [|k].
    + destruct j as [|j]; [lia|]. reflexivity.
    + destruct j as [|j]; [reflexivity|].
      change (S j <? S k)%nat with (j <? k)%nat.
      specialize (IH j k ltac:(lia)).
      destruct (j <? k)%nat eqn:Hlt; simpl; [exact IH|].
      apply Nat.ltb_ge in Hlt. destruct j as [|j]; [lia|]. exact IH.
Qed.

Lemma remove_nth_comm {A : Type} (l : list A) : forall j k,
  j <> k ->
  pd.remove_nth (shift j k) (pd.remove_nth k l) =
  pd.remove_nth (shift k j) (pd.remove_nth j l).
Proof.
  unfold shift. induction l as [|x l IH]; intros j k Hjk.
  - rewrite !remove_nth_nil. reflexivity.
  - destruct j as [|j], k as [|k]; try lia; simpl.
    + reflexivity.
    + reflexivity.
    + change (S j <? S k)%nat with (j <? k)%nat.
      change (S k <? S j)%nat with (k <? j)%nat.
      specialize (IH j k ltac:(lia)).
      destruct (Nat.ltb_spec j k) as [H1|H1], (Nat.ltb_spec k j) as [H2|H2]; try lia.
      * destruct k as [|k]; [lia|]. simpl in *. f_equal. exact IH.
      * destruct j as [|j]; [lia|]. simpl in *. f_equal. exact IH.
Qed.

(** Popping another column does not change what a label reads in a row. *)
Lemma cell_of_remove (c c' : string) (cols : list string) (r : vector) (j' : nat) :
  pd.position c' cols = Some j' -> c <> c' ->
  cell_of c (pd.remove_nth j' cols) (pd.remove_nth j' r) = cell_of c cols r.
Proof.
  intros Hc' Hne. unfold cell_of.
  destruct (pd.position c cols) as [j|] eqn:Hc.
  - destruct (position_remove _ _ _ _ _ Hc Hc' Hne) as [Hjj ->].
    apply nth_remove_nth. assumption.
  - rewrite (position_remove_absent _ _ _ _ Hc Hc'). reflexivity.
Qed.

(** ** The two halves of [_preprocess_dataframe] *)

Lemma preprocess_eq (env : Env) (self : AalenAdditiveFitter) (df : DataFrame)
      (dcol : string) (ecol wcol : option string) :
  duration_col self = Some dcol ->
  event_col self = Some ecol ->
  weights_col self = Some wcol ->
  _preprocess_dataframe env self df =
  bind (extract_columns dcol ecol wcol (length (values df)) df)
       (check_and_cast env self wcol).
Proof.
  intros Hd He Hw. unfold _preprocess_dataframe, extract_columns. rewrite Hd, He, Hw.
  simpl. destruct (pd.sort_values dcol df) as [df1|]; simpl; [|reflexivity].
  destruct (pd.pop dcol df1) as [[T df2]|]; simpl; [|reflexivity].
  destruct (pop_or_ones ecol _ df2) as [[E df3]|]; simpl; [|reflexivity].
  destruct (pop_or_ones wcol _ df3) as [[W df4]|]; simpl; reflexivity.
Qed.

Lemma pop_ok (c : string) (df : DataFrame) (j : nat) :
  pd.position c (columns df) = Some j ->
  pd.pop c df =
  Ok (map (cell_of c (columns df)) (values df),
      mkDataFrame (pd.remove_nth j (columns df)) (index df)
                  (map (pd.remove_nth j) (values df))).
Proof.
  intros Hj. unfold pd.pop, cell_of, pd.column. rewrite Hj. reflexivity.
Qed.

Lemma pop_absent (c : string) (df : DataFrame) :
  pd.position c (columns df) = None -> pd.pop c df = Raised (KeyError c).
Proof. intros Hj. unfold pd.pop. rewrite Hj. reflexivity. Qed.

(** ** Sorting the rows *)

Lemma insert_by_perm (j : nat) (x : Q * vector) (l : list (Q * vector)) :
  Permutation (pd.insert_by j x l) (x :: l).
Proof.
  induction l as [|y l IH]; simpl; [reflexivity|].
  destruct (Qle_bool _ _); [reflexivity|].
  rewrite IH. apply perm_swap.
Qed.

Lemma sorted_perm (j : nat) (l : list (Q * vector)) :
  Permutation (fold_right (pd.insert_by j) [] l) l.
Proof.
  induction l as [|x l IH]; simpl; [reflexivity|].
  rewrite insert_by_perm, IH. reflexivity.
Qed.

Lemma map_snd_combine {A B : Type} (a : list A) : forall (b : list B),
  length a = length b -> map snd (combine a b) = b.
Proof.
  induction a as [|x a IH]; intros [|y b] Hl; simpl in *; try discriminate; [reflexivity|].
  f_equal. apply IH. lia.
Qed.

Lemma sort_values_ok (c : string) (df : DataFrame) (j : nat) :
  pd.position c (columns df) = Some j ->
  exists df1, pd.sort_values c df = Ok df1 /\
    columns df1 = columns df /\
    (forall r, In r (values df1) -> In r (values df)) /\
    (length (index df) = length (values df) -> Permutation (values df1) (values df)).
Proof.
  intros Hj. unfold pd.sort_values. rewrite Hj. eexists. split; [reflexivity|]. simpl.
  split; [reflexivity|]. split.
  - intros r Hr. apply in_map_iff in Hr. destruct Hr as ([i r'] & <- & Hin).
    apply (Permutation_in _ (sorted_perm j _)) in Hin.
    apply in_combine_r in Hin. assumption.
  - intros Hl. rewrite <- (map_snd_combine (index df) (values df) Hl) at 2.
    apply Permutation_map, sorted_perm.
Qed.

Lemma sort_values_absent (c : string) (df : DataFrame) :
  pd.position c (columns df) = None -> pd.sort_values c df = Raised (KeyError c).
Proof. intros Hj. unfold pd.sort_values. rewrite Hj. reflexivity. Qed.

(** ** What the extraction returns *)

Lemma pop_view (c : string) (cols0 : list string) (rows : matrix)
      (g : vector -> vector) (df : DataFrame) (j : nat) :
  values df = map g rows ->
  (forall r, cell_of c (columns df) (g r) = cell_of c cols0 r) ->
  pd.position c (columns df) = Some j ->
  pd.pop c df =
  Ok (map (cell_of c cols0) rows,
      mkDataFrame (pd.remove_nth j (columns df)) (index df)
                  (map (fun r => pd.remove_nth j (g r)) rows)).
Proof.
  intros Hv Hc Hj. rewrite (pop_ok _ _ _ Hj), Hv, !map_map.
  f_equal. f_equal. apply map_ext. assumption.
Qed.

Lemma extract_columns_ok (dcol : string) (ecol wcol : option string) (n : nat)
      (df : DataFrame) :
  valid_names (columns df) dcol ecol wcol ->
  exists df1 df4,
    pd.sort_values dcol df = Ok df1 /\
    extract_columns dcol ecol wcol n df =
    Ok (map (cell_of dcol (columns df)) (values df1),
        column_or_ones ecol (columns df) n (values df1),
        column_or_ones wcol (columns df) n (values df1),
        df4).
Proof.
  intros (Hd & He & Hw).
  destruct (position_In _ _ Hd) as [jd Hjd].
  destruct (sort_values_ok _ _ _ Hjd) as (df1 & Hs & Hc1 & _).
  exists df1. rewrite <- Hc1 in *.
  set (df2 := mkDataFrame (pd.remove_nth jd (columns df1)) (index df1)
                          (map (pd.remove_nth jd) (values df1))).
  assert (H1 : pd.pop dcol df1 = Ok (map (cell_of dcol (columns df1)) (values df1), df2))
    by (apply pop_ok; assumption).
  assert (V2 : forall c, c <> dcol -> forall r,
             cell_of c (columns df2) (pd.remove_nth jd r) = cell_of c (columns df1) r)
    by (intros c Hc r; apply (cell_of_remove c dcol); assumption).
  assert (P2 : forall c, c <> dcol -> In c (columns df1) ->
             exists j, pd.position c (columns df2) = Some j).
  { intros c Hc Hin. destruct (position_In _ _ Hin) as [j Hj].
    destruct (position_remove _ _ _ _ _ Hj Hjd Hc) as [_ Hp]. eauto. }
  unfold extract_columns. rewrite Hs. cbn [bind]. rewrite H1. cbn [bind].
  destruct ecol as [e|]; cbn [pop_or_ones column_or_ones].
  - destruct He as [Hine Hed].
    destruct (P2 e Hed Hine) as [je Hje].
    rewrite (pop_view e (columns df1) (values df1) (pd.remove_nth jd) df2 je
               eq_refl (V2 e Hed) Hje).
    cbn [bind].
    destruct wcol as [w|]; cbn [pop_or_ones column_or_ones];
      [| cbn [bind]; eexists; split; reflexivity].
    destruct Hw as (Hinw & Hwd & Hwe).
    assert (Hwe' : w <> e) by congruence.
    destruct (P2 w Hwd Hinw) as [jw Hjw].
    destruct (position_remove _ _ _ _ _ Hjw Hje Hwe') as [_ Hp3].
    erewrite (pop_view w (columns df1) (values df1)
                (fun r => pd.remove_nth je (pd.remove_nth jd r)));
      [cbn [bind]; eexists; split; reflexivity | reflexivity | | exact Hp3].
    intros r. cbn [columns]. rewrite (cell_of_remove w e _ _ _ Hje Hwe'). apply V2. assumption.
  - cbn [bind].
    destruct wcol as [w|]; cbn [pop_or_ones column_or_ones];
      [| cbn [bind]; eexists; split; reflexivity].
    destruct Hw as (Hinw & Hwd & _).
    destruct (P2 w Hwd Hinw) as [jw Hjw].
    rewrite (pop_view w (columns df1) (values df1) (pd.remove_nth jd) df2 jw
               eq_refl (V2 w Hwd) Hjw).
    cbn [bind]. eexists; split; reflexivity.
Qed.

Lemma check_and_cast_inv (env : Env) (self : AalenAdditiveFitter) (wcol : option string)
      (T0 E0 W0 : vector) (df4 : DataFrame) (X : DataFrame) (T : vector) (E : mask) (W : vector) :
  check_and_cast env self wcol (T0, E0, W0, df4) = Ok (X, T, E, W) ->
  check_weights self wcol W0 = None /\ _check_values env df4 T0 E0 = None /\
  T = T0 /\ E = map astype_bool E0 /\ W = W0 /\
  X = (if fit_intercept self then pd.add_column "baseline" 1 df4 else df4).
Proof.
  unfold check_and_cast, raise_if.
  destruct (check_weights self wcol W0); [discriminate|].
  destruct (_check_values env df4 T0 E0); [discriminate|].
  destruct (fit_intercept self); [destruct (existsb _ _); [discriminate|]|];
    simpl; intros Heq; inversion Heq; subst; repeat split.
Qed.

(** ** A dataset without any observed event *)

Lemma bool_index_all_false {A : Type} (l : list A) : forall (m : mask),
  Forall (fun b => b = false) m -> np.bool_index l m = [].
Proof.
  induction l as [|x l IH]; intros m Hm; [reflexivity|].
  destruct Hm as [|b m Hb Hm]; [reflexivity|]. subst b. simpl. apply IH. assumption.
Qed.

Lemma fit_model_no_death (env : Env) (self : AalenAdditiveFitter)
      (X : DataFrame) (T : vector) (E : mask) (W : vector) :
  Forall (fun b => b = false) E ->
  _fit_model env self X T E W =
  ([], Ok (mkDataFrame (columns X) [] [], mkDataFrame (columns X) [] [])).
Proof.
  intros HE. unfold _fit_model, _fit_model_to_data_batch, initial_state, unique_death_times.
  rewrite (bool_index_all_false T E HE). reflexivity.
Qed.

Lemma fit_after_fit_model (env : Env) (self : AalenAdditiveFitter) (df : DataFrame)
      (dcol : string) (ecol wcol : option string) (now : string)
      (X : DataFrame) (T : vector) (E : mask) (W : vector)
      (ws : list warning) (H V : DataFrame) :
  let self1 := set_call self now dcol ecol wcol (fst (np.shape (values df))) in
  let s := norm_std env self1 X in
  let o := fit env self df dcol ecol wcol now in
  _preprocess_dataframe env self1 df = Ok (X, T, E, W) ->
  _fit_model env (set_data self1 T E W s) (normalize env X 0 s) T E W = (ws, Ok (H, V)) ->
  cumulative_hazards_ (after o) = Some (pd.div_columns H s) /\
  cumulative_variance_ (after o) = Some (pd.div_columns V s) /\
  emitted o = ws /\
  (values H = [] -> returned o <> Ok tt).
Proof.
  cbv zeta. intros Hp Hf. unfold fit. rewrite Hp, Hf.
  destruct (predict_cumulative_hazard _ _) as [P|e] eqn:HP.
  - destruct (rev (curve_values P)) as [|p l] eqn:Hr; simpl; splits; try reflexivity;
      intros HH; [intros K; discriminate K|].
    exfalso.
    unfold predict_cumulative_hazard, attribute, bind, dot_transposed in HP.
    simpl in HP. rewrite HH in HP. simpl in HP.
    match type of HP with
    | match ?x with _ => _ end = _ => destruct x as [a|]; [|discriminate HP]
    end.
    match type of HP with
    | context [if ?c then Ok [] else _] => destruct c; [|discriminate HP]
    end.
    inversion HP; subst P; simpl in Hr; discriminate Hr.
  - simpl. splits; try reflexivity. intros _ K. discriminate K.
Qed.

(** [C6, where the code departs from it] When every event flag of the
    dataset is zero and the checks of the preprocessing pass, [fit] does
    not return: its last line takes the last row of a prediction frame
    that has no row.  What it leaves behind is [cumulative_hazards_] and
    [cumulative_variance_] with an empty time index and no row, assigned
    before the call fails. *)
Theorem all_censored_gives_empty_index
        (env : Env) (self : AalenAdditiveFitter) (df : DataFrame)
        (dcol e : string) (wcol : option string) (now : string)
        (X : DataFrame) (T : vector) (E : mask) (W : vector) :
  let self1 := set_call self now dcol (Some e) wcol (fst (np.shape (values df))) in
  let o := fit env self df dcol (Some e) wcol now in
  valid_names (columns df) dcol (Some e) wcol ->
  Forall (fun r => cell_of e (columns df) r == 0) (values df) ->
  _preprocess_dataframe env self1 df = Ok (X, T, E, W) ->
  exists H V,
    cumulative_hazards_ (after o) = Some H /\
    cumulative_variance_ (after o) = Some V /\
    index H = [] /\ values H = [] /\ index V = [] /\ values V = [] /\
    returned o <> Ok tt.
Proof.
  cbv zeta. intros Hnames Hcens Hp.
  assert (HE : Forall (fun b => b = false) E).
  { pose proof Hp as Hp'.
    rewrite (preprocess_eq env (set_call self now dcol (Some e) wcol _) df
               dcol (Some e) wcol eq_refl eq_refl eq_refl) in Hp'.
    destruct (extract_columns_ok dcol (Some e) wcol (length (values df)) df Hnames)
      as (df1 & df4 & Hs & Hx).
    rewrite Hx in Hp'. cbn [bind] in Hp'.
    apply check_and_cast_inv in Hp'. destruct Hp' as (_ & _ & _ & -> & _).
    destruct Hnames as (Hd & _ & _).
    destruct (position_In _ _ Hd) as [jd Hjd].
    destruct (sort_values_ok _ _ _ Hjd) as (df1' & Hs' & _ & Hin & _).
    rewrite Hs in Hs'. inversion Hs'; subst df1'.
    cbn [column_or_ones]. rewrite !Forall_map. apply Forall_forall. intros r Hr.
    rewrite Forall_forall in Hcens. specialize (Hcens r (Hin r Hr)).
    unfold astype_bool. apply Qeq_bool_iff in Hcens. rewrite Hcens. reflexivity. }
  destruct (fit_after_fit_model env self df dcol (Some e) wcol now X T E W _ _ _ Hp
              (fit_model_no_death env _ _ T E W HE)) as (H1 & H2 & _ & H4).
  do 2 eexists. split; [exact H1|]. split; [exact H2|].
  simpl. splits; try reflexivity. apply H4. reflexivity.
Qed.

(** On [Data.df3c] the call ends in [IndexError]. *)
Lemma all_censored_gives_empty_index_witness :
  let o := fit Ref.env Data.plain Data.df3c "T" (Some "E") None Data.now in
  returned o = Raised IndexError /\
  exists H V,
    cumulative_hazards_ (after o) = Some H /\
    cumulative_variance_ (after o) = Some V /\
    index H = [] /\ values H = [] /\ index V = [] /\ values V = [] /\
    returned o <> Ok tt.
Proof.
  cbv zeta. split; [vm_compute; reflexivity|].
  eapply (all_censored_gives_empty_index
            Ref.env Data.plain Data.df3c "T" "E" None Data.now).
  - names_ok.
  - repeat constructor.
  - vm_compute. reflexivity.
Defined.

(** ** The weight checks *)

Lemma fit_preprocess_raises (env : Env) (self : AalenAdditiveFitter) (df : DataFrame)
      (dcol : string) (ecol wcol : option string) (now : string) (e : exn) :
  let self1 := set_call self now dcol ecol wcol (fst (np.shape (values df))) in
  _preprocess_dataframe env self1 df = Raised e ->
  fit env self df dcol ecol wcol now = mkOutcome self1 [] (Raised e).
Proof. cbv zeta. intros Hp. unfold fit. rewrite Hp. reflexivity. Qed.

(** No method of the class assigns [robust]. *)
Lemma fit_keeps_robust (env : Env) (self : AalenAdditiveFitter) (df : DataFrame)
      (dcol : string) (ecol wcol : option string) (now : string) :
  robust (after (fit env self df dcol ecol wcol now)) = robust self.
Proof.
  unfold fit.
  destruct (_preprocess_dataframe _ _ _) as [[[[X T] E] W]|e]; [|reflexivity].
  destruct (_fit_model _ _ _ _ _ _) as [ws [[H V]|e]]; [|reflexivity].
  destruct (predict_cumulative_hazard _ _) as [P|e]; [|reflexivity].
  destruct (rev (curve_values P)); reflexivity.
Qed.

Lemma reachable_robust (env : Env) (self : AalenAdditiveFitter) :
  reachable env self -> robust self = None.
Proof.
  induction 1 as [fi a c1 c2 self Hnew | self df dcol ecol wcol now _ IH].
  - unfold new, __init__ in Hnew.
    repeat match type of Hnew with
           | context [if ?c then _ else _] => destruct c
           end; inversion Hnew; reflexivity.
  - rewrite fit_keeps_robust. assumption.
Qed.

Lemma any_map_Exists {A : Type} (f : A -> bool) (l : list A) :
  np.any (map f l) = true <-> Exists (fun x => f x = true) l.
Proof.
  unfold np.any. rewrite existsb_exists, Exists_exists. split.
  - intros (b & Hin & Hb). apply in_map_iff in Hin. destruct Hin as (x & <- & Hin). eauto.
  - intros (x & Hin & Hx). exists (f x). split; [apply in_map; assumption | assumption].
Qed.

(** The weights that [fit] checks are the cells of the weight column, in
    the order of the sorted frame. *)
Lemma fit_checks_weights (env : Env) (self : AalenAdditiveFitter) (df : DataFrame)
      (dcol : string) (ecol : option string) (w : string) (now : string) :
  let self1 := set_call self now dcol ecol (Some w) (fst (np.shape (values df))) in
  valid_names (columns df) dcol ecol (Some w) ->
  length (index df) = length (values df) ->
  exists W T E df4,
    Permutation W (map (cell_of w (columns df)) (values df)) /\
    _preprocess_dataframe env self1 df =
    check_and_cast env self1 (Some w) (T, E, W, df4).
Proof.
  cbv zeta. intros Hnames Hl.
  rewrite (preprocess_eq env (set_call self now dcol ecol (Some w) _) df
             dcol ecol (Some w) eq_refl eq_refl eq_refl).
  destruct (extract_columns_ok dcol ecol (Some w) (length (values df)) df Hnames)
    as (df1 & df4 & Hs & Hx).
  rewrite Hx. cbn [bind column_or_ones].
  destruct Hnames as (Hd & _ & _).
  destruct (position_In _ _ Hd) as [jd Hjd].
  destruct (sort_values_ok _ _ _ Hjd) as (df1' & Hs' & _ & _ & Hperm).
  rewrite Hs in Hs'. inversion Hs'; subst df1'.
  do 4 eexists. split; [|reflexivity].
  apply Permutation_map, Hperm, Hl.
Qed.

(** [C10] For a fitter that the class has produced, a weights column
    with a non-empty label and at least one value that is not an integer
    makes [fit] raise [AttributeError] on [robust]: the check reads an
    attribute that nothing assigns.  No warning is emitted, and the call
    stops in the preprocessing. *)
Theorem non_integer_weight_raises_attribute_error
        (env : Env) (self : AalenAdditiveFitter) (df : DataFrame)
        (dcol : string) (ecol : option string) (w : string) (now : string) :
  let o := fit env self df dcol ecol (Some w) now in
  reachable env self ->
  w <> "" ->
  valid_names (columns df) dcol ecol (Some w) ->
  length (index df) = length (values df) ->
  Exists (fun r => not_integer (cell_of w (columns df) r) = true) (values df) ->
  returned o = Raised (AttributeError "robust") /\
  emitted o = [] /\
  after o = set_call self now dcol ecol (Some w) (fst (np.shape (values df))).
Proof.
  cbv zeta. intros Hreach Hw Hnames Hl Hex.
  destruct (fit_checks_weights env self df dcol ecol w now Hnames Hl)
    as (W & T & E & df4 & Hperm & Hp).
  assert (Hraise : _preprocess_dataframe env
                     (set_call self now dcol ecol (Some w) (fst (np.shape (values df)))) df
                   = Raised (AttributeError "robust")).
  { rewrite Hp. unfold check_and_cast, check_weights, truthy.
    apply String.eqb_neq in Hw. rewrite Hw. cbn [negb].
    assert (Hany : np.any (map not_integer W) = true).
    { apply any_map_Exists. apply Exists_exists.
      rewrite Exists_exists in Hex. destruct Hex as (r & Hin & Hr).
      exists (cell_of w (columns df) r). split; [|assumption].
      apply (Permutation_in _ (Permutation_sym Hperm)). apply in_map. assumption. }
    rewrite Hany. cbn [robust set_call]. rewrite (reachable_robust env self Hreach).
    reflexivity. }
  rewrite (fit_preprocess_raises env self df dcol ecol (Some w) now _ Hraise).
  simpl. splits; reflexivity.
Qed.

Lemma non_integer_weight_raises_attribute_error_witness :
  let o := fit Ref.env Data.default (Data.df3w 1 (1 # 2) 2) "T" (Some "E") (Some "w") Data.now in
  returned o = Raised (AttributeError "robust") /\
  emitted o = [] /\
  after o = set_call Data.default Data.now "T" (Some "E") (Some "w") 3.
Proof.
  apply (non_integer_weight_raises_attribute_error
           Ref.env Data.default (Data.df3w 1 (1 # 2) 2) "T" (Some "E") "w" Data.now).
  - apply (reach_new Ref.env true (95 # 100) 0 0). reflexivity.
  - discriminate.
  - names_ok.
  - reflexivity.
  - apply Exists_cons_tl, Exists_cons_hd. reflexivity.
Defined.

(** The check that is meant for weights that are not positive is reached
    only when every weight is an integer. *)
Lemma nonpositive_integer_weight_raises_value_error
      (env : Env) (self : AalenAdditiveFitter) (df : DataFrame)
      (dcol : string) (ecol : option string) (w : string) (now : string) :
  let o := fit env self df dcol ecol (Some w) now in
  w <> "" ->
  valid_names (columns df) dcol ecol (Some w) ->
  length (index df) = length (values df) ->
  Forall (fun r => not_integer (cell_of w (columns df) r) = false) (values df) ->
  Exists (fun r => cell_of w (columns df) r <= 0) (values df) ->
  returned o = Raised (ValueError ("values in weight column " ++ w ++ " must be positive."))
  /\ emitted o = [] /\
  after o = set_call self now dcol ecol (Some w) (fst (np.shape (values df))).
Proof.
  cbv zeta. intros Hw Hnames Hl Hint Hex.
  destruct (fit_checks_weights env self df dcol ecol w now Hnames Hl)
    as (W & T & E & df4 & Hperm & Hp).
  assert (Hraise : _preprocess_dataframe env
                     (set_call self now dcol ecol (Some w) (fst (np.shape (values df)))) df
                   = Raised (ValueError ("values in weight column " ++ w ++ " must be positive."))).
  { rewrite Hp. unfold check_and_cast, check_weights, truthy.
    apply String.eqb_neq in Hw. rewrite Hw. cbn [negb].
    assert (Hany : np.any (map not_integer W) = false).
    { apply not_true_is_false. intros Hany. apply any_map_Exists in Hany.
      rewrite Exists_exists in Hany. destruct Hany as (x & Hin & Hx).
      apply (Permutation_in _ Hperm) in Hin. apply in_map_iff in Hin.
      destruct Hin as (r & <- & Hin). rewrite Forall_forall in Hint.
      rewrite (Hint r Hin) in Hx. discriminate. }
    assert (Hpos : np.any (map (fun x => Qle_bool x 0) W) = true).
    { apply any_map_Exists. apply Exists_exists.
      rewrite Exists_exists in Hex. destruct Hex as (r & Hin & Hr).
      exists (cell_of w (columns df) r). split; [|apply Qle_bool_iff; assumption].
      apply (Permutation_in _ (Permutation_sym Hperm)). apply in_map. assumption. }
    rewrite Hany, Hpos. reflexivity. }
  rewrite (fit_preprocess_raises env self df dcol ecol (Some w) now _ Hraise).
  simpl. splits; reflexivity.
Qed.

(** [C7, on two datasets] A weight of [-3/2] is neither positive nor an
    integer: the check for integers comes first and reads [robust], so the
    call ends in [AttributeError], not in [ValueError].  The same happens
    when one weight is [1/2] and another is [0].  With the integer weight
    [0] alone, the [ValueError] is raised. *)
Theorem nonpositive_weight_can_raise_attribute_error :
  let fit_w := fun w1 w2 w3 =>
    fit Ref.env Data.default (Data.df3w w1 w2 w3) "T" (Some "E") (Some "w") Data.now in
  returned (fit_w 1 (-3 # 2) 1) = Raised (AttributeError "robust") /\
  returned (fit_w (1 # 2) 0 1) = Raised (AttributeError "robust") /\
  returned (fit_w 1 0 1) = Raised (ValueError "values in weight column w must be positive.").
Proof. cbv zeta. splits; vm_compute; reflexivity. Qed.

(** ** The weights do not reach the fitting loop *)

Lemma same_but_nth (j k : nat) (r r' : vector) (d : Q) :
  same_but j r r' -> k <> j -> nth k r d = nth k r' d.
Proof.
  unfold same_but. intros H Hkj.
  rewrite <- (nth_remove_nth d r k j Hkj), <- (nth_remove_nth d r' k j Hkj), H. reflexivity.
Qed.

Lemma same_but_remove (j k : nat) (r r' : vector) :
  same_but j r r' -> k <> j ->
  same_but (shift j k) (pd.remove_nth k r) (pd.remove_nth k r').
Proof.
  unfold same_but. intros H Hkj.
  rewrite !(remove_nth_comm _ j k) by lia. rewrite H. reflexivity.
Qed.

Lemma insert_by_same_but (j k : nat) (x x' : Q * vector) (l l' : list (Q * vector)) :
  k <> j ->
  (fst x = fst x' /\ same_but j (snd x) (snd x')) ->
  Forall2 (fun p p' => fst p = fst p' /\ same_but j (snd p) (snd p')) l l' ->
  Forall2 (fun p p' => fst p = fst p' /\ same_but j (snd p) (snd p'))
          (pd.insert_by k x l) (pd.insert_by k x' l').
Proof.
  intros Hkj Hx Hl. induction Hl as [|y y' l l' Hy Hl IH]; simpl.
  - constructor; [assumption | constructor].
  - rewrite <- (same_but_nth j k (snd x) (snd x') 0 (proj2 Hx) Hkj).
    rewrite <- (same_but_nth j k (snd y) (snd y') 0 (proj2 Hy) Hkj).
    destruct (Qle_bool _ _); constructor; auto.
Qed.

Lemma sorted_same_but (j k : nat) (l l' : list (Q * vector)) :
  k <> j ->
  Forall2 (fun p p' => fst p = fst p' /\ same_but j (snd p) (snd p')) l l' ->
  Forall2 (fun p p' => fst p = fst p' /\ same_but j (snd p) (snd p'))
          (fold_right (pd.insert_by k) [] l) (fold_right (pd.insert_by k) [] l').
Proof.
  intros Hkj Hl. induction Hl as [|x x' l l' Hx Hl IH]; simpl; [constructor|].
  apply insert_by_same_but; assumption.
Qed.

Lemma combine_same_but (j : nat) (idx : list Q) : forall (rows rows' : matrix),
  Forall2 (same_but j) rows rows' ->
  Forall2 (fun p p' => fst p = fst p' /\ same_but j (snd p) (snd p'))
          (combine idx rows) (combine idx rows').
Proof.
  induction idx as [|i idx IH]; intros rows rows' H; simpl; [constructor|].
  destruct H as [|r r' rows rows' Hr H]; constructor; [split; [reflexivity | assumption]|].
  apply IH. assumption.
Qed.

Lemma Forall2_map_fst_eq {A B : Type} (R : B -> B -> Prop) (l l' : list (A * B)) :
  Forall2 (fun p p' => fst p = fst p' /\ R (snd p) (snd p')) l l' ->
  map fst l = map fst l' /\ Forall2 R (map snd l) (map snd l').
Proof.
  induction 1 as [|x x' l l' [H1 H2] _ [IH1 IH2]]; simpl; [split; constructor|].
  split; [congruence | constructor; assumption].
Qed.

Lemma Forall2_eq_map {A B : Type} (f g : A -> B) (R : A -> A -> Prop) (l l' : list A) :
  (forall x x', R x x' -> f x = g x') -> Forall2 R l l' -> map f l = map g l'.
Proof.
  intros Hfg. induction 1 as [|x x' l l' Hx _ IH]; simpl; [reflexivity|].
  rewrite (Hfg _ _ Hx), IH. reflexivity.
Qed.

Lemma Forall2_map {A B : Type} (f : A -> B) (R : A -> A -> Prop) (R' : B -> B -> Prop)
      (l l' : list A) :
  (forall x x', R x x' -> R' (f x) (f x')) -> Forall2 R l l' -> Forall2 R' (map f l) (map f l').
Proof.
  intros Hf. induction 1; simpl; constructor; auto.
Qed.

Lemma sort_values_same_but (j : nat) (c : string) (df df' : DataFrame) (k : nat) :
  same_but_weights j df df' ->
  pd.position c (columns df) = Some k -> k <> j ->
  exists df1 df1',
    pd.sort_values c df = Ok df1 /\ pd.sort_values c df' = Ok df1' /\
    columns df1 = columns df /\ same_but_weights j df1 df1'.
Proof.
  intros (Hc & Hi & Hr & Hg & Hg') Hk Hkj.
  unfold pd.sort_values. rewrite <- Hc, Hk, <- Hi.
  destruct (Forall2_map_fst_eq (same_but j) _ _
              (sorted_same_but j k _ _ Hkj (combine_same_but j (index df) _ _ Hr)))
    as [F1 F2].
  assert (Hsub : forall (rows : matrix) r,
             In r (map snd (fold_right (pd.insert_by k) [] (combine (index df) rows))) ->
             In r rows).
  { intros rows r Hin. apply in_map_iff in Hin. destruct Hin as ([i r'] & <- & Hin).
    apply (Permutation_in _ (sorted_perm k _)) in Hin.
    apply in_combine_r in Hin. assumption. }
  do 2 eexists. split; [reflexivity|]. split; [reflexivity|]. split; [reflexivity|].
  unfold same_but_weights. simpl. splits; auto.
  - apply Forall_forall. intros r Hin. rewrite Forall_forall in Hg. auto.
  - apply Forall_forall. intros r Hin. rewrite Forall_forall in Hg'. auto.
Qed.

Lemma pop_or_ones_same_but (j : nat) (w : string) (name : option string) (n : nat)
      (df df' : DataFrame) :
  same_but_weights j df df' ->
  pd.position w (columns df) = Some j ->
  name <> Some w ->
  (exists e, pop_or_ones name n df = Raised e /\ pop_or_ones name n df' = Raised e) \/
  (exists col d2 d2' j2,
      pop_or_ones name n df = Ok (col, d2) /\ pop_or_ones name n df' = Ok (col, d2') /\
      same_but_weights j2 d2 d2' /\ pd.position w (columns d2) = Some j2).
Proof.
  intros Hrel Hw Hname. destruct name as [c|]; simpl.
  2: { right. exists (repeat 1 n), df, df', j. auto. }
  assert (Hcw : w <> c) by congruence.
  destruct Hrel as (Hc & Hi & Hr & Hg & Hg').
  destruct (pd.position c (columns df)) as [k|] eqn:Hk.
  - right. destruct (position_remove _ _ _ _ _ Hw Hk Hcw) as [Hjk Hp].
    pose proof Hk as Hk'. rewrite Hc in Hk'.
    rewrite (pop_ok c df k Hk), (pop_ok c df' k Hk').
    assert (Hcol : map (cell_of c (columns df)) (values df) =
                   map (cell_of c (columns df')) (values df')).
    { apply (Forall2_eq_map _ _ (same_but j)); [|assumption].
      intros r r' Hrr. unfold cell_of. rewrite Hk, Hk'.
      apply (same_but_nth j); [assumption | lia]. }
    rewrite <- Hcol. do 4 eexists. split; [reflexivity|]. split; [reflexivity|].
    split; [|exact Hp].
    unfold same_but_weights. simpl. splits.
    + rewrite Hc. reflexivity.
    + assumption.
    + apply (Forall2_map _ (same_but j)); [|assumption].
      intros r r' Hrr. apply same_but_remove; [assumption | lia].
    + rewrite Forall_map. eapply Forall_impl; [|exact Hg].
      intros r Hgr. simpl. rewrite nth_remove_nth by assumption. assumption.
    + rewrite Forall_map. eapply Forall_impl; [|exact Hg'].
      intros r Hgr. simpl. rewrite nth_remove_nth by assumption. assumption.
  - left. exists (KeyError c). rewrite (pop_absent c df Hk).
    rewrite Hc in Hk. rewrite (pop_absent c df' Hk). auto.
Qed.

Lemma pop_weights (j : nat) (w : string) (df df' : DataFrame) :
  same_but_weights j df df' ->
  pd.position w (columns df) = Some j ->
  exists W W' d4,
    pd.pop w df = Ok (W, d4) /\ pd.pop w df' = Ok (W', d4) /\
    Forall good_weight W /\ Forall good_weight W'.
Proof.
  intros (Hc & Hi & Hr & Hg & Hg') Hw.
  pose proof Hw as Hw'. rewrite Hc in Hw'.
  rewrite (pop_ok w df j Hw), (pop_ok w df' j Hw').
  do 3 eexists. split; [reflexivity|]. split.
  - rewrite <- Hc, <- Hi. do 3 f_equal.
    symmetry. apply (Forall2_eq_map _ _ (same_but j)); [|assumption].
    intros r r' Hrr. exact Hrr.
  - unfold cell_of. rewrite ?Hw, ?Hw'.
    rewrite !Forall_map. split; assumption.
Qed.

Lemma extract_columns_same_but (j : nat) (dcol : string) (ecol : option string) (w : string)
      (n : nat) (df df' : DataFrame) :
  same_but_weights j df df' ->
  pd.position w (columns df) = Some j ->
  w <> dcol -> ecol <> Some w ->
  (exists e, extract_columns dcol ecol (Some w) n df = Raised e /\
             extract_columns dcol ecol (Some w) n df' = Raised e) \/
  (exists T E W W' df4,
      extract_columns dcol ecol (Some w) n df = Ok (T, E, W, df4) /\
      extract_columns dcol ecol (Some w) n df' = Ok (T, E, W', df4) /\
      Forall good_weight W /\ Forall good_weight W').
Proof.
  intros Hrel Hw Hwd Hwe. unfold extract_columns.
  destruct (pd.position dcol (columns df)) as [jd|] eqn:Hjd.
  2: { left. exists (KeyError dcol). rewrite (sort_values_absent dcol df Hjd).
       destruct Hrel as (Hc & _). rewrite Hc in Hjd.
       rewrite (sort_values_absent dcol df' Hjd). auto. }
  destruct (position_remove _ _ _ _ _ Hw Hjd Hwd) as [Hjjd _].
  destruct (sort_values_same_but j dcol df df' jd Hrel Hjd ltac:(lia))
    as (df1 & df1' & -> & -> & Hc1 & Hrel1).
  cbn [bind]. rewrite <- Hc1 in Hw.
  destruct (pop_or_ones_same_but j w (Some dcol) n df1 df1' Hrel1 Hw ltac:(congruence))
    as [(e & H1 & H1') | (T & df2 & df2' & j2 & H1 & H1' & Hrel2 & Hw2)];
    cbn [pop_or_ones] in H1, H1'; rewrite H1, H1'; cbn [bind]; [left; eauto|].
  destruct (pop_or_ones_same_but j2 w ecol n df2 df2' Hrel2 Hw2 Hwe)
    as [(e & H2 & H2') | (E & df3 & df3' & j3 & H2 & H2' & Hrel3 & Hw3)];
    rewrite H2, H2'; cbn [bind]; [left; eauto|].
  destruct (pop_weights j3 w df3 df3' Hrel3 Hw3) as (W & W' & df4 & H3 & H3' & HW & HW').
  cbn [pop_or_ones]. rewrite H3, H3'. cbn [bind].
  right. exists T, E, W, W', df4. auto.
Qed.

(** The cast to [int64] stays in the range of [int64]. *)
Lemma astype_int_range (w : Q) : (int64_min <= astype_int w < 2 ^ 63)%Z.
Proof.
  unfold astype_int. cbv zeta.
  destruct ((int64_min <=? _) && (_ <? 2 ^ 63))%Z%bool eqn:Hr.
  - apply andb_true_iff in Hr. destruct Hr as [H1 H2].
    apply Z.leb_le in H1. apply Z.ltb_lt in H2. split; assumption.
  - unfold int64_min. split; [apply Z.le_refl | reflexivity].
Qed.

(** A weight of [2^63] or more is not equal to its cast: the weight check
    takes it for a weight that is not an integer. *)
Lemma overflow_is_not_integer (w : Q) : inject_Z (2 ^ 63) <= w -> not_integer w = true.
Proof.
  intros Hw. unfold not_integer. apply negb_true_iff.
  destruct (Qeq_bool (inject_Z (astype_int w)) w) eqn:Heq; [|reflexivity].
  exfalso. apply Qeq_bool_iff in Heq. rewrite <- Heq in Hw.
  rewrite <- Zle_Qle in Hw. pose proof (astype_int_range w). lia.
Qed.

Lemma good_weight_fits_int64 (w : Q) : good_weight w -> 0 < w /\ w < inject_Z (2 ^ 63).
Proof.
  intros [Hi Hp]. split; [assumption|].
  apply Qnot_le_lt. intros Hw. rewrite (overflow_is_not_integer w Hw) in Hi.
  discriminate Hi.
Qed.

Lemma check_weights_good (self : AalenAdditiveFitter) (wcol : option string) (W : vector) :
  Forall good_weight W -> check_weights self wcol W = None.
Proof.
  intros HW. unfold check_weights. destruct (truthy wcol); [|reflexivity].
  assert (H1 : np.any (map not_integer W) = false).
  { apply not_true_is_false. intros H. apply any_map_Exists in H.
    rewrite Exists_exists in H. destruct H as (x & Hin & Hx).
    rewrite Forall_forall in HW. destruct (HW x Hin) as [Hi _]. congruence. }
  assert (H2 : np.any (map (fun x => Qle_bool x 0) W) = false).
  { apply not_true_is_false. intros H. apply any_map_Exists in H.
    rewrite Exists_exists in H. destruct H as (x & Hin & Hx).
    rewrite Forall_forall in HW. destruct (HW x Hin) as [_ Hp].
    apply Qle_bool_iff in Hx. apply Qle_not_lt in Hx. contradiction. }
  rewrite H1, H2. reflexivity.
Qed.

(** The loop reads the two penalties of the fitter and nothing else of it,
    and never its weights argument. *)
Lemma loop_ext (env : Env) (self self' : AalenAdditiveFitter) (n d : nat)
      (T : vector) (E : mask) (times : vector) :
  coef_penalizer self = coef_penalizer self' ->
  smoothing_penalizer self = smoothing_penalizer self' ->
  forall i s, loop env self n d T E i times s = loop env self' n d T E i times s.
Proof.
  intros H1 H2. induction times as [|t times IH]; intros i s; simpl; [reflexivity|].
  unfold loop_body. rewrite H1, H2.
  destruct (lr env _ _ _ _ _) as [R|]; [| destruct (ls_V s)]; simpl;
    try destruct (_ >=? _)%Z; auto.
Qed.

Lemma fit_model_ext (env : Env) (self self' : AalenAdditiveFitter)
      (X : DataFrame) (T : vector) (E : mask) (W W' : vector) :
  coef_penalizer self = coef_penalizer self' ->
  smoothing_penalizer self = smoothing_penalizer self' ->
  _fit_model env self X T E W = _fit_model env self' X T E W'.
Proof.
  intros H1 H2. unfold _fit_model, _fit_model_to_data_batch, np.shape. cbv zeta iota beta.
  rewrite (loop_ext env self self' _ _ T E _ H1 H2). reflexivity.
Qed.

Lemma check_and_cast_weights (env : Env) (self : AalenAdditiveFitter) (wcol : option string)
      (T E W W' : vector) (df4 : DataFrame) :
  Forall good_weight W -> Forall good_weight W' ->
  (exists e, check_and_cast env self wcol (T, E, W, df4) = Raised e /\
             check_and_cast env self wcol (T, E, W', df4) = Raised e) \/
  (exists X Eb, check_and_cast env self wcol (T, E, W, df4) = Ok (X, T, Eb, W) /\
                check_and_cast env self wcol (T, E, W', df4) = Ok (X, T, Eb, W')).
Proof.
  intros HW HW'. unfold check_and_cast.
  rewrite (check_weights_good self wcol W HW), (check_weights_good self wcol W' HW').
  cbn [raise_if].
  destruct (_check_values env df4 T E) as [e|]; cbn [raise_if]; [left; eauto|].
  destruct (fit_intercept self); [destruct (existsb _ _)|]; cbn [bind]; eauto.
Qed.

(** What [fit] computes once the preprocessing has returned does not
    depend on the weights it returned. *)
Lemma fit_same_data (env : Env) (self : AalenAdditiveFitter) (df df' : DataFrame)
      (dcol : string) (ecol wcol : option string) (now : string)
      (X : DataFrame) (T : vector) (E : mask) (W W' : vector) :
  let o := fit env self df dcol ecol wcol now in
  let o' := fit env self df' dcol ecol wcol now in
  length (values df') = length (values df) ->
  _preprocess_dataframe env (set_call self now dcol ecol wcol (length (values df))) df
    = Ok (X, T, E, W) ->
  _preprocess_dataframe env (set_call self now dcol ecol wcol (length (values df))) df'
    = Ok (X, T, E, W') ->
  cumulative_hazards_ (after o) = cumulative_hazards_ (after o') /\
  cumulative_variance_ (after o) = cumulative_variance_ (after o') /\
  emitted o = emitted o' /\ returned o = returned o'.
Proof.
  cbv zeta. intros Hn Hp Hp'. unfold fit, np.shape. cbn [fst]. rewrite Hn, Hp, Hp'.
  set (self1 := set_call self now dcol ecol wcol (length (values df))).
  set (s := norm_std env self1 X).
  rewrite (fit_model_ext env (set_data self1 T E W' s) (set_data self1 T E W s)
             (normalize env X 0 s) T E W' W eq_refl eq_refl).
  destruct (_fit_model env _ _ T E W) as [ws [[H V]|e]]; [|splits; reflexivity].
  set (H' := pd.div_columns H s). set (V' := pd.div_columns V s).
  assert (HP : predict_cumulative_hazard
                 (set_fitted (set_data self1 T E W' s) H' V'
                    (_compute_confidence_intervals env (alpha (set_data self1 T E W' s)) H' V'))
                 (Frame X) =
               predict_cumulative_hazard
                 (set_fitted (set_data self1 T E W s) H' V'
                    (_compute_confidence_intervals env (alpha (set_data self1 T E W s)) H' V'))
                 (Frame X)) by reflexivity.
  rewrite HP.
  destruct (predict_cumulative_hazard _ _) as [P|e]; [|splits; reflexivity].
  destruct (rev (curve_values P)); splits; reflexivity.
Qed.

(** [C9] Two datasets that differ only in the cells of the weights
    column, each holding positive integers there, give the same
    [cumulative_hazards_] and [cumulative_variance_], the same warnings
    and the same result of the call.  The integers are those that the
    weight check takes for integers: the weights equal to their cast to
    [int64], all below [2^63] ([good_weight_fits_int64]). *)
Theorem weights_do_not_change_the_fit
        (env : Env) (self : AalenAdditiveFitter) (df df' : DataFrame)
        (dcol : string) (ecol : option string) (w : string) (now : string) (j : nat) :
  let o := fit env self df dcol ecol (Some w) now in
  let o' := fit env self df' dcol ecol (Some w) now in
  pd.position w (columns df) = Some j ->
  same_but_weights j df df' ->
  w <> dcol -> ecol <> Some w ->
  cumulative_hazards_ (after o) = cumulative_hazards_ (after o') /\
  cumulative_variance_ (after o) = cumulative_variance_ (after o') /\
  emitted o = emitted o' /\ returned o = returned o'.
Proof.
  cbv zeta. intros Hw Hrel Hwd Hwe.
  assert (Hn : length (values df') = length (values df)).
  { destruct Hrel as (_ & _ & Hr & _). symmetry. eapply Forall2_length. exact Hr. }
  set (self1 := set_call self now dcol ecol (Some w) (length (values df))).
  pose proof (preprocess_eq env self1 df dcol ecol (Some w) eq_refl eq_refl eq_refl) as Hp.
  pose proof (preprocess_eq env self1 df' dcol ecol (Some w) eq_refl eq_refl eq_refl) as Hp'.
  rewrite Hn in Hp'.
  destruct (extract_columns_same_but j dcol ecol w (length (values df)) df df'
              Hrel Hw Hwd Hwe)
    as [(e & Hx & Hx') | (T & E & W & W' & df4 & Hx & Hx' & HW & HW')];
    rewrite Hx in Hp; rewrite Hx' in Hp'; cbn [bind] in Hp, Hp'.
  - unfold fit, np.shape. cbn [fst]. rewrite Hn. fold self1. rewrite Hp, Hp'.
    splits; reflexivity.
  - destruct (check_and_cast_weights env self1 (Some w) T E W W' df4 HW HW')
      as [(e & Hc & Hc') | (X & Eb & Hc & Hc')]; rewrite Hc in Hp; rewrite Hc' in Hp'.
    + unfold fit, np.shape. cbn [fst]. rewrite Hn. fold self1. rewrite Hp, Hp'.
      splits; reflexivity.
    + apply (fit_same_data env self df df' dcol ecol (Some w) now X T Eb W W' Hn Hp Hp').
Qed.

Lemma weights_do_not_change_the_fit_witness :
  let o := fit Ref.env Data.default (Data.df3w 1 1 1) "T" (Some "E") (Some "w") Data.now in
  let o' := fit Ref.env Data.default (Data.df3w 2 3 5) "T" (Some "E") (Some "w") Data.now in
  cumulative_hazards_ (after o) = cumulative_hazards_ (after o') /\
  cumulative_variance_ (after o) = cumulative_variance_ (after o') /\
  emitted o = emitted o' /\ returned o = returned o'.
Proof.
  apply (weights_do_not_change_the_fit
           Ref.env Data.default (Data.df3w 1 1 1) (Data.df3w 2 3 5)
           "T" (Some "E") "w" Data.now 3).
  - reflexivity.
  - unfold same_but_weights, good_weight. simpl. splits; repeat constructor.
  - discriminate.
  - discriminate.
Defined.

(** ** What a failed check leaves behind *)

(** [C8, as the code has it] Every check of [fit] is made inside
    [_preprocess_dataframe].  When it raises, the call ends with that
    exception and without a warning; by then [fit] has overwritten
    [_time_fit_was_called], [duration_col], [event_col], [weights_col] and
    [_n_examples], and nothing else: the parameters, the retained data and
    every fitted result are those of before the call.  [__init__] stores
    its four parameters before it checks them; when a check fails the
    constructor call raises and gives no object. *)
Theorem failed_check_keeps_fitted_results
        (env : Env) (self : AalenAdditiveFitter) (df : DataFrame)
        (dcol : string) (ecol wcol : option string) (now : string) (e : exn) :
  let n := fst (np.shape (values df)) in
  let o := fit env self df dcol ecol wcol now in
  _preprocess_dataframe env (set_call self now dcol ecol wcol n) df = Raised e ->
  (returned o = Raised e /\ emitted o = []) /\
  (_time_fit_was_called (after o) = Some now /\
   duration_col (after o) = Some dcol /\
   event_col (after o) = Some ecol /\
   weights_col (after o) = Some wcol /\
   _n_examples (after o) = Some n) /\
  (fit_intercept (after o) = fit_intercept self /\
   alpha (after o) = alpha self /\
   coef_penalizer (after o) = coef_penalizer self /\
   smoothing_penalizer (after o) = smoothing_penalizer self /\
   robust (after o) = robust self /\
   durations (after o) = durations self /\
   event_observed (after o) = event_observed self /\
   weights (after o) = weights self /\
   _norm_std (after o) = _norm_std self /\
   cumulative_hazards_ (after o) = cumulative_hazards_ self /\
   cumulative_variance_ (after o) = cumulative_variance_ self /\
   confidence_intervals_ (after o) = confidence_intervals_ self /\
   _predicted_hazards_ (after o) = _predicted_hazards_ self) /\
  (forall fi a c1 c2 e',
      snd (__init__ fi a c1 c2) = Some e' ->
      new fi a c1 c2 = Raised e' /\
      fit_intercept (fst (__init__ fi a c1 c2)) = fi /\
      alpha (fst (__init__ fi a c1 c2)) = a /\
      coef_penalizer (fst (__init__ fi a c1 c2)) = c1 /\
      smoothing_penalizer (fst (__init__ fi a c1 c2)) = c2).
Proof.
  cbv zeta. intros Hp.
  rewrite (fit_preprocess_raises env self df dcol ecol wcol now e Hp). simpl.
  splits; try reflexivity.
  intros fi a c1 c2 e'. unfold new, __init__.
  destruct (negb _); [|destruct (_ || _)%bool]; simpl; intros He;
    inversion He; splits; reflexivity.
Qed.

Lemma failed_check_keeps_fitted_results_witness :
  let o := fit Ref.env Data.default (Data.df3w 1 0 1) "T" (Some "E") (Some "w") Data.now in
  returned o = Raised (ValueError "values in weight column w must be positive.") /\
  emitted o = [] /\
  cumulative_hazards_ (after o) = cumulative_hazards_ Data.default.
Proof.
  cbv zeta.
  destruct (failed_check_keeps_fitted_results
              Ref.env Data.default (Data.df3w 1 0 1) "T" (Some "E") (Some "w") Data.now
              (ValueError "values in weight column w must be positive."))
    as ((H1 & H2) & _ & H3 & _).
  - vm_compute. reflexivity.
  - splits; [exact H1 | exact H2 | apply H3].
Defined.

(** A model fitted on the five subjects of [Data.df5] is fitted again, on
    a dataset of three subjects one of whose weights is zero.  The call
    raises [ValueError], and the fitter now names the weights column and
    counts three examples, while it still holds the five durations and
    the results of the first fit.  [__init__] with [alpha = 2] raises with
    [2] already stored. *)
Lemma failed_check_has_changed_the_fitter :
  let self := after (fit Ref.env Data.default Data.df5 "T" (Some "E") None Data.now) in
  let o := fit Ref.env self (Data.df3w 1 0 1) "T" (Some "E") (Some "w") "later" in
  returned o = Raised (ValueError "values in weight column w must be positive.") /\
  after o <> self /\
  _n_examples self = Some 5%nat /\ _n_examples (after o) = Some 3%nat /\
  weights_col self = Some None /\ weights_col (after o) = Some (Some "w") /\
  _time_fit_was_called self = Some Data.now /\ _time_fit_was_called (after o) = Some "later" /\
  option_map (@length Q) (durations (after o)) = Some 5%nat /\
  snd (__init__ true 2 0 0) = Some (ValueError "alpha parameter must be between 0 and 1.") /\
  alpha (fst (__init__ true 2 0 0)) = 2.
Proof.
  cbv zeta.
  assert (Hn : _n_examples
                 (after (fit Ref.env
                           (after (fit Ref.env Data.default Data.df5 "T" (Some "E") None Data.now))
                           (Data.df3w 1 0 1) "T" (Some "E") (Some "w") "later"))
               = Some 3%nat) by (vm_compute; reflexivity).
  assert (Hn' : _n_examples
                  (after (fit Ref.env Data.default Data.df5 "T" (Some "E") None Data.now))
                = Some 5%nat) by (vm_compute; reflexivity).
  splits; try (vm_compute; reflexivity).
  intros Heq. rewrite Heq in Hn. rewrite Hn' in Hn. discriminate Hn.
Qed.

Lemma fit_model_shape_witness :
  let X := mkDataFrame ["x"; "baseline"] [0; 1; 2; 3; 4]
                       [[0; 1]; [1; 1]; [-1; 1]; [1; 1]; [-1; 1]] in
  let T := [1; 2; 3; 4; 5] in
  let E := [true; true; true; true; true] in
  exists H V,
    _fit_model Ref.env Data.default X T E [1; 1; 1; 1; 1] = ([], Ok (H, V)) /\
    index H = [1; 2; 3; 4; 5] /\ length (values H) = 5%nat.
Proof.
  cbv zeta.
  assert (Hf : exists H V,
             _fit_model Ref.env Data.default
               (mkDataFrame ["x"; "baseline"] [0; 1; 2; 3; 4]
                            [[0; 1]; [1; 1]; [-1; 1]; [1; 1]; [-1; 1]])
               [1; 2; 3; 4; 5] [true; true; true; true; true] [1; 1; 1; 1; 1]
             = ([], Ok (H, V)))
    by (do 2 eexists; vm_compute; reflexivity).
  destruct Hf as (H & V & Hf). exists H, V. split; [exact Hf|].
  pose proof (fit_model_shape _ _ _ _ _ _ _ _ _ Hf) as Hs.
  cbv zeta in Hs. unfold np.shape in Hs.
  destruct Hs as (Hi & _ & _ & _ & Hl & _).
  rewrite Hi, Hl. split; reflexivity.
Defined.

(** * Further properties of the class *)

Lemma Qlt_bool_iff (x y : Q) : Qlt_bool x y = true <-> x < y.
Proof.
  unfold Qlt_bool. rewrite negb_true_iff. split.
  - apply Qle_bool_false.
  - intros H. apply not_true_is_false. intros K. apply Qle_bool_iff in K.
    apply Qle_not_lt in K. contradiction.
Qed.

Lemma Qlt_bool_false (x y : Q) : Qlt_bool x y = false <-> y <= x.
Proof.
  unfold Qlt_bool. rewrite negb_false_iff. apply Qle_bool_iff.
Qed.

(** ** The constructor *)

(** [X1] The constructor gives an object exactly when [0 < alpha <= 1] and
    both penalties are at least zero, and the object then holds the four
    parameters and no other attribute.  Otherwise it raises [ValueError];
    the message is the one about [alpha] whenever [alpha] is out of range,
    whatever the penalties are. *)
Theorem new_checks_parameters (fi : bool) (a c1 c2 : Q) :
  match new fi a c1 c2 with
  | Ok self =>
      (0 < a /\ a <= 1 /\ 0 <= c1 /\ 0 <= c2) /\
      self = mkFitter fi a c1 c2 None None None None None None None None None None
                      None None None None
  | Raised e =>
      (~ (0 < a /\ a <= 1) /\
       e = ValueError "alpha parameter must be between 0 and 1.") \/
      ((0 < a /\ a <= 1) /\ (c1 < 0 \/ c2 < 0) /\
       e = ValueError "penalizer parameters must be >= 0.")
  end.
Proof.
  unfold new, __init__.
  destruct (Qlt_bool 0 a) eqn:Ha1; destruct (Qle_bool a 1) eqn:Ha2; cbn [andb negb];
    try apply Qlt_bool_iff in Ha1; try apply Qle_bool_iff in Ha2;
    try (left; split; [|reflexivity]; intros [K1 K2];
         first [ apply Qlt_bool_iff in K1; congruence
               | apply Qle_bool_iff in K2; congruence ]).
  destruct (Qlt_bool c1 0) eqn:Hc1; destruct (Qlt_bool c2 0) eqn:Hc2; cbn [orb];
    try apply Qlt_bool_iff in Hc1; try apply Qlt_bool_iff in Hc2;
    try apply Qlt_bool_false in Hc1; try apply Qlt_bool_false in Hc2;
    try (right; split; [split; assumption|]; split; [tauto | reflexivity]).
  split; [tauto | reflexivity].
Qed.

(** ** What the preprocessing returns *)

Lemma position_Some_In (c : string) (cols : list string) (j : nat) :
  pd.position c cols = Some j -> In c cols.
Proof.
  revert j. induction cols as [|x cols IH]; simpl; intros j Hj; [discriminate|].
  destruct (String.eqb c x) eqn:Hcx.
  - apply String.eqb_eq in Hcx. auto.
  - destruct (pd.position c cols) as [k|]; [|discriminate]. right. eapply IH. reflexivity.
Qed.

Lemma position_None_not_In (c : string) (cols : list string) :
  pd.position c cols = None <-> ~ In c cols.
Proof.
  split.
  - intros Hn Hin. destruct (position_In _ _ Hin) as [j Hj]. congruence.
  - intros Hn. destruct (pd.position c cols) as [j|] eqn:Hj; [|reflexivity].
    exfalso. apply Hn. eapply position_Some_In. eassumption.
Qed.

Lemma remove_nth_In {A : Type} (x : A) (l : list A) : forall j,
  In x (pd.remove_nth j l) -> In x l.
Proof.
  induction l as [|y l IH]; intros [|j]; simpl; auto.
  intros [->|H]; auto. right. eapply IH. eassumption.
Qed.

(** Taking one more column out of a view. *)
Lemma view_pop (cols0 : list string) (rows : matrix) (popped : list string)
      (g : vector -> vector) (df : DataFrame) (c : string) :
  view cols0 rows popped g df -> ~ In c popped -> In c cols0 ->
  exists j,
    pd.pop c df =
    Ok (map (cell_of c cols0) rows,
        mkDataFrame (pd.remove_nth j (columns df)) (index df)
                    (map (fun r => pd.remove_nth j (g r)) rows)) /\
    view cols0 rows (c :: popped) (fun r => pd.remove_nth j (g r))
         (mkDataFrame (pd.remove_nth j (columns df)) (index df)
                      (map (fun r => pd.remove_nth j (g r)) rows)).
Proof.
  intros (Hv & Hc & Hsub) Hnp Hin.
  destruct (Hc c Hnp Hin) as [Hin' Hcell].
  destruct (position_In _ _ Hin') as [j Hj]. exists j. split.
  - apply pop_view; assumption.
  - unfold view. cbn [columns values]. split; [reflexivity|]. split.
    + intros c2 Hnp2 Hin2.
      assert (Hne : c2 <> c) by (intros ->; apply Hnp2; left; reflexivity).
      assert (Hnp2' : ~ In c2 popped) by (intros K; apply Hnp2; right; assumption).
      destruct (Hc c2 Hnp2' Hin2) as [Hin2' Hcell2].
      destruct (position_In _ _ Hin2') as [j2 Hj2].
      destruct (position_remove _ _ _ _ _ Hj2 Hj Hne) as [_ Hp]. split.
      * eapply position_Some_In. exact Hp.
      * intros r. rewrite (cell_of_remove c2 c _ _ _ Hj Hne). apply Hcell2.
    + intros c2 Hin2. apply Hsub. eapply remove_nth_In. exact Hin2.
Qed.

Lemma view_pop_or_ones (cols0 : list string) (rows : matrix) (popped : list string)
      (g : vector -> vector) (df : DataFrame) (name : option string) (n : nat) :
  view cols0 rows popped g df ->
  match name with Some c => ~ In c popped /\ In c cols0 | None => True end ->
  exists g' df',
    pop_or_ones name n df = Ok (column_or_ones name cols0 n rows, df') /\
    index df' = index df /\
    view cols0 rows (match name with Some c => c :: popped | None => popped end) g' df'.
Proof.
  intros Hview Hname. destruct name as [c|]; cbn [pop_or_ones column_or_ones].
  - destruct Hname as [Hnp Hin].
    destruct (view_pop _ _ _ _ _ c Hview Hnp Hin) as (j & Hp & Hview').
    do 2 eexists. split; [exact Hp|]. split; [reflexivity | exact Hview'].
  - exists g, df. auto.
Qed.

(** The extraction under valid labels, with what is left of the frame. *)
Lemma extract_columns_view (dcol : string) (ecol wcol : option string) (n : nat)
      (df : DataFrame) :
  valid_names (columns df) dcol ecol wcol ->
  exists df1 g df4,
    pd.sort_values dcol df = Ok df1 /\ columns df1 = columns df /\
    extract_columns dcol ecol wcol n df =
    Ok (map (cell_of dcol (columns df)) (values df1),
        column_or_ones ecol (columns df) n (values df1),
        column_or_ones wcol (columns df) n (values df1),
        df4) /\
    index df4 = index df1 /\
    view (columns df) (values df1)
         (match wcol with Some w => [w] | None => [] end ++
          match ecol with Some e => [e] | None => [] end ++ [dcol]) g df4.
Proof.
  intros (Hd & He & Hw).
  destruct (position_In _ _ Hd) as [jd Hjd].
  destruct (sort_values_ok _ _ _ Hjd) as (df1 & Hs & Hc1 & _).
  assert (V0 : view (columns df) (values df1) [] (fun r => r) df1).
  { unfold view. rewrite map_id, Hc1. split; [reflexivity|]. split; auto. }
  destruct (view_pop _ _ _ _ _ dcol V0 (fun K => K) Hd) as (j1 & H1 & V1).
  destruct (view_pop_or_ones _ _ _ _ _ ecol n V1) as (g2 & df3 & H2 & I2 & V2).
  { destruct ecol as [e|]; [|exact I]. destruct He as [Hin Hne]. split; [|assumption].
    intros [K|[]]. congruence. }
  destruct (view_pop_or_ones _ _ _ _ _ wcol n V2) as (g3 & df4 & H3 & I3 & V3).
  { destruct wcol as [w|]; [|exact I]. destruct Hw as (Hin & Hne & Hne'). split; [|assumption].
    destruct ecol as [e|]; simpl; intros K.
    - destruct K as [K|[K|[]]]; congruence.
    - destruct K as [K|[]]. congruence. }
  exists df1, g3, df4. split; [exact Hs|]. split; [exact Hc1|].
  split.
  - unfold extract_columns. rewrite Hs. cbn [bind]. rewrite H1. cbn [bind].
    rewrite H2. cbn [bind]. rewrite H3. cbn [bind]. reflexivity.
  - split; [rewrite I3, I2; reflexivity|].
    destruct wcol, ecol; exact V3.
Qed.

Lemma insert_by_sorted (j : nat) (x : Q * vector) (l : list (Q * vector)) :
  Sorted (fun p q => sort_key j p <= sort_key j q) l ->
  Sorted (fun p q => sort_key j p <= sort_key j q) (pd.insert_by j x l).
Proof.
  induction 1 as [|y l Hs IH Hy]; simpl.
  - repeat constructor.
  - fold (sort_key j x) (sort_key j y).
    destruct (Qle_bool (sort_key j x) (sort_key j y)) eqn:Hxy.
    + apply Qle_bool_iff in Hxy. repeat constructor; assumption.
    + apply Qle_bool_false, Qlt_le_weak in Hxy.
      constructor; [assumption|].
      destruct l as [|z l]; simpl.
      * constructor. assumption.
      * fold (sort_key j x) (sort_key j z).
        destruct (Qle_bool (sort_key j x) (sort_key j z)); constructor; [assumption|].
        inversion Hy. assumption.
Qed.

Lemma sorted_rows_sorted (j : nat) (l : list (Q * vector)) :
  Sorted (fun p q => sort_key j p <= sort_key j q) (fold_right (pd.insert_by j) [] l).
Proof.
  induction l as [|x l IH]; simpl; [constructor | apply insert_by_sorted; assumption].
Qed.

Lemma Sorted_map_key (j : nat) (l : list (Q * vector)) :
  Sorted (fun p q => sort_key j p <= sort_key j q) l ->
  Sorted Qle (map (fun r => nth j r 0) (map snd l)).
Proof.
  induction 1 as [|x l Hs IH Hx]; simpl; [constructor|].
  constructor; [assumption|]. destruct Hx; simpl; constructor. assumption.
Qed.

(** The duration column of the sorted frame is in ascending order. *)
Lemma sort_values_sorted (c : string) (df df1 : DataFrame) :
  pd.sort_values c df = Ok df1 ->
  StronglySorted Qle (map (cell_of c (columns df)) (values df1)).
Proof.
  unfold pd.sort_values, cell_of.
  destruct (pd.position c (columns df)) as [j|]; [|discriminate].
  intros Heq. inversion Heq; subst df1; clear Heq. cbn [values].
  apply Sorted_StronglySorted.
  - intros x y z. apply Qle_trans.
  - apply Sorted_map_key, sorted_rows_sorted.
Qed.

(** ** The covariate frame *)

Lemma position_lt (c : string) (cols : list string) : forall j,
  pd.position c cols = Some j -> (j < length cols)%nat.
Proof.
  induction cols as [|x cols IH]; simpl; intros j Hj; [discriminate|].
  destruct (String.eqb c x).
  - inversion Hj. lia.
  - destruct (pd.position c cols) as [k|]; [|discriminate].
    inversion Hj. specialize (IH k eq_refl). lia.
Qed.

Lemma remove_nth_length {A : Type} (l : list A) : forall j,
  (j < length l)%nat -> S (length (pd.remove_nth j l)) = length l.
Proof.
  induction l as [|x l IH]; intros [|j]; simpl; intros Hj; try lia.
  rewrite IH by lia. reflexivity.
Qed.

Lemma filter_all {A : Type} (f : A -> bool) (l : list A) :
  (forall x, In x l -> f x = true) -> filter f l = l.
Proof.
  induction l as [|x l IH]; simpl; intros Hf; [reflexivity|].
  rewrite (Hf x (or_introl eq_refl)). f_equal. apply IH. auto.
Qed.

Lemma filter_filter {A : Type} (f g : A -> bool) (l : list A) :
  filter f (filter g l) = filter (fun x => g x && f x) l.
Proof.
  induction l as [|x l IH]; simpl; [reflexivity|].
  destruct (g x); simpl; [destruct (f x); simpl; rewrite IH; reflexivity | exact IH].
Qed.

(** Taking a label out of distinct labels leaves the others, in order. *)
Lemma remove_nth_filter (c : string) (cols : list string) : forall j,
  NoDup cols -> pd.position c cols = Some j ->
  pd.remove_nth j cols = filter (fun c' => negb (String.eqb c c')) cols.
Proof.
  induction cols as [|x cols IH]; simpl; intros j Hnd Hj; [discriminate|].
  inversion Hnd as [|? ? Hx Hnd']; subst.
  destruct (String.eqb c x) eqn:Hcx; simpl.
  - inversion Hj; subst j. apply String.eqb_eq in Hcx. subst x.
    symmetry. apply filter_all. intros y Hy.
    apply negb_true_iff, String.eqb_neq. intros ->. contradiction.
  - destruct (pd.position c cols) as [k|] eqn:Hk; [|discriminate].
    inversion Hj; subst j. cbn [pd.remove_nth]. f_equal.
    apply IH; [assumption | reflexivity].
Qed.

Lemma cell_of_cons (c x : string) (cols : list string) (y : Q) (r : vector) :
  c <> x -> cell_of c (x :: cols) (y :: r) = cell_of c cols r.
Proof.
  intros Hne. unfold cell_of. simpl.
  apply String.eqb_neq in Hne. rewrite Hne.
  destruct (pd.position c cols); reflexivity.
Qed.

(** A row with one cell per label is the list of its cells under the
    labels. *)
Lemma row_as_cells (cols : list string) : forall r : vector,
  NoDup cols -> length r = length cols ->
  map (fun c => cell_of c cols r) cols = r.
Proof.
  induction cols as [|x cols IH]; intros [|y r] Hnd Hl; try discriminate; [reflexivity|].
  inversion Hnd as [|? ? Hx Hnd']; subst. simpl. f_equal.
  - unfold cell_of. simpl. rewrite String.eqb_refl. reflexivity.
  - transitivity (map (fun c => cell_of c cols r) cols).
    + apply map_ext_in. intros c Hc. apply cell_of_cons. intros ->. contradiction.
    + apply IH; [assumption | simpl in Hl; lia].
Qed.

Lemma pop_shape (c : string) (df df' : DataFrame) (col : vector) :
  well_formed df -> pd.pop c df = Ok (col, df') ->
  columns df' = filter (fun c' => negb (String.eqb c c')) (columns df) /\
  well_formed df'.
Proof.
  intros [Hnd Hrows]. unfold pd.pop.
  destruct (pd.position c (columns df)) as [j|] eqn:Hj; [|discriminate].
  intros Heq. inversion Heq; subst; clear Heq. cbn [columns values].
  pose proof (remove_nth_filter c (columns df) j Hnd Hj) as Hf.
  split; [exact Hf|]. split.
  - cbn [columns]. rewrite Hf. apply NoDup_filter. assumption.
  - cbn [columns values]. rewrite Forall_map. eapply Forall_impl; [|exact Hrows].
    intros r Hr. cbv beta in *. pose proof (position_lt _ _ _ Hj) as Hlt.
    pose proof (remove_nth_length (columns df) j Hlt).
    pose proof (remove_nth_length r j ltac:(lia)). lia.
Qed.

Lemma pop_or_ones_shape (name : option string) (n : nat) (df df' : DataFrame)
      (col : vector) :
  well_formed df -> pop_or_ones name n df = Ok (col, df') ->
  columns df' =
    filter (fun c' => negb (match name with Some c => String.eqb c c' | None => false end))
           (columns df) /\
  well_formed df'.
Proof.
  intros Hwf. destruct name as [c|]; cbn [pop_or_ones].
  - apply pop_shape. assumption.
  - intros Heq. inversion Heq; subst. split; [|assumption].
    symmetry. apply filter_all. reflexivity.
Qed.

(** What the extraction leaves of a well-formed frame: the covariate
    columns, in their order. *)
Lemma extract_columns_shape (dcol : string) (ecol wcol : option string) (n : nat)
      (df df4 : DataFrame) (T E W : vector) :
  well_formed df ->
  extract_columns dcol ecol wcol n df = Ok (T, E, W, df4) ->
  columns df4 = covariate_labels dcol ecol wcol (columns df) /\ well_formed df4.
Proof.
  intros Hwf. unfold extract_columns.
  destruct (pd.sort_values dcol df) as [df1|] eqn:Hs; cbn [bind]; [|discriminate].
  assert (Hwf1 : columns df1 = columns df /\ well_formed df1).
  { destruct (pd.position dcol (columns df)) as [j|] eqn:Hj.
    - destruct (sort_values_ok _ _ _ Hj) as (df1' & Hs' & Hc & Hin & _).
      rewrite Hs in Hs'. inversion Hs'; subst df1'. split; [exact Hc|].
      destruct Hwf as [Hnd Hrows]. split; [rewrite Hc; exact Hnd|].
      rewrite Hc. apply Forall_forall. intros r Hr.
      rewrite Forall_forall in Hrows. apply Hrows, Hin, Hr.
    - rewrite (sort_values_absent dcol df Hj) in Hs. discriminate Hs. }
  destruct Hwf1 as [Hc1 Hwf1].
  destruct (pd.pop dcol df1) as [[T1 df2]|] eqn:H1; cbn [bind]; [|discriminate].
  destruct (pop_shape _ _ _ _ Hwf1 H1) as [Hc2 Hwf2].
  destruct (pop_or_ones ecol n df2) as [[E1 df3]|] eqn:H2; cbn [bind]; [|discriminate].
  destruct (pop_or_ones_shape _ _ _ _ _ Hwf2 H2) as [Hc3 Hwf3].
  destruct (pop_or_ones wcol n df3) as [[W1 df4']|] eqn:H3; cbn [bind]; [|discriminate].
  destruct (pop_or_ones_shape _ _ _ _ _ Hwf3 H3) as [Hc4 Hwf4].
  intros Heq. inversion Heq; subst. split; [|assumption].
  rewrite Hc4, Hc3, Hc2, Hc1, !filter_filter. unfold covariate_labels.
  apply filter_ext. intros c. unfold is_covariate. rewrite andb_assoc. reflexivity.
Qed.

Lemma covariate_label_kept (dcol : string) (ecol wcol : option string)
      (cols : list string) (c : string) :
  In c (covariate_labels dcol ecol wcol cols) ->
  In c cols /\
  ~ In c (match wcol with Some w => [w] | None => [] end ++
          match ecol with Some e => [e] | None => [] end ++ [dcol]).
Proof.
  unfold covariate_labels, is_covariate. intros Hc. apply filter_In in Hc.
  destruct Hc as [Hin Hk]. split; [assumption|].
  apply andb_true_iff in Hk. destruct Hk as [Hk Hw].
  apply andb_true_iff in Hk. destruct Hk as [Hd He].
  apply negb_true_iff in Hd, He, Hw.
  intros K. apply in_app_or in K. destruct K as [K|K].
  - destruct wcol as [w|]; [|contradiction]. destruct K as [<-|[]].
    rewrite String.eqb_refl in Hw. discriminate.
  - apply in_app_or in K. destruct K as [K|[<-|[]]].
    + destruct ecol as [e|]; [|contradiction]. destruct K as [<-|[]].
      rewrite String.eqb_refl in He. discriminate.
    + rewrite String.eqb_refl in Hd. discriminate.
Qed.

(** The result of the preprocessing on a well-formed dataset, in full:
    the rows are sorted by duration, [T], [E] and [W] are read off the
    sorted rows, and so is the covariate frame, label by label. *)
Lemma preprocess_frame (env : Env) (self : AalenAdditiveFitter) (df : DataFrame)
      (dcol : string) (ecol wcol : option string) (now : string)
      (X : DataFrame) (T : vector) (E : mask) (W : vector) :
  let n := length (values df) in
  valid_names (columns df) dcol ecol wcol ->
  well_formed df ->
  _preprocess_dataframe env (set_call self now dcol ecol wcol n) df = Ok (X, T, E, W) ->
  exists df1,
    pd.sort_values dcol df = Ok df1 /\
    T = map (cell_of dcol (columns df)) (values df1) /\
    E = map astype_bool (column_or_ones ecol (columns df) n (values df1)) /\
    W = column_or_ones wcol (columns df) n (values df1) /\
    columns X = covariate_labels dcol ecol wcol (columns df)
                ++ (if fit_intercept self then ["baseline"] else []) /\
    values X = map (covariate_row dcol ecol wcol (columns df) (fit_intercept self))
                   (values df1).
Proof.
  cbv zeta. intros Hnames Hwf Hp.
  rewrite (preprocess_eq env (set_call self now dcol ecol wcol _) df
             dcol ecol wcol eq_refl eq_refl eq_refl) in Hp.
  destruct (extract_columns_view dcol ecol wcol (length (values df)) df Hnames)
    as (df1 & g & df4 & Hs & Hc1 & Hx & _ & (Hv & Hcells & _)).
  destruct (extract_columns_shape _ _ _ _ _ _ _ _ _ Hwf Hx) as [Hc4 [Hnd4 Hrows4]].
  rewrite Hx in Hp. cbn [bind] in Hp.
  apply check_and_cast_inv in Hp. destruct Hp as (_ & _ & -> & -> & -> & ->).
  change (fit_intercept (set_call self now dcol ecol wcol (length (values df))))
    with (fit_intercept self).
  exists df1. split; [exact Hs|]. do 3 (split; [reflexivity|]).
  assert (Hg : forall r, In r (values df1) ->
                 g r = map (fun c => cell_of c (columns df) r)
                           (covariate_labels dcol ecol wcol (columns df))).
  { intros r Hr.
    assert (Hl : length (g r) = length (columns df4)).
    { rewrite Forall_forall in Hrows4. apply Hrows4. rewrite Hv. apply in_map. exact Hr. }
    rewrite <- (row_as_cells (columns df4) (g r) Hnd4 Hl) at 1.
    rewrite Hc4. apply map_ext_in. intros c Hc.
    destruct (covariate_label_kept _ _ _ _ _ Hc) as [Hin Hnp].
    destruct (Hcells c Hnp Hin) as [_ Hcell]. rewrite <- Hc4. apply Hcell. }
  destruct (fit_intercept self); cbn [pd.add_column columns values].
  - split; [rewrite Hc4; reflexivity|]. rewrite Hv, map_map.
    apply map_ext_in. intros r Hr. unfold covariate_row. rewrite (Hg r Hr). reflexivity.
  - split; [rewrite Hc4, app_nil_r; reflexivity|]. rewrite Hv.
    apply map_ext_in. intros r Hr. unfold covariate_row.
    rewrite (Hg r Hr), app_nil_r. reflexivity.
Qed.

(** [X2] The durations come out of the preprocessing of a well-formed
    dataset in ascending order, and the rows stay together: there is one
    rearrangement of the rows of the dataset from which the durations, the
    event flags, the weights and the rows of the covariate frame are read,
    position by position.  A row of the covariate frame holds the cells
    that its row of the dataset has under the labels of the covariates,
    then 1 if there is an intercept.  Without an event column every flag
    is true; without a weights column every weight is 1. *)
Theorem preprocess_sorts_rows_together
        (env : Env) (self : AalenAdditiveFitter) (df : DataFrame)
        (dcol : string) (ecol wcol : option string) (now : string)
        (X : DataFrame) (T : vector) (E : mask) (W : vector) :
  let n := length (values df) in
  valid_names (columns df) dcol ecol wcol ->
  well_formed df ->
  length (index df) = n ->
  _preprocess_dataframe env (set_call self now dcol ecol wcol n) df = Ok (X, T, E, W) ->
  StronglySorted Qle T /\
  exists rows,
    Permutation rows (values df) /\
    T = map (cell_of dcol (columns df)) rows /\
    E = match ecol with
        | Some e => map (fun r => astype_bool (cell_of e (columns df) r)) rows
        | None => repeat true n
        end /\
    W = match wcol with
        | Some w => map (cell_of w (columns df)) rows
        | None => repeat 1 n
        end /\
    values X = map (covariate_row dcol ecol wcol (columns df) (fit_intercept self)) rows.
Proof.
  cbv zeta. intros Hnames Hwf Hl Hp.
  destruct (preprocess_frame env self df dcol ecol wcol now X T E W Hnames Hwf Hp)
    as (df1 & Hs & -> & -> & -> & _ & HX).
  split; [eapply sort_values_sorted; eassumption|].
  destruct Hnames as (Hd & _ & _).
  destruct (position_In _ _ Hd) as [jd Hjd].
  destruct (sort_values_ok _ _ _ Hjd) as (df1' & Hs' & _ & _ & Hperm).
  rewrite Hs in Hs'. inversion Hs'; subst df1'.
  exists (values df1).
  split; [apply Hperm, Hl|]. split; [reflexivity|]. split.
  - destruct ecol as [e|]; cbn [column_or_ones].
    + rewrite map_map. reflexivity.
    + clear. induction (length (values df)); simpl; [reflexivity | f_equal; assumption].
  - split; [destruct wcol; reflexivity | exact HX].
Qed.

Lemma preprocess_sorts_rows_together_witness :
  exists X T E W,
    _preprocess_dataframe Ref.env (set_call Data.default Data.now "T" (Some "E") None 3)
                          Data.df3 = Ok (X, T, E, W) /\
    StronglySorted Qle T /\
    exists rows, Permutation rows (values Data.df3) /\
      values X = map (covariate_row "T" (Some "E") None (columns Data.df3) true) rows.
Proof.
  assert (Hp : exists X T E W,
             _preprocess_dataframe Ref.env
               (set_call Data.default Data.now "T" (Some "E") None 3) Data.df3
             = Ok (X, T, E, W))
    by (do 4 eexists; vm_compute; reflexivity).
  destruct Hp as (X & T & E & W & Hp). exists X, T, E, W. split; [exact Hp|].
  destruct (preprocess_sorts_rows_together
              Ref.env Data.default Data.df3 "T" (Some "E") None Data.now X T E W)
    as (Hsorted & rows & Hperm & _ & _ & _ & HX).
  - names_ok.
  - split; [repeat constructor; simpl; intuition discriminate | repeat constructor].
  - reflexivity.
  - exact Hp.
  - split; [exact Hsorted|]. exists rows. split; [exact Hperm | exact HX].
Defined.

(** ** Labels that are not columns *)

Lemma extract_columns_weights_last (dcol : string) (ecol wcol : option string) (n : nat)
      (df : DataFrame) :
  extract_columns dcol ecol wcol n df =
  bind (extract_columns dcol ecol None n df)
       (fun x => let '(T, E, _, df3) := x in
                 '(W, df4) <- pop_or_ones wcol n df3 ;; Ok (T, E, W, df4)).
Proof.
  unfold extract_columns.
  destruct (pd.sort_values dcol df) as [df1|]; cbn [bind]; [|reflexivity].
  destruct (pd.pop dcol df1) as [[T df2]|]; cbn [bind]; [|reflexivity].
  destruct (pop_or_ones ecol n df2) as [[E df3]|]; cbn [bind pop_or_ones]; reflexivity.
Qed.

(** The first label that is not a column of the frame, the labels being
    looked up in the order duration, event, weights. *)
Lemma extract_columns_missing (dcol : string) (ecol wcol : option string) (n : nat)
      (df : DataFrame) (c : string) :
  (~ In dcol (columns df) /\ c = dcol) \/
  (In dcol (columns df) /\ ecol = Some c /\ ~ In c (columns df)) \/
  (valid_names (columns df) dcol ecol None /\ wcol = Some c /\ ~ In c (columns df)) ->
  extract_columns dcol ecol wcol n df = Raised (KeyError c).
Proof.
  intros [[Hd ->] | [(Hd & -> & Hc) | (Hnames & -> & Hc)]].
  - unfold extract_columns.
    rewrite (sort_values_absent dcol df) by (apply position_None_not_In; assumption).
    reflexivity.
  - destruct (position_In _ _ Hd) as [jd Hjd].
    destruct (sort_values_ok _ _ _ Hjd) as (df1 & Hs & Hc1 & _).
    unfold extract_columns. rewrite Hs. cbn [bind].
    rewrite <- Hc1 in Hjd. rewrite (pop_ok dcol df1 jd Hjd). cbn [bind pop_or_ones].
    rewrite pop_absent; [reflexivity|]. cbn [columns].
    apply position_None_not_In. intros K. apply remove_nth_In in K. congruence.
  - rewrite extract_columns_weights_last.
    destruct (extract_columns_view dcol ecol None n df Hnames)
      as (df1 & g & df3 & _ & _ & -> & _ & (_ & _ & Hsub)).
    cbn [bind pop_or_ones]. rewrite pop_absent; [reflexivity|].
    apply position_None_not_In. intros K. apply Hc, Hsub, K.
Qed.

(** [X3] When the duration label is not a column of the dataset, [fit]
    raises [KeyError] with that label; when it is and the event label is
    not, [KeyError] with the event label; when both are columns and the
    weights label is not, [KeyError] with the weights label.  Nothing has
    been fitted by then and no warning is emitted. *)
Theorem missing_column_raises_key_error
        (env : Env) (self : AalenAdditiveFitter) (df : DataFrame)
        (dcol : string) (ecol wcol : option string) (now : string) (c : string) :
  let o := fit env self df dcol ecol wcol now in
  (~ In dcol (columns df) /\ c = dcol) \/
  (In dcol (columns df) /\ ecol = Some c /\ ~ In c (columns df)) \/
  (valid_names (columns df) dcol ecol None /\ wcol = Some c /\ ~ In c (columns df)) ->
  returned o = Raised (KeyError c) /\ emitted o = [] /\
  after o = set_call self now dcol ecol wcol (length (values df)).
Proof.
  cbv zeta. intros Hmissing.
  assert (Hp : _preprocess_dataframe env
                 (set_call self now dcol ecol wcol (fst (np.shape (values df)))) df
               = Raised (KeyError c)).
  { rewrite (preprocess_eq env (set_call self now dcol ecol wcol _) df
               dcol ecol wcol eq_refl eq_refl eq_refl).
    rewrite (extract_columns_missing dcol ecol wcol _ df c Hmissing). reflexivity. }
  rewrite (fit_preprocess_raises env self df dcol ecol wcol now _ Hp).
  cbn. splits; reflexivity.
Qed.

Lemma missing_column_raises_key_error_witness :
  let o := fit Ref.env Data.default Data.df3 "T" (Some "E") (Some "w") Data.now in
  returned o = Raised (KeyError "w") /\ emitted o = [] /\
  after o = set_call Data.default Data.now "T" (Some "E") (Some "w") 3.
Proof.
  apply (missing_column_raises_key_error
           Ref.env Data.default Data.df3 "T" (Some "E") (Some "w") Data.now "w").
  right. right. split; [names_ok|]. split; [reflexivity|].
  simpl. intros [K|[K|[K|[]]]]; discriminate K.
Defined.

(** ** The intercept column *)

Lemma existsb_eqb_In (c : string) (cols : list string) :
  existsb (String.eqb c) cols = true <-> In c cols.
Proof.
  rewrite existsb_exists. split.
  - intros (x & Hin & Hx). apply String.eqb_eq in Hx. subst. assumption.
  - intros Hin. exists c. split; [assumption | apply String.eqb_refl].
Qed.

(** [X4] The covariate frame that the preprocessing makes of a
    well-formed dataset has the columns of the dataset other than the
    duration, event and weights columns, in their order, and with
    [fit_intercept] one more column after them, labelled "baseline", that
    no column before it has for label.  Its rows are those of the dataset
    in some order: each holds the cells of its row of the dataset under
    the labels of the covariates, unchanged, followed by 1 under
    "baseline"; without [fit_intercept] no cell is added. *)
Theorem preprocess_appends_intercept
        (env : Env) (self : AalenAdditiveFitter) (df : DataFrame)
        (dcol : string) (ecol wcol : option string) (now : string)
        (X : DataFrame) (T : vector) (E : mask) (W : vector) :
  let self1 := set_call self now dcol ecol wcol (length (values df)) in
  let covs := covariate_labels dcol ecol wcol (columns df) in
  valid_names (columns df) dcol ecol wcol ->
  well_formed df ->
  length (index df) = length (values df) ->
  _preprocess_dataframe env self1 df = Ok (X, T, E, W) ->
  columns X = covs ++ (if fit_intercept self then ["baseline"] else []) /\
  (fit_intercept self = true -> ~ In "baseline" covs) /\
  exists rows,
    Permutation rows (values df) /\
    values X = map (fun r => map (fun c => cell_of c (columns df) r) covs
                             ++ (if fit_intercept self then [1] else [])) rows.
Proof.
  cbv zeta. intros Hnames Hwf Hl Hp.
  destruct (preprocess_frame env self df dcol ecol wcol now X T E W Hnames Hwf Hp)
    as (df1 & Hs & _ & _ & _ & HcX & HX).
  split; [exact HcX|]. split.
  - intros Hfi Hb.
    rewrite (preprocess_eq env (set_call self now dcol ecol wcol _) df
               dcol ecol wcol eq_refl eq_refl eq_refl) in Hp.
    destruct (extract_columns dcol ecol wcol _ df) as [[[[T0 E0] W0] df4]|e] eqn:Hx;
      [|discriminate Hp].
    destruct (extract_columns_shape _ _ _ _ _ _ _ _ _ Hwf Hx) as [Hc4 _].
    cbn [bind] in Hp. unfold check_and_cast, raise_if in Hp.
    destruct (check_weights _ wcol W0); [discriminate Hp|].
    destruct (_check_values env df4 T0 E0); [discriminate Hp|].
    change (fit_intercept (set_call self now dcol ecol wcol (length (values df))))
      with (fit_intercept self) in Hp.
    rewrite Hfi in Hp. rewrite <- Hc4 in Hb. apply existsb_eqb_In in Hb.
    rewrite Hb in Hp. discriminate Hp.
  - destruct Hnames as (Hd & _ & _).
    destruct (position_In _ _ Hd) as [jd Hjd].
    destruct (sort_values_ok _ _ _ Hjd) as (df1' & Hs' & _ & _ & Hperm).
    rewrite Hs in Hs'. inversion Hs'; subst df1'.
    exists (values df1). split; [apply Hperm, Hl | exact HX].
Qed.

Lemma preprocess_appends_intercept_witness :
  exists X T E W,
    _preprocess_dataframe Ref.env (set_call Data.default Data.now "T" (Some "E") None 3)
                          Data.df3 = Ok (X, T, E, W) /\
    columns X = ["x"; "baseline"].
Proof.
  assert (Hp : exists X T E W,
             _preprocess_dataframe Ref.env
               (set_call Data.default Data.now "T" (Some "E") None 3) Data.df3
             = Ok (X, T, E, W))
    by (do 4 eexists; vm_compute; reflexivity).
  destruct Hp as (X & T & E & W & Hp).
  destruct (preprocess_appends_intercept
              Ref.env Data.default Data.df3 "T" (Some "E") None Data.now X T E W)
    as (H1 & _ & _).
  - names_ok.
  - split; [repeat constructor; simpl; intuition discriminate | repeat constructor].
  - reflexivity.
  - exact Hp.
  - exists X, T, E, W. split; [exact Hp | exact H1].
Defined.

(** [X5] With [fit_intercept], a dataset that has a covariate column
    labelled "baseline" is refused: when the labels given to [fit] are
    columns, the weights (if any) are positive integers below [2^63]
    ([good_weight]: equal to their cast to [int64]) and the value checks
    pass, [fit] raises [AssertionError] before anything is fitted. *)
Theorem reserved_baseline_column_is_refused
        (env : Env) (self : AalenAdditiveFitter) (df : DataFrame)
        (dcol : string) (ecol wcol : option string) (now : string) :
  let o := fit env self df dcol ecol wcol now in
  fit_intercept self = true ->
  valid_names (columns df) dcol ecol wcol ->
  In "baseline" (columns df) ->
  dcol <> "baseline" -> ecol <> Some "baseline" -> wcol <> Some "baseline" ->
  (forall X T E, _check_values env X T E = None) ->
  match wcol with
  | Some w => Forall (fun r => good_weight (cell_of w (columns df) r)) (values df)
  | None => True
  end ->
  returned o =
    Raised (AssertionError
              "baseline is an internal lifelines column, please rename your column first.") /\
  emitted o = [] /\
  after o = set_call self now dcol ecol wcol (length (values df)).
Proof.
  cbv zeta. intros Hfi Hnames Hb Hbd Hbe Hbw Hchecks Hweights.
  assert (Hp : _preprocess_dataframe env
                 (set_call self now dcol ecol wcol (fst (np.shape (values df)))) df
               = Raised (AssertionError
                   "baseline is an internal lifelines column, please rename your column first.")).
  { rewrite (preprocess_eq env (set_call self now dcol ecol wcol _) df
               dcol ecol wcol eq_refl eq_refl eq_refl).
    destruct (extract_columns_view dcol ecol wcol (length (values df)) df Hnames)
      as (df1 & g & df4 & Hs & Hc1 & Hx & _ & (_ & Hview & _)).
    rewrite Hx. cbn [bind]. unfold check_and_cast. cbv beta iota.
    change (fst (np.shape (values df))) with (length (values df)).
    assert (HW : check_weights (set_call self now dcol ecol wcol (length (values df))) wcol
                   (column_or_ones wcol (columns df) (length (values df)) (values df1))
                 = None).
    { destruct wcol as [w|]; [|reflexivity]. apply check_weights_good.
      cbn [column_or_ones]. rewrite Forall_map. apply Forall_forall. intros r Hr.
      destruct Hnames as (Hd & _ & _). destruct (position_In _ _ Hd) as [jd Hjd].
      destruct (sort_values_ok _ _ _ Hjd) as (df1' & Hs' & _ & Hin & _).
      rewrite Hs in Hs'. inversion Hs'; subst df1'.
      rewrite Forall_forall in Hweights. apply Hweights, Hin, Hr. }
    rewrite HW, Hchecks. cbn [raise_if].
    change (fit_intercept (set_call self now dcol ecol wcol (length (values df))))
      with (fit_intercept self).
    rewrite Hfi.
    assert (Hin4 : In "baseline" (columns df4)).
    { apply Hview; [|assumption].
      destruct wcol as [w|], ecol as [e|]; simpl; intuition congruence. }
    apply existsb_eqb_In in Hin4. rewrite Hin4. reflexivity. }
  rewrite (fit_preprocess_raises env self df dcol ecol wcol now _ Hp).
  cbn. splits; reflexivity.
Qed.

Lemma reserved_baseline_column_is_refused_witness :
  let o := fit Ref.env Data.default Data.df3b "T" (Some "E") None Data.now in
  returned o =
    Raised (AssertionError
              "baseline is an internal lifelines column, please rename your column first.") /\
  emitted o = [] /\
  after o = set_call Data.default Data.now "T" (Some "E") None 3.
Proof.
  apply (reserved_baseline_column_is_refused
           Ref.env Data.default Data.df3b "T" (Some "E") None Data.now).
  - reflexivity.
  - names_ok.
  - simpl. auto.
  - discriminate.
  - discriminate.
  - discriminate.
  - reflexivity.
  - exact I.
Defined.

(** ** Fitting again *)

Lemma fit_keeps_parameters (env : Env) (self : AalenAdditiveFitter) (df : DataFrame)
      (dcol : string) (ecol wcol : option string) (now : string) :
  let self' := after (fit env self df dcol ecol wcol now) in
  fit_intercept self' = fit_intercept self /\ alpha self' = alpha self /\
  coef_penalizer self' = coef_penalizer self /\
  smoothing_penalizer self' = smoothing_penalizer self /\
  robust self' = robust self.
Proof.
  cbv zeta. unfold fit.
  destruct (_preprocess_dataframe _ _ _) as [[[[X T] E] W]|e]; [|splits; reflexivity].
  destruct (_fit_model _ _ _ _ _ _) as [ws [[H V]|e]]; [|splits; reflexivity].
  destruct (predict_cumulative_hazard _ _) as [P|e]; [|splits; reflexivity].
  destruct (rev (curve_values P)); splits; reflexivity.
Qed.

Lemma preprocess_ext (env : Env) (s s' : AalenAdditiveFitter) (df : DataFrame) :
  duration_col s = duration_col s' -> event_col s = event_col s' ->
  weights_col s = weights_col s' -> robust s = robust s' ->
  fit_intercept s = fit_intercept s' ->
  _preprocess_dataframe env s df = _preprocess_dataframe env s' df.
Proof.
  intros H1 H2 H3 H4 H5. unfold _preprocess_dataframe, check_weights.
  rewrite H1, H2, H3, H4, H5. reflexivity.
Qed.

Lemma predict_ext (s s' : AalenAdditiveFitter) (X : covariates) :
  fit_intercept s = fit_intercept s' -> cumulative_hazards_ s = cumulative_hazards_ s' ->
  predict_cumulative_hazard s X = predict_cumulative_hazard s' X.
Proof.
  intros H1 H2. unfold predict_cumulative_hazard. rewrite H1, H2. reflexivity.
Qed.

(** [fit] reads nothing of the fitter but its parameters and [robust]. *)
Lemma fit_ext (env : Env) (self self' : AalenAdditiveFitter) (df : DataFrame)
      (dcol : string) (ecol wcol : option string) (now : string) :
  fit_intercept self = fit_intercept self' -> alpha self = alpha self' ->
  coef_penalizer self = coef_penalizer self' ->
  smoothing_penalizer self = smoothing_penalizer self' ->
  robust self = robust self' ->
  let o := fit env self df dcol ecol wcol now in
  let o' := fit env self' df dcol ecol wcol now in
  returned o = returned o' /\ emitted o = emitted o' /\
  (returned o = Ok tt -> after o = after o').
Proof.
  intros P1 P2 P3 P4 P5. cbv zeta. unfold fit.
  set (n := fst (np.shape (values df))).
  rewrite (preprocess_ext env (set_call self now dcol ecol wcol n)
             (set_call self' now dcol ecol wcol n) df
             eq_refl eq_refl eq_refl P5 P1).
  destruct (_preprocess_dataframe _ _ _) as [[[[X T] E] W]|e];
    [|splits; try reflexivity; discriminate].
  assert (Hs : norm_std env (set_call self now dcol ecol wcol n) X =
               norm_std env (set_call self' now dcol ecol wcol n) X)
    by (unfold norm_std; cbn [fit_intercept set_call]; rewrite P1; reflexivity).
  rewrite Hs. set (s := norm_std env (set_call self' now dcol ecol wcol n) X).
  rewrite (fit_model_ext env (set_data (set_call self now dcol ecol wcol n) T E W s)
             (set_data (set_call self' now dcol ecol wcol n) T E W s)
             (normalize env X 0 s) T E W W P3 P4).
  destruct (_fit_model _ _ _ _ _ _) as [ws [[H V]|e]];
    [|splits; try reflexivity; discriminate].
  cbn [alpha set_data set_call]. rewrite P2.
  set (H' := pd.div_columns H s). set (V' := pd.div_columns V s).
  set (ci := _compute_confidence_intervals env (alpha self') H' V').
  rewrite (predict_ext
             (set_fitted (set_data (set_call self now dcol ecol wcol n) T E W s) H' V' ci)
             (set_fitted (set_data (set_call self' now dcol ecol wcol n) T E W s) H' V' ci)
             (Frame X) P1 eq_refl).
  destruct (predict_cumulative_hazard _ _) as [P|e];
    [|splits; try reflexivity; discriminate].
  destruct (rev (curve_values P)); splits; try reflexivity; try discriminate.
  intros _. unfold set_predicted, set_fitted, set_data, set_call. cbn.
  rewrite P1, P2, P3, P4, P5. reflexivity.
Qed.

(** [X6] A call of [fit] that returns leaves no trace of an earlier call:
    fitting a second dataset after any first one gives the object, the
    warnings and the result that fitting the second dataset alone gives. *)
Theorem successful_fit_replaces_earlier_fit
        (env : Env) (self : AalenAdditiveFitter)
        (df1 : DataFrame) (dcol1 : string) (ecol1 wcol1 : option string) (now1 : string)
        (df2 : DataFrame) (dcol2 : string) (ecol2 wcol2 : option string) (now2 : string) :
  let first := after (fit env self df1 dcol1 ecol1 wcol1 now1) in
  let again := fit env first df2 dcol2 ecol2 wcol2 now2 in
  let alone := fit env self df2 dcol2 ecol2 wcol2 now2 in
  returned alone = Ok tt ->
  after again = after alone /\ emitted again = emitted alone /\ returned again = Ok tt.
Proof.
  cbv zeta. intros Hret.
  destruct (fit_keeps_parameters env self df1 dcol1 ecol1 wcol1 now1)
    as (P1 & P2 & P3 & P4 & P5).
  destruct (fit_ext env self _ df2 dcol2 ecol2 wcol2 now2
              (eq_sym P1) (eq_sym P2) (eq_sym P3) (eq_sym P4) (eq_sym P5))
    as (R1 & R2 & R3).
  splits; [symmetry; apply R3; assumption | symmetry; assumption | congruence].
Qed.

Lemma successful_fit_replaces_earlier_fit_witness :
  let first := after (fit Ref.env Data.default Data.df5 "T" (Some "E") None Data.now) in
  let again := fit Ref.env first Data.df3 "T" (Some "E") None "later" in
  let alone := fit Ref.env Data.default Data.df3 "T" (Some "E") None "later" in
  after again = after alone /\ emitted again = emitted alone /\ returned again = Ok tt.
Proof.
  apply (successful_fit_replaces_earlier_fit
           Ref.env Data.default Data.df5 "T" (Some "E") None Data.now
           Data.df3 "T" (Some "E") None "later").
  vm_compute. reflexivity.
Defined.

(** ** The fitting loop *)

Lemma loop_body_count (env : Env) (self : AalenAdditiveFitter) (n d : nat)
      (T : vector) (E : mask) (s : loop_state) (i : nat) (t : Q) :
  match loop_body env self n d T E s i t with
  | Break s' =>
      (3 * (Z.of_nat d - 1) >= Z.of_nat n - total_observed_exits s)%Z /\
      total_observed_exits s' = total_observed_exits s
  | Next s' =>
      (3 * (Z.of_nat d - 1) < Z.of_nat n - total_observed_exits s)%Z /\
      total_observed_exits s' = (total_observed_exits s + np.count (np.eq_scalar T t))%Z
  | Abort _ _ => True
  end.
Proof.
  unfold loop_body.
  destruct (lr env _ _ _ _ _) as [R|]; [| destruct (ls_V s); [|exact I]];
    destruct (_ >=? _)%Z eqn:Hc; cbn [total_observed_exits]; split;
    try reflexivity; lia.
Qed.

(** [X7] With at most [3 (d - 1)] subjects the loop makes a single pass:
    whatever the number of death times, only the first rows of the two raw
    matrices are written, and every later row is left at zero. *)
Theorem too_few_subjects_single_pass
        (env : Env) (self : AalenAdditiveFitter)
        (X : matrix) (T : vector) (E : mask) (W : vector)
        (ws : list warning) (hz var : matrix) :
  let n := fst (np.shape X) in
  let d := snd (np.shape X) in
  let times := unique_death_times T E in
  (Z.of_nat n <= 3 * (Z.of_nat d - 1))%Z ->
  _fit_model_to_data_batch env self X T E W = (ws, Ok (hz, var)) ->
  (steps_completed env self n d T E 0 times (initial_state X T E) <= 1)%nat /\
  forall k, (1 <= k < length times)%nat ->
    nth k hz [] = np.zeros d /\ nth k var [] = np.zeros d.
Proof.
  cbv zeta. unfold _fit_model_to_data_batch, np.shape. cbn [fst snd].
  set (n := length X). set (d := length (hd [] X)).
  set (times := unique_death_times T E). set (s0 := initial_state X T E).
  intros Hfew Hb.
  assert (Hsteps : (steps_completed env self n d T E 0 times s0 <= 1)%nat).
  { destruct times as [|t rest]; simpl; [lia|].
    pose proof (loop_body_count env self n d T E s0 0 t) as Hc.
    destruct (loop_body env self n d T E s0 0 t) as [s1|s1|e ws1]; [|lia|lia].
    destruct Hc as [Hc _]. unfold s0, initial_state in Hc.
    cbn [total_observed_exits] in Hc. lia. }
  split; [exact Hsteps|].
  intros k Hk.
  pose proof (loop_rows env self n d T E times 0 s0) as L.
  assert (Z0 : nth k (hazards_ s0) [] = np.zeros d /\
               nth k (variance_hazards_ s0) [] = np.zeros d).
  { unfold s0, initial_state. cbn [hazards_ variance_hazards_ np.shape snd].
    fold times d. split; apply nth_zeros2; lia. }
  destruct (loop env self n d T E 0 times s0) as [s'|s'|e ws'];
    inversion Hb; subst;
    destruct L as (_ & _ & L3); destruct (L3 k ltac:(lia)) as [K1 K2];
    rewrite K1, K2; exact Z0.
Qed.

Lemma too_few_subjects_single_pass_witness :
  let X := [[1; 1]; [-1; 1]; [0; 1]] in
  exists ws hz var,
    _fit_model_to_data_batch Ref.env Data.default X [1; 2; 3] [true; true; true] [1; 1; 1]
      = (ws, Ok (hz, var)) /\
    nth 1 hz [] = [0; 0] /\ nth 2 hz [] = [0; 0].
Proof.
  cbv zeta.
  assert (Hb : exists ws hz var,
             _fit_model_to_data_batch Ref.env Data.default [[1; 1]; [-1; 1]; [0; 1]]
               [1; 2; 3] [true; true; true] [1; 1; 1] = (ws, Ok (hz, var)))
    by (do 3 eexists; vm_compute; reflexivity).
  destruct Hb as (ws & hz & var & Hb). exists ws, hz, var. split; [exact Hb|].
  destruct (too_few_subjects_single_pass Ref.env Data.default
              [[1; 1]; [-1; 1]; [0; 1]] [1; 2; 3] [true; true; true] [1; 1; 1] ws hz var
              ltac:(simpl; lia) Hb) as [_ Hz].
  split; [apply (Hz 1%nat) | apply (Hz 2%nat)]; simpl; lia.
Defined.

Lemma nth_eq_scalar (T : vector) (t : Q) (i : nat) :
  (i < length T)%nat -> nth i (np.eq_scalar T t) false = Qeq_bool (nth i T 0) t.
Proof.
  intros Hi. unfold np.eq_scalar.
  rewrite (nth_indep _ false (Qeq_bool 0 t)) by (rewrite length_map; assumption).
  apply (map_nth (fun x => Qeq_bool x t)).
Qed.

Lemma nth_zero_rows (X : matrix) : forall (m : mask) (i : nat),
  nth i (np.zero_rows X m) [] =
  if nth i m false then map (fun _ => 0) (nth i X []) else nth i X [].
Proof.
  induction X as [|r X IH]; intros m i.
  - destruct m as [|b m], i as [|i]; simpl; try reflexivity;
      match goal with |- _ = (if ?c then _ else _) => destruct c; reflexivity end.
  - destruct m as [|b m].
    + destruct i; reflexivity.
    + destruct i as [|i]; [reflexivity | exact (IH m i)].
Qed.

Lemma In_firstn_In {A : Type} (x : A) : forall (k : nat) (l : list A),
  In x (firstn k l) -> In x l.
Proof.
  induction k as [|k IH]; intros [|y l]; simpl; try tauto.
  intros [->|H]; [left; reflexivity | right; apply IH; assumption].
Qed.

(** The rows of the design matrix at the end of the loop. *)
Lemma loop_X (env : Env) (self : AalenAdditiveFitter) (n d : nat)
      (T : vector) (E : mask) (times : vector) : forall (i0 : nat) (s : loop_state),
  match loop env self n d T E i0 times s with
  | Abort _ _ => True
  | Next s' | Break s' =>
      forall i, (i < length T)%nat ->
        nth i (ls_X s') [] =
        if existsb (Qeq_bool (nth i T 0))
                   (firstn (steps_completed env self n d T E i0 times s) times)
        then map (fun _ => 0) (nth i (ls_X s) [])
        else nth i (ls_X s) []
  end.
Proof.
  induction times as [|t times IH]; intros i0 s; simpl; [reflexivity|].
  pose proof (loop_body_inv env self n d T E s i0 t) as Hb; cbv zeta in Hb.
  destruct (loop_body env self n d T E s i0 t) as [s1|s1|e ws]; [| | exact I].
  - destruct Hb as (Vm & _ & _ & _ & _ & HX & _).
    specialize (IH (S i0) s1).
    destruct (loop env self n d T E (S i0) times s1) as [s2|s2|]; [| | exact I];
      intros i Hi; rewrite (IH i Hi), HX, nth_zero_rows, (nth_eq_scalar T t i Hi);
      cbn [firstn existsb];
      destruct (Qeq_bool (nth i T 0) t), (existsb _ _); cbn [orb];
      rewrite ?map_map; reflexivity.
  - destruct Hb as (Vm & _ & _ & _ & _ & HX & _).
    intros i Hi. rewrite HX, nth_zero_rows, (nth_eq_scalar T t i Hi).
    cbn [firstn existsb]. destruct (Qeq_bool (nth i T 0) t); reflexivity.
Qed.

(** [X8] When the loop ends, the row of a subject in the design matrix is
    zero if the subject's duration is one of the death times that were
    visited, and untouched otherwise.  In particular a subject whose
    duration is not a death time (a censoring between two deaths) is never
    taken out of the regressions. *)
Theorem exited_subjects_are_zeroed
        (env : Env) (self : AalenAdditiveFitter)
        (X : matrix) (T : vector) (E : mask) (i : nat) :
  let n := fst (np.shape X) in
  let d := snd (np.shape X) in
  let times := unique_death_times T E in
  let s0 := initial_state X T E in
  let visited := firstn (steps_completed env self n d T E 0 times s0) times in
  (i < length T)%nat ->
  match loop env self n d T E 0 times s0 with
  | Abort _ _ => True
  | Next s' | Break s' =>
      nth i (ls_X s') [] =
        (if existsb (Qeq_bool (nth i T 0)) visited
         then map (fun _ => 0) (nth i X []) else nth i X []) /\
      ((forall t, In t times -> ~ nth i T 0 == t) -> nth i (ls_X s') [] = nth i X [])
  end.
Proof.
  cbv zeta. intros Hi.
  pose proof (loop_X env self (fst (np.shape X)) (snd (np.shape X)) T E
                (unique_death_times T E) 0 (initial_state X T E)) as L.
  destruct (loop env self _ _ T E 0 _ _) as [s'|s'|e ws]; [| | exact I];
    (split; [exact (L i Hi)|]); intros Hno; rewrite (L i Hi);
    match goal with
    | |- (if ?b then _ else _) = _ => destruct b eqn:Hex; [|reflexivity]
    end;
    apply existsb_exists in Hex; destruct Hex as (t & Hin & Ht);
    apply Qeq_bool_iff in Ht; exfalso; (apply (Hno t); [|assumption]);
    eapply In_firstn_In; eassumption.
Qed.

Lemma exited_subjects_are_zeroed_witness :
  let X := [[0; 1]; [1; 1]; [-1; 1]; [1; 1]; [-1; 1]; [2; 1]] in
  let T := [1; 2; 5 # 2; 3; 4; 5] in
  let E := [true; true; false; true; true; true] in
  match loop Ref.env Data.default 6 2 T E 0 (unique_death_times T E) (initial_state X T E) with
  | Abort _ _ => True
  | Next s' | Break s' => nth 2 (ls_X s') [] = [-1; 1] /\ nth 1 (ls_X s') [] = [0; 0]
  end.
Proof.
  cbv zeta.
  pose proof (exited_subjects_are_zeroed Ref.env Data.default
                [[0; 1]; [1; 1]; [-1; 1]; [1; 1]; [-1; 1]; [2; 1]]
                [1; 2; 5 # 2; 3; 4; 5] [true; true; false; true; true; true] 2
                ltac:(simpl; lia)) as H2.
  pose proof (exited_subjects_are_zeroed Ref.env Data.default
                [[0; 1]; [1; 1]; [-1; 1]; [1; 1]; [-1; 1]; [2; 1]]
                [1; 2; 5 # 2; 3; 4; 5] [true; true; false; true; true; true] 1
                ltac:(simpl; lia)) as H1.
  cbv zeta in H1, H2. unfold np.shape in H1, H2. cbn [fst snd length hd] in H1, H2.
  destruct (loop Ref.env Data.default 6 2 _ _ 0 _ _) as [s'|s'|e ws] eqn:Hl; [| | exact I].
  - destruct H2 as [H2 _]. destruct H1 as [H1 _]. rewrite H2, H1.
    split; vm_compute; reflexivity.
  - destruct H2 as [H2 _]. destruct H1 as [H1 _]. rewrite H2, H1.
    split; vm_compute; reflexivity.
Defined.

Lemma loop_warnings (env : Env) (self : AalenAdditiveFitter) (n d : nat)
      (T : vector) (E : mask) (times : vector) : forall (i0 : nat) (s : loop_state),
  let named := fun w => exists k, (k < length times)%nat /\
                                  w = ConvergenceWarning (i0 + k) (nth k times 0) in
  exists new,
    Forall named new /\
    match loop env self n d T E i0 times s with
    | Next s' | Break s' => ls_warnings s' = ls_warnings s ++ new
    | Abort _ ws => ws = ls_warnings s ++ new
    end.
Proof.
  induction times as [|t times IH]; intros i0 s; cbv zeta; simpl.
  - exists []. split; [constructor | rewrite app_nil_r; reflexivity].
  - pose proof (loop_body_inv env self n d T E s i0 t) as Hb; cbv zeta in Hb.
    assert (Hhere : forall ws,
               ws = match lr env (ls_X s) (np.logical_and (np.eq_scalar T t) E)
                                (coef_penalizer self) (smoothing_penalizer self) (ls_v s) with
                    | Some _ => ls_warnings s
                    | None => ls_warnings s ++ [ConvergenceWarning i0 t]
                    end ->
               exists new0, ws = ls_warnings s ++ new0 /\
                 Forall (fun w => exists k, (k < S (length times))%nat /\
                           w = ConvergenceWarning (i0 + k) (nth k (t :: times) 0)) new0).
    { intros ws ->. destruct (lr env _ _ _ _ _).
      - exists []. split; [rewrite app_nil_r; reflexivity | constructor].
      - exists [ConvergenceWarning i0 t]. split; [reflexivity|].
        constructor; [|constructor]. exists 0%nat. rewrite Nat.add_0_r. split; [lia | reflexivity]. }
    destruct (loop_body env self n d T E s i0 t) as [s1|s1|e ws].
    + destruct Hb as (Vm & _ & _ & _ & Hw & _).
      destruct (Hhere _ Hw) as (new0 & Hw0 & F0).
      destruct (IH (S i0) s1) as (new1 & F1 & Hl). cbv zeta in F1.
      exists (new0 ++ new1). split.
      * apply Forall_app. split; [exact F0|].
        eapply Forall_impl; [|exact F1]. intros w (k & Hk & ->).
        exists (S k). split; [lia|]. replace (i0 + S k)%nat with (S i0 + k)%nat by lia.
        reflexivity.
      * destruct (loop env self n d T E (S i0) times s1);
          rewrite Hl, Hw0, app_assoc; reflexivity.
    + destruct Hb as (Vm & _ & _ & _ & Hw & _).
      destruct (Hhere _ Hw) as (new0 & Hw0 & F0). exists new0. auto.
    + destruct Hb as (_ & _ & Hw).
      destruct (Hhere _ Hw) as (new0 & Hw0 & F0). exists new0. auto.
Qed.

(** [X9] Whether the fitting loop returns or raises, every
    [ConvergenceWarning] that it emits carries the index of a pass and the
    death time at that index.  (The warnings that the solver may emit on
    its own account are not among the warnings of this model, which are
    those of the class.) *)
Theorem warnings_name_a_death_time
        (env : Env) (self : AalenAdditiveFitter)
        (X : matrix) (T : vector) (E : mask) (W : vector) :
  let times := unique_death_times T E in
  Forall (fun w => match w with
                   | ConvergenceWarning i t => (i < length times)%nat /\ t = nth i times 0
                   | StatisticalWarning => True
                   end)
         (fst (_fit_model_to_data_batch env self X T E W)).
Proof.
  cbv zeta. unfold _fit_model_to_data_batch, np.shape. cbv beta iota.
  destruct (loop_warnings env self (length X) (length (hd [] X)) T E
              (unique_death_times T E) 0 (initial_state X T E)) as (new & F & Hl).
  cbv zeta in F. cbn [Nat.add] in F.
  assert (F' : Forall (fun w => match w with
                                | ConvergenceWarning i t =>
                                    (i < length (unique_death_times T E))%nat /\
                                    t = nth i (unique_death_times T E) 0
                                | StatisticalWarning => True
                                end) new).
  { eapply Forall_impl; [|exact F]. intros w (k & Hk & ->). split; [exact Hk | reflexivity]. }
  destruct (loop env self _ _ T E 0 _ _) as [s'|s'|e ws]; cbn [fst];
    rewrite Hl; exact F'.
Qed.

(** ** Prediction *)

Lemma positions_by_name (cols order : list string) :
  (forall c, In c order -> In c cols) ->
  exists js, pd.positions order cols = Ok js /\
    forall r : vector, map (fun j => nth j r 0) js = map (fun c => cell_of c cols r) order.
Proof.
  induction order as [|c order IH]; intros Hin.
  - exists []. split; [reflexivity | intros r; reflexivity].
  - destruct IH as (js & Hjs & Hr); [intros c' Hc'; apply Hin; right; assumption|].
    destruct (position_In c cols (Hin c (or_introl eq_refl))) as [j Hj].
    exists (j :: js). split.
    + simpl. rewrite Hj, Hjs. reflexivity.
    + intros r. simpl. rewrite Hr. unfold cell_of at 2. rewrite Hj. reflexivity.
Qed.

Lemma select_by_name (order : list string) (df : DataFrame) :
  (forall c, In c order -> In c (columns df)) ->
  pd.select order df =
  Ok (map (fun r => map (fun c => cell_of c (columns df) r) order) (values df)).
Proof.
  intros Hin. destruct (positions_by_name (columns df) order Hin) as (js & Hjs & Hr).
  unfold pd.select. rewrite Hjs. f_equal. apply map_ext. exact Hr.
Qed.

Lemma positions_missing (cols order : list string) :
  Exists (fun c => ~ In c cols) order ->
  exists c, In c order /\ ~ In c cols /\ pd.positions order cols = Raised (KeyError c).
Proof.
  induction order as [|c order IH]; intros Hex; [inversion Hex|].
  simpl. destruct (pd.position c cols) as [j|] eqn:Hj.
  - assert (Hrest : Exists (fun c => ~ In c cols) order).
    { inversion Hex as [? ? Hc|]; subst; [|assumption].
      exfalso. apply Hc. eapply position_Some_In. eassumption. }
    destruct (IH Hrest) as (c' & Hin & Hno & Hp).
    exists c'. rewrite Hp. auto.
  - exists c. apply position_None_not_In in Hj. auto.
Qed.

Lemma map_Forall2_ext {A B : Type} (f f' : A -> B) (l l' : list A) :
  Forall2 (fun x x' => f x = f' x') l l' -> map f l = map f' l'.
Proof. induction 1; simpl; [reflexivity | f_equal; assumption]. Qed.

(** [X10] The prediction for a frame reads the covariates by their names
    and nothing else: two frames with distinct column labels that hold
    the same cells under the names of the fitted model, row by row, get
    the same cumulative hazards and the same survival curves, whatever
    the order of their columns and whatever other columns they have. *)
Theorem prediction_reads_columns_by_name
        (self : AalenAdditiveFitter) (H df df' : DataFrame) :
  cumulative_hazards_ self = Some H ->
  NoDup (columns df) -> NoDup (columns df') ->
  (forall c, In c (expected_columns self H) -> In c (columns df) /\ In c (columns df')) ->
  Forall2 (fun r r' => forall c, In c (expected_columns self H) ->
                                 cell_of c (columns df) r = cell_of c (columns df') r')
          (values df) (values df') ->
  predict_cumulative_hazard self (Frame df) = predict_cumulative_hazard self (Frame df') /\
  predict_survival_function self (Frame df) = predict_survival_function self (Frame df').
Proof.
  intros HH _ _ Hin Hrows.
  assert (Hs : pd.select (expected_columns self H) df
               = pd.select (expected_columns self H) df').
  { rewrite (select_by_name _ df) by (intros c Hc; apply Hin; assumption).
    rewrite (select_by_name _ df') by (intros c Hc; apply Hin; assumption).
    f_equal. apply map_Forall2_ext.
    eapply Forall2_impl; [|exact Hrows]. intros r r' Hr. simpl.
    apply map_ext_in. exact Hr. }
  assert (Hc : predict_cumulative_hazard self (Frame df)
               = predict_cumulative_hazard self (Frame df')).
  { unfold predict_cumulative_hazard. rewrite HH. cbn [attribute bind].
    unfold expected_columns in Hs. unfold drop_label.
    destruct (fit_intercept self).
    - destruct (existsb (String.eqb "baseline") (columns H)); [|reflexivity].
      cbn [bind]. rewrite Hs. reflexivity.
    - cbn [bind]. rewrite Hs. reflexivity. }
  split; [exact Hc|]. unfold predict_survival_function. rewrite Hc. reflexivity.
Qed.

Lemma prediction_reads_columns_by_name_witness :
  let self := after (fit Ref.env Data.default Data.df5 "T" (Some "E") None Data.now) in
  let df := mkDataFrame ["x"] [0; 1] [[1]; [-2]] in
  let df' := mkDataFrame ["age"; "x"] [7; 8] [[30; 1]; [40; -2]] in
  predict_cumulative_hazard self (Frame df) = predict_cumulative_hazard self (Frame df') /\
  predict_survival_function self (Frame df) = predict_survival_function self (Frame df').
Proof.
  cbv zeta.
  eapply prediction_reads_columns_by_name.
  - vm_compute. reflexivity.
  - repeat constructor; simpl; intuition discriminate.
  - repeat constructor; simpl; intuition discriminate.
  - intros c Hc. vm_compute in Hc. destruct Hc as [<-|[]]. simpl. auto.
  - repeat constructor; intros c Hc; vm_compute in Hc; destruct Hc as [<-|[]]; reflexivity.
Defined.

Lemma forallb_false_Exists {A : Type} (f : A -> bool) (l : list A) :
  forallb f l = false -> Exists (fun x => f x = false) l.
Proof.
  induction l as [|x l IH]; simpl; [discriminate|].
  destruct (f x) eqn:Hx; simpl; intros H; [right; apply IH; assumption | left; assumption].
Qed.

(** [X11] A frame that lacks one of the covariates of the fitted model
    makes the prediction raise [KeyError] on a label that it lacks. *)
Theorem prediction_missing_covariate
        (self : AalenAdditiveFitter) (H df : DataFrame) :
  cumulative_hazards_ self = Some H ->
  (fit_intercept self = true -> In "baseline" (columns H)) ->
  Exists (fun c => ~ In c (columns df)) (expected_columns self H) ->
  exists c, In c (expected_columns self H) /\ ~ In c (columns df) /\
    predict_cumulative_hazard self (Frame df) = Raised (KeyError c) /\
    predict_survival_function self (Frame df) = Raised (KeyError c).
Proof.
  intros HH Hb Hex.
  destruct (positions_missing (columns df) _ Hex) as (c & Hin & Hno & Hp).
  exists c. split; [assumption|]. split; [assumption|].
  assert (Hc : predict_cumulative_hazard self (Frame df) = Raised (KeyError c)).
  { unfold predict_cumulative_hazard. rewrite HH. cbn [attribute bind].
    unfold expected_columns in Hp. unfold drop_label, pd.select.
    destruct (fit_intercept self).
    - apply existsb_eqb_In in Hb; [|reflexivity]. rewrite Hb. cbn [bind].
      rewrite Hp. reflexivity.
    - cbn [bind]. rewrite Hp. reflexivity. }
  split; [exact Hc|]. unfold predict_survival_function. rewrite Hc. reflexivity.
Qed.

Lemma prediction_missing_covariate_witness :
  let self := after (fit Ref.env Data.default Data.df5 "T" (Some "E") None Data.now) in
  let df := mkDataFrame ["age"] [0; 1] [[30]; [40]] in
  predict_cumulative_hazard self (Frame df) = Raised (KeyError "x").
Proof.
  cbv zeta.
  epose proof (prediction_missing_covariate
                 (after (fit Ref.env Data.default Data.df5 "T" (Some "E") None Data.now))
                 _ (mkDataFrame ["age"] [0; 1] [[30]; [40]])
                 ltac:(vm_compute; reflexivity)) as P.
  destruct P as (c & Hin & _ & Hc & _).
  - intros _. vm_compute. auto.
  - vm_compute. left. intros [K|[]]; discriminate K.
  - rewrite Hc. vm_compute in Hin. destruct Hin as [<-|[]]. reflexivity.
Defined.

(** [X12] On a 2-d array with at least one row, the prediction returns
    when every row has as many cells as the fitted model has covariates
    (the intercept left out): then the curves are over the time index of
    the model, one row per time and one column per row of the array.
    Otherwise it raises [ValueError]. *)
Theorem predict_array_shape
        (self : AalenAdditiveFitter) (H : DataFrame) (a : matrix) :
  cumulative_hazards_ self = Some H ->
  a <> [] ->
  let fits := fun r : vector =>
    (length r + intercept_width self)%nat = length (columns H) in
  match predict_cumulative_hazard self (Array a) with
  | Ok C =>
      Forall fits a /\ timeline C = index H /\
      length (curve_values C) = length (values H) /\
      Forall (fun row => length row = length a) (curve_values C)
  | Raised e =>
      e = ValueError "shapes not aligned" /\ Exists (fun r => ~ fits r) a
  end.
Proof.
  intros HH _. cbv zeta. unfold predict_cumulative_hazard, intercept_width.
  rewrite HH. cbn [attribute bind]. unfold dot_transposed.
  destruct (forallb _ _) eqn:Hf; cbn [bind].
  - rewrite forallb_forall in Hf. cbn [timeline curve_values].
    rewrite length_map. splits; try reflexivity.
    + apply Forall_forall. intros r Hr. destruct (fit_intercept self).
      * specialize (Hf (r ++ [1]) (in_map _ _ _ Hr)).
        apply Nat.eqb_eq in Hf. rewrite length_app in Hf. exact Hf.
      * specialize (Hf r Hr). apply Nat.eqb_eq in Hf. lia.
    + apply Forall_forall. intros row Hrow. apply in_map_iff in Hrow.
      destruct Hrow as (h & <- & _). rewrite length_map.
      destruct (fit_intercept self); [apply length_map | reflexivity].
  - split; [reflexivity|]. apply forallb_false_Exists in Hf.
    destruct (fit_intercept self).
    + apply Exists_exists in Hf. destruct Hf as (r' & Hin & Hr').
      apply in_map_iff in Hin. destruct Hin as (r & <- & Hin).
      apply Exists_exists. exists r. split; [assumption|].
      apply Nat.eqb_neq in Hr'. rewrite length_app in Hr'. exact Hr'.
    + eapply Exists_impl; [|exact Hf]. intros r Hr. apply Nat.eqb_neq in Hr. lia.
Qed.

Lemma predict_array_shape_witness :
  let self := after (fit Ref.env Data.default Data.df5 "T" (Some "E") None Data.now) in
  match predict_cumulative_hazard self (Array [[1]; [-2]; [0]]) with
  | Ok C => length (curve_values C) = length (timeline C) /\
            Forall (fun row => length row = 3%nat) (curve_values C)
  | Raised e => False
  end.
Proof.
  cbv zeta.
  epose proof (predict_array_shape
                 (after (fit Ref.env Data.default Data.df5 "T" (Some "E") None Data.now))
                 _ [[1]; [-2]; [0]] ltac:(vm_compute; reflexivity)
                 ltac:(discriminate)) as P.
  cbv zeta in P.
  destruct (predict_cumulative_hazard _ _) as [C|e] eqn:HC.
  - destruct P as (_ & Ht & Hl & Hw). rewrite Ht, Hl. split; [vm_compute; reflexivity | exact Hw].
  - vm_compute in HC. discriminate HC.
Defined.

(** ** [score_] and [smoothed_hazards_] *)

Lemma fit_failure_keeps_predicted (env : Env) (self : AalenAdditiveFitter) (df : DataFrame)
      (dcol : string) (ecol wcol : option string) (now : string) :
  returned (fit env self df dcol ecol wcol now) <> Ok tt ->
  _predicted_hazards_ (after (fit env self df dcol ecol wcol now)) = _predicted_hazards_ self.
Proof.
  unfold fit.
  destruct (_preprocess_dataframe _ _ _) as [[[[X T] E] W]|e]; [|reflexivity].
  destruct (_fit_model _ _ _ _ _ _) as [ws [[H V]|e]]; [|reflexivity].
  destruct (predict_cumulative_hazard _ _) as [P|e]; [|reflexivity].
  destruct (rev (curve_values P)); [reflexivity|].
  cbn [returned]. intros K. exfalso. apply K. reflexivity.
Qed.

Lemma score_ok_inv (ci : vector -> vector -> mask -> result Q) (o o1 : Obj.t) (c : Q) :
  score_ ci o = (o1, Ok c) ->
  _predicted_hazards_ (Obj.fitter o1) = None /\ Obj._concordance_score_ o1 = Some c.
Proof.
  unfold score_. destruct (_predicted_hazards_ (Obj.fitter o)) as [p|] eqn:Hp.
  - destruct (bind _ _) as [c0|e]; intros K; inversion K; subst. split; reflexivity.
  - intros K. inversion K; subst o1. split; [assumption|].
    destruct (Obj._concordance_score_ o); simpl in *; congruence.
Qed.

Lemma score_of_cached (ci : vector -> vector -> mask -> result Q) (o : Obj.t) (c : Q) :
  _predicted_hazards_ (Obj.fitter o) = None -> Obj._concordance_score_ o = Some c ->
  score_ ci o = (o, Ok c).
Proof. intros Hp Hc. unfold score_. rewrite Hp, Hc. reflexivity. Qed.

(** [X13] Once [score_] has returned a score, the predictions it was
    computed from are gone, and every later read returns that score
    without calling [concordance_index] and without changing the object. *)
Theorem score_is_cached
        (ci : vector -> vector -> mask -> result Q) (o o1 : Obj.t) (c : Q) :
  score_ ci o = (o1, Ok c) ->
  _predicted_hazards_ (Obj.fitter o1) = None /\
  forall ci', score_ ci' o1 = (o1, Ok c).
Proof.
  intros Hs. destruct (score_ok_inv ci o o1 c Hs) as [Hp Hc].
  split; [assumption|]. intros ci'. apply score_of_cached; assumption.
Qed.

Lemma score_is_cached_witness :
  let ci := fun (_ _ : vector) (_ : mask) => Ok (3 # 4) in
  let o := fit_object Ref.env (Obj.mk Data.default None None)
                      Data.df5 "T" (Some "E") None Data.now in
  let o1 := fst (score_ ci o) in
  score_ (fun _ _ _ => Raised TypeError) o1 = (o1, Ok (3 # 4)).
Proof.
  cbv zeta.
  apply (score_is_cached (fun _ _ _ => Ok (3 # 4))
           (fit_object Ref.env (Obj.mk Data.default None None)
                       Data.df5 "T" (Some "E") None Data.now)).
  vm_compute. reflexivity.
Defined.

(** [X14] A call of [fit] that raises does not refresh the score: after
    it, [score_] still returns the score of the earlier fit. *)
Theorem failed_refit_keeps_earlier_score
        (env : Env) (ci : vector -> vector -> mask -> result Q) (o o1 : Obj.t) (c : Q)
        (df : DataFrame) (dcol : string) (ecol wcol : option string) (now : string) :
  score_ ci o = (o1, Ok c) ->
  returned (fit env (Obj.fitter o1) df dcol ecol wcol now) <> Ok tt ->
  forall ci',
    let o2 := fit_object env o1 df dcol ecol wcol now in
    score_ ci' o2 = (o2, Ok c).
Proof.
  intros Hs Hr ci'. cbv zeta. destruct (score_ok_inv ci o o1 c Hs) as [Hp Hc].
  apply score_of_cached.
  - unfold fit_object. cbn [Obj.fitter].
    rewrite (fit_failure_keeps_predicted env _ df dcol ecol wcol now Hr). exact Hp.
  - exact Hc.
Qed.

Lemma failed_refit_keeps_earlier_score_witness :
  let ci := fun (_ _ : vector) (_ : mask) => Ok (3 # 4) in
  let o := fit_object Ref.env (Obj.mk Data.default None None)
                      Data.df5 "T" (Some "E") None Data.now in
  let o1 := fst (score_ ci o) in
  let o2 := fit_object Ref.env o1 Data.df3c "T" (Some "E") None Data.now in
  durations (Obj.fitter o2) = Some [1; 2; 3] /\
  score_ (fun _ _ _ => Ok (1 # 4)) o2 = (o2, Ok (3 # 4)).
Proof.
  cbv zeta. split; [vm_compute; reflexivity|].
  apply (failed_refit_keeps_earlier_score Ref.env (fun _ _ _ => Ok (3 # 4))
           (fit_object Ref.env (Obj.mk Data.default None None)
                       Data.df5 "T" (Some "E") None Data.now)).
  - vm_compute. reflexivity.
  - vm_compute. discriminate.
Defined.

Lemma reachable_no_hazards (env : Env) (ci : vector -> vector -> mask -> result Q)
      (o : Obj.t) :
  reachable_object env ci o -> Obj.hazards_ o = None.
Proof.
  induction 1 as [fi a c1 c2 o Hn | o df dcol ecol wcol now Hr IH | o Hr IH].
  - unfold new_object in Hn. destruct (new fi a c1 c2); simpl in Hn; [|discriminate].
    inversion Hn. reflexivity.
  - exact IH.
  - unfold score_. destruct (_predicted_hazards_ _); [|exact IH].
    destruct (bind _ _); exact IH.
Qed.

(** [X15] On an object that the class has built by its own methods,
    [smoothed_hazards_] never returns: no method assigns the attribute
    [hazards_] that it reads.  When the model is fitted and the kernel is
    computed, the exception is the [AttributeError] of that read. *)
Theorem smoothed_hazards_never_returns
        (env : Env) (ci : vector -> vector -> mask -> result Q) (o : Obj.t)
        (kernel : vector -> Q -> result matrix) (bandwidth : Q) :
  reachable_object env ci o ->
  match smoothed_hazards_ kernel o bandwidth with
  | Ok _ => False
  | Raised e =>
      forall H K, cumulative_hazards_ (Obj.fitter o) = Some H ->
                  kernel (index H) bandwidth = Ok K ->
                  e = AttributeError "hazards_"
  end.
Proof.
  intros Hr. apply reachable_no_hazards in Hr. unfold smoothed_hazards_. rewrite Hr.
  destruct (cumulative_hazards_ (Obj.fitter o)) as [H|]; cbn [attribute bind].
  - destruct (kernel (index H) bandwidth) as [K|e] eqn:HK; cbn [bind].
    + intros H' K' _ _. reflexivity.
    + intros H' K' HH HK'. inversion HH; subst H'. congruence.
  - intros H K HH. discriminate HH.
Qed.

Lemma smoothed_hazards_never_returns_witness :
  let o := fit_object Ref.env (Obj.mk Data.default None None)
                      Data.df5 "T" (Some "E") None Data.now in
  smoothed_hazards_ (fun _ _ => Ok []) o 1 = Raised (AttributeError "hazards_").
Proof.
  cbv zeta.
  pose proof (smoothed_hazards_never_returns Ref.env (fun _ _ _ => Ok (3 # 4))
                (fit_object Ref.env (Obj.mk Data.default None None)
                            Data.df5 "T" (Some "E") None Data.now)
                (fun _ _ => Ok []) 1
                (reach_fit_object _ _ _ _ _ _ _ _
                   (reach_new_object _ _ true (95 # 100) 0 0 _ eq_refl))) as P.
  destruct (smoothed_hazards_ _ _ _) as [d|e]; [contradiction|].
  f_equal. eapply P; vm_compute; reflexivity.
Defined.

(** ** The state after a call of [fit] that returns *)

Lemma fit_model_frames (env : Env) (self : AalenAdditiveFitter)
      (X : DataFrame) (T : vector) (E : mask) (W : vector)
      (ws : list warning) (H V : DataFrame) :
  _fit_model env self X T E W = (ws, Ok (H, V)) ->
  let times := unique_death_times T E in
  index H = times /\ index V = times /\
  columns H = columns X /\ columns V = columns X /\
  length (values H) = length times /\ length (values V) = length times.
Proof.
  unfold _fit_model, _fit_model_to_data_batch, np.shape. cbv zeta iota beta.
  fold (unique_death_times T E).
  pose proof (loop_rows env self (length (values X)) (length (hd [] (values X))) T E
                (unique_death_times T E) 0 (initial_state (values X) T E)) as L.
  destruct (loop env self _ _ T E 0 _ _) as [s'|s'|e ws'];
    intros Heq; inversion Heq; subst; clear Heq; simpl;
    destruct L as (L1 & L2 & _);
    rewrite !cumsum_length, L1, L2; unfold initial_state; simpl;
    rewrite !zeros2_length; splits; reflexivity.
Qed.

Lemma frame_map2_length (f : Q -> Q -> Q) (A B : DataFrame) :
  length (values A) = length (values B) ->
  length (values (frame_map2 f A B)) = length (values A).
Proof.
  intros Hl. unfold frame_map2. cbn [values]. rewrite length_map, length_combine. lia.
Qed.

Lemma fit_frames (env : Env) (self : AalenAdditiveFitter) (df : DataFrame)
      (dcol : string) (ecol wcol : option string) (now : string) :
  let o := fit env self df dcol ecol wcol now in
  returned o = Ok tt ->
  exists T E H V p,
    durations (after o) = Some T /\ event_observed (after o) = Some E /\
    cumulative_hazards_ (after o) = Some H /\ cumulative_variance_ (after o) = Some V /\
    confidence_intervals_ (after o)
      = Some (_compute_confidence_intervals env (alpha self) H V) /\
    _predicted_hazards_ (after o) = Some p /\
    index H = unique_death_times T E /\ index V = index H /\ columns V = columns H /\
    length (values H) = length (index H) /\ length (values V) = length (index H) /\
    index H <> [].
Proof.
  cbv zeta. intros Hr.
  destruct (fit_inv env self df dcol ecol wcol now Hr)
    as (X & T & E & W & H & V & p & Hp & Hf & Ha).
  cbv zeta in Hf, Ha.
  destruct (fit_model_frames _ _ _ _ _ _ _ _ _ Hf) as (I1 & I2 & C1 & C2 & L1 & L2).
  destruct (fit_after_fit_model env self df dcol ecol wcol now X T E W _ H V Hp Hf)
    as (_ & _ & _ & Hne).
  exists T, E, (pd.div_columns H (norm_std env (set_call self now dcol ecol wcol
                                                  (fst (np.shape (values df)))) X)),
    (pd.div_columns V (norm_std env (set_call self now dcol ecol wcol
                                        (fst (np.shape (values df)))) X)), p.
  rewrite Ha. simpl. rewrite !length_map, I1.
  splits; try reflexivity; try assumption.
  - rewrite C1. exact C2.
  - intros Hnil. apply Hne; [|exact Hr].
    apply length_zero_iff_nil.
    transitivity (length (unique_death_times T E)); [exact L1 | rewrite Hnil; reflexivity].
Qed.

(** [X16] After a call of [fit] that returns, every attribute of the
    fitted model is set; the time index of [cumulative_hazards_] is the
    list of the distinct death times of the stored durations, not empty
    and strictly increasing; and the variance frame and the two
    confidence bounds have the index, the columns and the number of rows
    of [cumulative_hazards_], one row per death time. *)
Theorem successful_fit_postconditions
        (env : Env) (self : AalenAdditiveFitter) (df : DataFrame)
        (dcol : string) (ecol wcol : option string) (now : string) :
  let o := fit env self df dcol ecol wcol now in
  returned o = Ok tt ->
  exists T E H V lo up p,
    durations (after o) = Some T /\ event_observed (after o) = Some E /\
    cumulative_hazards_ (after o) = Some H /\ cumulative_variance_ (after o) = Some V /\
    confidence_intervals_ (after o) = Some (lo, up) /\
    _predicted_hazards_ (after o) = Some p /\
    index H = unique_death_times T E /\ index H <> [] /\ StronglySorted Qlt (index H) /\
    length (values H) = length (index H) /\
    Forall (fun F => index F = index H /\ columns F = columns H /\
                     length (values F) = length (index H)) [V; lo; up].
Proof.
  cbv zeta. intros Hr.
  destruct (fit_frames env self df dcol ecol wcol now Hr)
    as (T & E & H & V & p & HT & HE & HH & HV & Hci & Hp & I1 & I2 & C2 & L1 & L2 & Hne).
  exists T, E, H, V.
  exists (fst (_compute_confidence_intervals env (alpha self) H V)),
         (snd (_compute_confidence_intervals env (alpha self) H V)), p.
  splits; try assumption.
  - rewrite I1. apply unique_death_times_spec.
  - repeat constructor; try assumption;
      unfold _compute_confidence_intervals; cbn [fst snd];
      rewrite frame_map2_length; congruence.
Qed.

Lemma successful_fit_postconditions_witness :
  let o := fit Ref.env Data.default Data.df5 "T" (Some "E") None Data.now in
  exists H V, cumulative_hazards_ (after o) = Some H /\
              cumulative_variance_ (after o) = Some V /\
              index V = index H /\ length (values V) = length (index H).
Proof.
  cbv zeta.
  destruct (successful_fit_postconditions Ref.env Data.default Data.df5 "T" (Some "E") None
              Data.now ltac:(vm_compute; reflexivity))
    as (T & E & H & V & lo & up & p & _ & _ & HH & HV & _ & _ & _ & _ & _ & _ & HF).
  exists H, V. inversion HF as [|? ? (I & _ & L) _]; subst. auto.
Defined.

(** ** [predict_expectation] *)

Lemma trapz_short (y : list R) (x : list R) : (length x <= 1)%nat -> trapz y x = 0%R.
Proof.
  destruct y as [|y0 [|y1 y]]; destruct x as [|x0 [|x1 x]]; simpl; intros Hl;
    try reflexivity; lia.
Qed.

Lemma trapz_nonneg (x : list Q) :
  StronglySorted Qlt x ->
  forall y, Forall (fun v => (0 <= v)%R) y -> (0 <= trapz y (map Q2R x))%R.
Proof.
  induction 1 as [|x0 l Hs IH Hx]; intros y Hy.
  - destruct y as [|y0 [|y1 y]]; simpl; apply Rle_refl.
  - destruct y as [|y0 [|y1 y]]; [apply Rle_refl | destruct l; apply Rle_refl |].
    destruct l as [|x1 l]; [apply Rle_refl|].
    inversion Hy as [|? ? H0 Hy']; subst.
    specialize (IH (y1 :: y) Hy').
    inversion Hy' as [|? ? H1 _]; subst.
    inversion Hx as [|? ? Hlt _]; subst. apply Qlt_Rlt in Hlt.
    change (0 <= (Q2R x1 - Q2R x0) * ((y1 + y0) / 2)
                 + trapz (y1 :: y) (map Q2R (x1 :: l)))%R.
    assert (0 <= (Q2R x1 - Q2R x0) * ((y1 + y0) / 2))%R
      by (apply Rmult_le_pos; Lra.lra).
    Lra.lra.
Qed.

Lemma survival_curve_nonneg (M : matrix) (i : nat) :
  Forall (fun v => (0 <= v)%R) (curve_of 0%R (map (map exp_neg) M) i).
Proof.
  unfold curve_of. rewrite map_map. apply Forall_forall. intros v Hv.
  apply in_map_iff in Hv. destruct Hv as (row & <- & _).
  destruct (nth_in_or_default i (map exp_neg row) 0%R) as [Hin|Hd];
    [|rewrite Hd; apply Rle_refl].
  apply in_map_iff in Hin. destruct Hin as (h & <- & _).
  unfold exp_neg. left. apply exp_pos.
Qed.

(** [X17] After a call of [fit] that returns, [predict_expectation] on an
    array raises what [predict_cumulative_hazard] raises on it, and
    otherwise returns one number per row of the array, none of them
    negative.  The integral runs from the first death time to the last
    one: with a single death time every expectation is 0. *)
Theorem expectation_nonneg
        (env : Env) (self : AalenAdditiveFitter) (df : DataFrame)
        (dcol : string) (ecol wcol : option string) (now : string) (a : matrix) :
  let o := fit env self df dcol ecol wcol now in
  returned o = Ok tt ->
  match predict_cumulative_hazard (after o) (Array a) with
  | Raised e => predict_expectation (after o) a = Raised e
  | Ok C =>
      exists v, predict_expectation (after o) a = Ok v /\
                length v = length a /\
                Forall (fun x => (0 <= x)%R) v /\
                (length (timeline C) = 1%nat -> Forall (fun x => x = 0%R) v)
  end.
Proof.
  cbv zeta. intros Hr.
  destruct (fit_frames env self df dcol ecol wcol now Hr)
    as (T & E & H & V & p & _ & _ & HH & _ & _ & _ & I1 & _).
  assert (Hs : StronglySorted Qlt (index H))
    by (rewrite I1; apply unique_death_times_spec).
  unfold predict_expectation, predict_survival_function. rewrite HH. cbn [attribute bind].
  destruct (predict_cumulative_hazard _ (Array a)) as [C|e] eqn:HC; cbn [bind]; [|reflexivity].
  assert (Ht : timeline C = index H).
  { unfold predict_cumulative_hazard in HC. rewrite HH in HC. cbn [attribute bind] in HC.
    destruct (dot_transposed _ _ _); cbn [bind] in HC; [|discriminate HC].
    inversion HC. reflexivity. }
  eexists. split; [reflexivity|]. cbn [curve_values]. splits.
  - rewrite length_map, length_seq. reflexivity.
  - apply Forall_forall. intros x Hx. apply in_map_iff in Hx.
    destruct Hx as (i & <- & _). apply trapz_nonneg; [assumption|].
    apply survival_curve_nonneg.
  - intros Hl. apply Forall_forall. intros x Hx. apply in_map_iff in Hx.
    destruct Hx as (i & <- & _). apply trapz_short.
    rewrite length_map, <- Ht, Hl. constructor.
Qed.

Lemma expectation_nonneg_witness :
  let self := after (fit Ref.env Data.default Data.df5 "T" (Some "E") None Data.now) in
  exists v, predict_expectation self [[1]; [-2]; [0]] = Ok v /\
            length v = 3%nat /\ Forall (fun x => (0 <= x)%R) v.
Proof.
  cbv zeta.
  pose proof (expectation_nonneg Ref.env Data.default Data.df5 "T" (Some "E") None Data.now
                [[1]; [-2]; [0]] ltac:(vm_compute; reflexivity)) as P.
  cbv zeta in P.
  assert (HC : exists C,
             predict_cumulative_hazard
               (after (fit Ref.env Data.default Data.df5 "T" (Some "E") None Data.now))
               (Array [[1]; [-2]; [0]]) = Ok C)
    by (eexists; vm_compute; reflexivity).
  destruct HC as (C & HC). rewrite HC in P.
  destruct P as (v & Hv & Hl & Hp & _). exists v. auto.
Defined.

(** ** [_compute_confidence_intervals] *)

Lemma nth_map2 (f : Q -> Q -> Q) : forall (a b : vector) (j : nat),
  (j < length a)%nat -> (j < length b)%nat ->
  nth j (map2 f a b) 0 = f (nth j a 0) (nth j b 0).
Proof.
  induction a as [|x a IH]; intros [|y b] [|j]; simpl; intros Ha Hb; try lia;
    [reflexivity | apply IH; lia].
Qed.

Lemma nth_rows_map2 (f : Q -> Q -> Q) : forall (A B : matrix) (k : nat),
  (k < length A)%nat -> (k < length B)%nat ->
  nth k (map (fun p => map2 f (fst p) (snd p)) (combine A B)) []
  = map2 f (nth k A []) (nth k B []).
Proof.
  induction A as [|r A IH]; intros [|r' B] [|k]; simpl; intros Ha Hb; try lia;
    [reflexivity | apply IH; lia].
Qed.

Lemma cell_frame_map2 (f : Q -> Q -> Q) (A B : DataFrame) (k j : nat) :
  in_table (values A) k j -> in_table (values B) k j ->
  cell 0 (values (frame_map2 f A B)) k j
  = f (cell 0 (values A) k j) (cell 0 (values B) k j).
Proof.
  intros [Ha Ha'] [Hb Hb']. unfold cell, frame_map2. cbn [values].
  rewrite nth_rows_map2 by assumption. apply nth_map2; assumption.
Qed.

(** [X18] Where the quantile and the square root are not negative, the
    two confidence bounds enclose the estimate and are at the same
    distance from it: the quantile times the square root of the variance
    of the cell. *)
Theorem confidence_bounds_enclose_estimate
        (env : Env) (a : Q) (H V : DataFrame) (k j : nat) :
  let alpha2 := inv_normal_cdf env (1 - (1 - a) / 2) in
  let ci := _compute_confidence_intervals env a H V in
  let h := cell 0 (values H) k j in
  let lower := cell 0 (values (fst ci)) k j in
  let upper := cell 0 (values (snd ci)) k j in
  let half := alpha2 * np_sqrt env (cell 0 (values V) k j) in
  in_table (values H) k j -> in_table (values V) k j ->
  0 <= alpha2 -> 0 <= np_sqrt env (cell 0 (values V) k j) ->
  lower <= h /\ h <= upper /\ upper - h == half /\ h - lower == half.
Proof.
  cbv zeta. intros HH HV Ha Hs. unfold _compute_confidence_intervals. cbn [fst snd].
  rewrite !cell_frame_map2 by assumption.
  pose proof (Qmult_le_0_compat _ _ Ha Hs) as Hm.
  set (m := inv_normal_cdf env (1 - (1 - a) / 2) * np_sqrt env (cell 0 (values V) k j)) in *.
  splits; lra.
Qed.

Lemma confidence_bounds_enclose_estimate_witness :
  let H := mkDataFrame ["x"] [1; 2] [[1]; [3]] in
  let V := mkDataFrame ["x"] [1; 2] [[4]; [9]] in
  let ci := _compute_confidence_intervals Ref.env (95 # 100) H V in
  cell 0 (values (fst ci)) 1 0 <= 3 /\ 3 <= cell 0 (values (snd ci)) 1 0.
Proof.
  cbv zeta.
  destruct (confidence_bounds_enclose_estimate Ref.env (95 # 100)
              (mkDataFrame ["x"] [1; 2] [[1]; [3]])
              (mkDataFrame ["x"] [1; 2] [[4]; [9]]) 1 0)
    as (Hlo & Hup & _).
  - unfold in_table. simpl. lia.
  - unfold in_table. simpl. lia.
  - vm_compute. discriminate.
  - vm_compute. discriminate.
  - split; [exact Hlo | exact Hup].
Defined.

(** ** The normalisation vector and the object before any fit *)

(** [X19] Without an intercept, no entry of the normalisation vector of
    [fit] is below 1e-8: the division of the covariates by it never
    divides by zero.  The vector has one entry per column. *)
Theorem norm_std_positive_without_intercept
        (env : Env) (self : AalenAdditiveFitter) (X : DataFrame) :
  fit_intercept self = false ->
  length (norm_std env self X) = length (columns X) /\
  Forall (fun x => 1 # 100000000 <= x) (norm_std env self X).
Proof.
  intros Hfi. unfold norm_std. rewrite Hfi. split.
  - unfold pd.transpose. rewrite !length_map, length_seq. reflexivity.
  - apply Forall_forall. intros x Hx. apply in_map_iff in Hx.
    destruct Hx as (y & <- & _).
    destruct (Qlt_bool y (1 # 100000000)) eqn:Hy.
    + unfold Qle. simpl. lia.
    + apply Qlt_bool_false. exact Hy.
Qed.

Lemma norm_std_positive_without_intercept_witness :
  Forall (fun x => 1 # 100000000 <= x)
         (norm_std Ref.env Data.plain (mkDataFrame ["x"; "z"] [0; 1; 2]
                                                   [[1; 5]; [-1; 5]; [0; 5]])).
Proof.
  apply (norm_std_positive_without_intercept Ref.env Data.plain). reflexivity.
Defined.

(** [X20] On an object that has just been constructed, the three
    prediction methods and [smoothed_hazards_] raise the [AttributeError]
    of [cumulative_hazards_], and [score_] that of [_concordance_score_],
    leaving the object as it is. *)
Theorem unfitted_object_raises
        (fi : bool) (a c1 c2 : Q) (o : Obj.t) :
  new_object fi a c1 c2 = Ok o ->
  let missing := AttributeError "cumulative_hazards_" in
  (forall X, predict_cumulative_hazard (Obj.fitter o) X = Raised missing) /\
  (forall X, predict_survival_function (Obj.fitter o) X = Raised missing) /\
  (forall x, predict_expectation (Obj.fitter o) x = Raised missing) /\
  (forall kernel bandwidth, smoothed_hazards_ kernel o bandwidth = Raised missing) /\
  (forall ci, score_ ci o = (o, Raised (AttributeError "_concordance_score_"))).
Proof.
  unfold new_object, new, __init__. intros Hn.
  assert (Hc : forall X, predict_cumulative_hazard (Obj.fitter o) X
                         = Raised (AttributeError "cumulative_hazards_")).
  { intros X.
    destruct (negb _); [discriminate Hn|].
    destruct (_ || _)%bool; [discriminate Hn|].
    cbn [bind] in Hn. inversion Hn; subst o. destruct X; reflexivity. }
  cbv zeta. splits.
  - exact Hc.
  - intros X. unfold predict_survival_function. rewrite Hc. reflexivity.
  - intros x.
    destruct (negb _); [discriminate Hn|].
    destruct (_ || _)%bool; [discriminate Hn|].
    cbn [bind] in Hn. inversion Hn; subst o. reflexivity.
  - intros kernel bandwidth.
    destruct (negb _); [discriminate Hn|].
    destruct (_ || _)%bool; [discriminate Hn|].
    cbn [bind] in Hn. inversion Hn; subst o. reflexivity.
  - intros ci.
    destruct (negb _); [discriminate Hn|].
    destruct (_ || _)%bool; [discriminate Hn|].
    cbn [bind] in Hn. inversion Hn; subst o. reflexivity.
Qed.

Lemma unfitted_object_raises_witness :
  predict_survival_function Data.default (Array [[1]])
  = Raised (AttributeError "cumulative_hazards_").
Proof.
  destruct (unfitted_object_raises true (95 # 100) 0 0 (Obj.mk Data.default None None)
              ltac:(vm_compute; reflexivity)) as (_ & Hs & _).
  exact (Hs (Array [[1]])).
Defined.
